(** * Arcula: a deterministic hierarchical key assignment scheme

    A shallow embedding of [arcula/encode.py], [arcula/crypto.py],
    [arcula/hierarchy.py], [arcula/dhka.py] and [arcula/arcula.py].

    Python objects live in a store indexed by object identity; the key
    generation procedures are written in a state-and-exception monad over that
    store, so that the mutations performed before an exception is raised stay
    visible afterwards, exactly as in Python. *)

From Stdlib Require Import ZArith List Strings.Byte String Lia.
From stdpp Require Import gmap list.

Set Warnings "-register-all,-clear-no-such-hyp".

Local Open Scope Z_scope.

(** ** Bytes *)

Abbreviation bytes := (list Byte.byte).

Definition byte_of_Z (z : Z) : Byte.byte :=
  match Byte.of_N (Z.to_N (z mod 256)) with
  | Some b => b
  | None => Byte.x00
  end.

(** [k.to_bytes(n, byteorder='big')] for [0 <= k < 256 ^ n]. *)
Fixpoint to_bytes_big (n : nat) (k : Z) : bytes :=
  match n with
  | O => []
  | S n' => to_bytes_big n' (k / 256) ++ [byte_of_Z k]
  end.
Arguments to_bytes_big : simpl never.

Definition Z_of_byte (b : Byte.byte) : Z := Z.of_N (Byte.to_N b).

(** [int.from_bytes(b, byteorder='big')]. *)
Definition from_bytes_big (b : bytes) : Z :=
  fold_left (fun acc x => acc * 256 + Z_of_byte x) b 0.

(** ** Exceptions, entropy and the object store *)

(** The [assert] statements of the package, one constructor per site. *)
Inductive Assertion :=
| PosetNotTree          (* dhka.py: assert False, 'The poset is not a tree.' *)
| EdgesLengthMismatch   (* dhka.py: assert len(u.encrypted_edges) == len(u.edges) *)
| SeedLength            (* arcula.py: assert len(seed) == 512 // 8 *)
| SiblingIds            (* arcula.py: assert len(set(e.id for e in u.edges)) == len(u.edges) *)
| AesKeyLength          (* crypto.py: aes_ae, assert len(k) == 256 // 8 *)
| EcdsaSeedLength       (* crypto.py: ecdsa_keygen, assert len(seed) == 256 // 8 *)
| IntRange8             (* encode.py: int_to_bytes_8, assert 0 <= k < 2 ** 64 *)
| IntRange32            (* encode.py: int_to_bytes_32, assert 0 <= k < 2 ** 256 *)
| NodeIdRange           (* hierarchy.py: Node.__init__, assert 0 <= identifier < 2 ** 64 *)
| Bytes32Length         (* encode.py: bytes_32_to_int, assert len(b) == 32 *)
| Bytes8Length          (* encode.py: bytes_8_to_int, assert len(b) == 8 *)
| CoinConfigEmpty       (* bip44.py: bip44_tree, assert coin_config *)
| AccountAddresses.     (* bip44.py: assert n_private_addresses > 0 or n_public_addresses > 0 *)

Inductive Error :=
| AssertionError (a : Assertion)
| TypeError             (* an operation applied to None *)
| InvalidTag            (* AESGCM.decrypt: authentication failure *)
| MalformedPointError   (* SigningKey.from_secret_exponent: exponent out of range *)
| KeyError              (* constants.CoinType[coin]: no member of that name *)
| DanglingReference     (* a location outside the store; no Python counterpart *)
| OutOfFuel.            (* the loop bound of the model was reached *)

Inductive Result (A : Type) :=
| Ok (a : A)
| Raise (e : Error).
Arguments Ok {A} a.
Arguments Raise {A} e.

(** The operating system's entropy, read front to back. *)
Definition Entropy := nat → Byte.byte.

(** [secrets.token_bytes(n)]. *)
Definition token_bytes (n : nat) (e : Entropy) : bytes * Entropy :=
  (map e (seq 0 n), fun i => e (n + i)%nat).

(** Object identities. *)
Abbreviation loc := positive.

Module ecdsa.

(** [ecdsa.VerifyingKey]: the public point, [pk.pubkey.point.x()], [.y()]. *)
Record VerifyingKey := { x : Z; y : Z }.

(** [ecdsa.SigningKey]. *)
Record SigningKey := {
  secret_multiplier : Z;
  get_verifying_key : VerifyingKey
}.

(** [ecdsa.curves.Curve]: the group order and multiples of the generator. *)
Record Curve := {
  order : Z;
  generator_mul : Z → VerifyingKey
}.

(** [SigningKey.from_secret_exponent(secexp, curve)]. *)
Definition from_secret_exponent (secexp : Z) (curve : Curve) : Result SigningKey :=
  if (1 <=? secexp) && (secexp <? order curve)
  then Ok {| secret_multiplier := secexp;
             get_verifying_key := generator_mul curve secexp |}
  else Raise MalformedPointError.

End ecdsa.

Module hierarchy.

(** [Node], [DHKANode] and [ArculaNode]: the subclasses only add
    attributes, so one record carries the attributes of all three. *)
Record Node := {
  id : Z;
  tag : option string;
  edges : list loc;
  _key : option bytes;
  _label : option bytes;
  _secret : option bytes;
  _encryption_key : option bytes;
  encrypted_edges : list (bytes * bytes);
  certificate : option (bytes * (bytes * bytes));
  _signing_key : option ecdsa.SigningKey
}.

(** The attributes as [Node.__init__] and the subclasses set them. *)
Definition blank_Node (identifier : Z) (tg : option string) : Node :=
  {| id := identifier; tag := tg; edges := [];
     _key := None; _label := None; _secret := None; _encryption_key := None;
     encrypted_edges := []; certificate := None; _signing_key := None |}.

(** [Node.__init__]: [assert 0 <= identifier < 2 ** 64]. *)
Definition new_Node (identifier : Z) (tg : option string) : Result Node :=
  if (0 <=? identifier) && (identifier <? 2 ^ 64)
  then Ok (blank_Node identifier tg)
  else Raise (AssertionError NodeIdRange).

(** [n.edges = es] ([n.edges += ...], [n.edges.append(...)]). *)
Definition set_edges (n : Node) (es : list loc) : Node :=
  {| id := id n; tag := tag n; edges := es;
     _key := _key n; _label := _label n; _secret := _secret n;
     _encryption_key := _encryption_key n;
     encrypted_edges := encrypted_edges n;
     certificate := certificate n; _signing_key := _signing_key n |}.

(** [v._label, v._secret, v._encryption_key, v._key = ...]. *)
Definition set_material (n : Node) (m : bytes * bytes * bytes * bytes) : Node :=
  let '(lbl, sec, ek, pk) := m in
  {| id := id n; tag := tag n; edges := edges n;
     _key := Some pk; _label := Some lbl; _secret := Some sec;
     _encryption_key := Some ek;
     encrypted_edges := encrypted_edges n;
     certificate := certificate n; _signing_key := _signing_key n |}.

(** [u.encrypted_edges.append(c)]. *)
Definition append_encrypted_edge (n : Node) (c : bytes * bytes) : Node :=
  {| id := id n; tag := tag n; edges := edges n;
     _key := _key n; _label := _label n; _secret := _secret n;
     _encryption_key := _encryption_key n;
     encrypted_edges := encrypted_edges n ++ [c];
     certificate := certificate n; _signing_key := _signing_key n |}.

(** [u._signing_key = sk]. *)
Definition set_signing_key (n : Node) (sk : ecdsa.SigningKey) : Node :=
  {| id := id n; tag := tag n; edges := edges n;
     _key := _key n; _label := _label n; _secret := _secret n;
     _encryption_key := _encryption_key n;
     encrypted_edges := encrypted_edges n;
     certificate := certificate n; _signing_key := Some sk |}.

(** [u.certificate = c]. *)
Definition set_certificate (n : Node) (c : bytes * (bytes * bytes)) : Node :=
  {| id := id n; tag := tag n; edges := edges n;
     _key := _key n; _label := _label n; _secret := _secret n;
     _encryption_key := _encryption_key n;
     encrypted_edges := encrypted_edges n;
     certificate := Some c; _signing_key := _signing_key n |}.

End hierarchy.
Import hierarchy.

(** The program state: the store of node objects, the entropy still unread,
    and the [cold_storage_public_key] attribute of the wallet object. *)
Record State := {
  heap : gmap loc Node;
  entropy : Entropy;
  cold_storage_public_key : option ecdsa.VerifyingKey
}.

Definition M (A : Type) : Type := State → Result A * State.

Definition ret {A} (a : A) : M A := fun s => (Ok a, s).
Definition raise {A} (e : Error) : M A := fun s => (Raise e, s).
Definition bind {A B} (m : M A) (f : A → M B) : M B :=
  fun s => match m s with
           | (Ok a, s') => f a s'
           | (Raise e, s') => (Raise e, s')
           end.

Declare Scope m_scope.
Delimit Scope m_scope with M.
Notation "x <- m ;; k" := (bind m (fun x => k))
  (at level 100, m at next level, right associativity) : m_scope.
Notation "m ;;; k" := (bind m (fun _ => k))
  (at level 100, right associativity) : m_scope.
Local Open Scope m_scope.

Definition lift {A} (r : Result A) : M A := fun s => (r, s).

Definition assert (b : bool) (a : Assertion) : M unit :=
  if b then ret tt else raise (AssertionError a).

(** Reading an attribute that may still be [None] and using it as bytes. *)
Definition not_None {A} (o : option A) : M A :=
  match o with
  | Some a => ret a
  | None => raise TypeError
  end.

Definition get_node (l : loc) : M Node :=
  fun s => match heap s !! l with
           | Some n => (Ok n, s)
           | None => (Raise DanglingReference, s)
           end.

Definition set_heap (s : State) (h : gmap loc Node) : State :=
  {| heap := h; entropy := entropy s;
     cold_storage_public_key := cold_storage_public_key s |}.

Definition set_entropy (s : State) (e : Entropy) : State :=
  {| heap := heap s; entropy := e;
     cold_storage_public_key := cold_storage_public_key s |}.

(** In-place update of the object at [l]. *)
Definition update_node (l : loc) (f : Node → Node) : M unit :=
  fun s => match heap s !! l with
           | Some n => (Ok tt, set_heap s (<[l := f n]> (heap s)))
           | None => (Raise DanglingReference, s)
           end.

(** A new object: its identity differs from that of every object of the
    store. *)
Definition alloc (n : Node) : M loc :=
  fun s => let l := fresh (dom (heap s)) in
           (Ok l, set_heap s (<[l := n]> (heap s))).

(** A computation that only reads entropy. *)
Definition with_entropy {A} (f : Entropy → Result A * Entropy) : M A :=
  fun s => let '(r, e) := f (entropy s) in (r, set_entropy s e).

Module encode.

(** [int_to_bytes_32]. *)
Definition int_to_bytes_32 (k : Z) : Result bytes :=
  if (0 <=? k) && (k <? 2 ^ 256) then Ok (to_bytes_big 32 k)
  else Raise (AssertionError IntRange32).

(** [bytes_32_to_int]. *)
Definition bytes_32_to_int (b : bytes) : Result Z :=
  if (length b =? 32)%nat then Ok (from_bytes_big b)
  else Raise (AssertionError Bytes32Length).

(** [int_to_bytes_8]. *)
Definition int_to_bytes_8 (k : Z) : Result bytes :=
  if (0 <=? k) && (k <? 2 ^ 64) then Ok (to_bytes_big 8 k)
  else Raise (AssertionError IntRange8).

(** [bytes_8_to_int]. *)
Definition bytes_8_to_int (b : bytes) : Result Z :=
  if (length b =? 8)%nat then Ok (from_bytes_big b)
  else Raise (AssertionError Bytes8Length).

(** [verification_key_to_bytes_33]. *)
Definition verification_key_to_bytes_33 (pk : ecdsa.VerifyingKey) : Result bytes :=
  match int_to_bytes_32 (ecdsa.x pk) with
  | Ok xs => Ok ((if ecdsa.y pk mod 2 =? 0 then [Byte.x02] else [Byte.x03]) ++ xs)
  | Raise e => Raise e
  end.

End encode.

Module constants.

(** [CryptoConstants]. *)
Definition PRF_ENCRYPTION_PREFIX : bytes := [Byte.x00].
Definition PRF_PRIVATE_KEY_PREFIX : bytes := [Byte.x01].
Definition PRF_EDGE_PREFIX : bytes := [Byte.x02].
Definition PRF_SECRET_PREFIX : bytes := [Byte.x03].
Definition BIP32_HARDENED_INDEX : Z := 2 ^ 31.

(** [CoinType[name]]: the value of the member called [name], if there is
    one. *)
Definition CoinType (name : string) : option Z :=
  if String.eqb name "BTC" then Some 0x80000000
  else if String.eqb name "TEST" then Some 0x80000001
  else if String.eqb name "LTC" then Some 0x80000002
  else if String.eqb name "BCH" then Some 0x80000091
  else None.

End constants.

Module crypto.

Section Primitives.

(** The libraries the module calls into. *)
Variable hashlib_sha3_512 : bytes → bytes.
(** [AESGCM(k).encrypt(nonce, m, None)] and [AESGCM(k).decrypt(nonce, c, None)]
    ([None] when the library raises). *)
Variable AESGCM_encrypt : bytes → bytes → bytes → bytes.
Variable AESGCM_decrypt : bytes → bytes → bytes → option bytes.
Variable randrange_from_seed__trytryagain : bytes → Z → Z.
(** [k.sign(message, hashfunc=hashlib.sha256,
    sigencode=ecdsa.util.sigencode_der_canonize)]: the library draws the
    signature nonce from the operating system's entropy. *)
Variable SigningKey_sign : ecdsa.SigningKey → bytes → Entropy → bytes * Entropy.

Definition sha3_512 (m : bytes) : bytes := hashlib_sha3_512 m.

Definition sha3_512_half (m : bytes) : bytes :=
  let d := hashlib_sha3_512 m in
  firstn (length d / 2)%nat d.

Definition sha3_512_half_k (k m : bytes) : bytes := sha3_512_half (k ++ m).

Definition aes_ae (k m : bytes) (e : Entropy) : Result (bytes * bytes) * Entropy :=
  if (length k =? 256 / 8)%nat then
    let '(nonce, e') := token_bytes 12 e in
    let cipher := AESGCM_encrypt k nonce m in
    (Ok (nonce, cipher), e')
  else (Raise (AssertionError AesKeyLength), e).

Definition aes_ad (k : bytes) (c : bytes * bytes) : Result bytes :=
  match AESGCM_decrypt k (fst c) (snd c) with
  | Some m => Ok m
  | None => Raise InvalidTag
  end.

Definition ecdsa_keygen (seed : bytes) (curve : ecdsa.Curve) : Result ecdsa.SigningKey :=
  if (length seed =? 256 / 8)%nat then
    let exponent := randrange_from_seed__trytryagain seed (ecdsa.order curve) in
    ecdsa.from_secret_exponent exponent curve
  else Raise (AssertionError EcdsaSeedLength).

Definition ecdsa_sign (k : ecdsa.SigningKey) (message : bytes) (e : Entropy)
  : bytes * Entropy :=
  SigningKey_sign k message e.

End Primitives.

End crypto.

Module DHKA.

Section DHKA.

(** The attributes of a [DHKA] object. *)
Variable root : loc.
Variable prf_f : bytes → bytes → bytes.
Variable enc_f : bytes → bytes → Entropy → Result (bytes * bytes) * Entropy.
Variable dec_f : bytes → bytes * bytes → Result bytes.

(** [parent_secret] is an attribute read, hence possibly [None]; the
    label is computed before the PRF touches the secret. *)
Definition _label_secret_encryption_key_from_parent
    (parent_secret : option bytes) (identifier : Z)
  : Result (bytes * bytes * bytes * bytes) :=
  match encode.int_to_bytes_8 identifier with
  | Raise e => Raise e
  | Ok label =>
      match parent_secret with
      | None => Raise TypeError
      | Some parent_secret =>
          let secret := prf_f parent_secret (constants.PRF_SECRET_PREFIX ++ label) in
          let encryption_key := prf_f secret (constants.PRF_ENCRYPTION_PREFIX ++ label) in
          let private_key := prf_f secret (constants.PRF_PRIVATE_KEY_PREFIX ++ label) in
          Ok (label, secret, encryption_key, private_key)
      end
  end.

Definition _edge_encryption_key (parent_encryption_key child_label : bytes) : bytes :=
  prf_f parent_encryption_key (constants.PRF_EDGE_PREFIX ++ child_label).

Definition _encrypt_edge (edge_encryption_key message : bytes)
  : Entropy → Result (bytes * bytes) * Entropy :=
  enc_f edge_encryption_key message.

(** The body of [for i, v in enumerate(u.edges)]; [q] is the queue. *)
Fixpoint keygen_edges (u : loc) (visited : gset loc) (vs q : list loc)
  : M (list loc) :=
  match vs with
  | [] => ret q
  | v :: vs =>
      assert (negb (bool_decide (v ∈ visited))) PosetNotTree ;;;
      let q := q ++ [v] in
      un <- get_node u ;;
      vn <- get_node v ;;
      m <- lift (_label_secret_encryption_key_from_parent (_secret un) (id vn)) ;;
      update_node v (fun n => set_material n m) ;;;
      un <- get_node u ;;
      vn <- get_node v ;;
      u_encryption_key <- not_None (_encryption_key un) ;;
      v_label <- not_None (_label vn) ;;
      let edge_encryption_key := _edge_encryption_key u_encryption_key v_label in
      v_encryption_key <- not_None (_encryption_key vn) ;;
      v_key <- not_None (_key vn) ;;
      edge_encryption <-
        with_entropy (_encrypt_edge edge_encryption_key (v_encryption_key ++ v_key)) ;;
      update_node u (fun n => append_encrypted_edge n edge_encryption) ;;;
      keygen_edges u visited vs q
  end.

(** [while q: ...]; every iteration uses one unit of [fuel]. *)
Fixpoint keygen_while (fuel : nat) (q : list loc) (visited : gset loc) : M unit :=
  match q with
  | [] => ret tt
  | u :: q =>
      match fuel with
      | O => raise OutOfFuel
      | S fuel =>
          let visited := visited ∪ {[u]} in
          un <- get_node u ;;
          q <- keygen_edges u visited (edges un) q ;;
          un <- get_node u ;;
          assert (length (encrypted_edges un) =? length (edges un))%nat
                 EdgesLengthMismatch ;;;
          keygen_while fuel q visited
      end
  end.

Definition keygen (fuel : nat) (seed : bytes) : M unit :=
  rn <- get_node root ;;
  m <- lift (_label_secret_encryption_key_from_parent (Some seed) (id rn)) ;;
  update_node root (fun n => set_material n m) ;;;
  keygen_while fuel [root] ∅.

End DHKA.

End DHKA.

Module Arcula.

Section Arcula.

(** The attributes of an [Arcula] object. *)
Variable root : loc.
Variable hash_f : bytes → bytes.
Variable prf_f : bytes → bytes → bytes.
Variable enc_f : bytes → bytes → Entropy → Result (bytes * bytes) * Entropy.
Variable dec_f : bytes → bytes * bytes → Result bytes.
Variable curve : ecdsa.Curve.

(** The [ecdsa] library behind [crypto.ecdsa_keygen] and [crypto.ecdsa_sign]. *)
Variable randrange_from_seed__trytryagain : bytes → Z → Z.
Variable SigningKey_sign : ecdsa.SigningKey → bytes → Entropy → bytes * Entropy.

Definition _cold_storage_keys (seed : bytes) : Result ecdsa.SigningKey :=
  crypto.ecdsa_keygen randrange_from_seed__trytryagain seed curve.

Definition _create_certificate (cold_storage_key : ecdsa.SigningKey)
    (public_signing_key : ecdsa.VerifyingKey) (identifier : Z)
  : M (bytes * (bytes * bytes)) :=
  public_signing_key <- lift (encode.verification_key_to_bytes_33 public_signing_key) ;;
  identifier <- lift (encode.int_to_bytes_8 identifier) ;;
  signature <- with_entropy (fun e =>
    let '(sg, e') := crypto.ecdsa_sign SigningKey_sign cold_storage_key
                       (public_signing_key ++ identifier) e in
    (Ok sg, e')) ;;
  ret (signature, (public_signing_key, identifier)).

(** [e.id for e in u.edges]. *)
Fixpoint edge_ids (vs : list loc) : M (list Z) :=
  match vs with
  | [] => ret []
  | v :: vs =>
      vn <- get_node v ;;
      ids <- edge_ids vs ;;
      ret (id vn :: ids)
  end.

(** The second [while q: ...] of [Arcula.keygen]. *)
Fixpoint keygen_while (fuel : nat) (cold_storage_key : ecdsa.SigningKey)
    (q : list loc) (visited : gset loc) : M unit :=
  match q with
  | [] => ret tt
  | u :: q =>
      match fuel with
      | O => raise OutOfFuel
      | S fuel =>
          let visited := visited ∪ {[u]} in
          un <- get_node u ;;
          u_key <- not_None (_key un) ;;
          sk <- lift (crypto.ecdsa_keygen randrange_from_seed__trytryagain u_key curve) ;;
          update_node u (fun n => set_signing_key n sk) ;;;
          un <- get_node u ;;
          c <- _create_certificate cold_storage_key (ecdsa.get_verifying_key sk) (id un) ;;
          update_node u (fun n => set_certificate n c) ;;;
          un <- get_node u ;;
          ids <- edge_ids (edges un) ;;
          assert (size (list_to_set ids : gset Z) =? length (edges un))%nat SiblingIds ;;;
          let q := q ++ filter (fun v => v ∉ visited) (edges un) in
          keygen_while fuel cold_storage_key q visited
      end
  end.

Definition set_cold_storage_public_key (pk : ecdsa.VerifyingKey) : M unit :=
  fun s => (Ok tt, {| heap := heap s; entropy := entropy s;
                      cold_storage_public_key := Some pk |}).

Definition keygen (fuel : nat) (seed : bytes) : M unit :=
  assert (length seed =? 512 / 8)%nat SeedLength ;;;
  DHKA.keygen root prf_f enc_f fuel (firstn (256 / 8) seed) ;;;
  cold_storage_key <- lift (_cold_storage_keys (skipn (256 / 8) seed)) ;;
  set_cold_storage_public_key (ecdsa.get_verifying_key cold_storage_key) ;;;
  keygen_while fuel cold_storage_key [root] ∅.

End Arcula.

End Arcula.

Module bip44.

(** [cls(identifier, tag)]: a new node object. *)
Definition cls (identifier : Z) (tg : option string) : M loc :=
  n <- lift (new_Node identifier tg) ;;
  alloc n.

(** [u.edges.append(v)]. *)
Definition edges_append (u v : loc) : M unit :=
  update_node u (fun n => set_edges n (edges n ++ [v])).

(** [range(n)]. *)
Definition range (n : Z) : list Z := seqZ 0 n.

(** The address chain below [previous_node]:
    [for j in range(n): node = cls(j); previous_node.edges.append(node);
    previous_node = node]. *)
Fixpoint address_chain (js : list Z) (previous_node : loc) : M unit :=
  match js with
  | [] => ret tt
  | j :: js =>
      address_node <- cls j None ;;
      edges_append previous_node address_node ;;;
      address_chain js address_node
  end.

(** The body of the loop over the accounts of a coin. *)
Definition account (coin_node : loc) (i : Z) (n_addresses : Z * Z) : M unit :=
  let '(n_private_addresses, n_public_addresses) := n_addresses in
  assert ((0 <? n_private_addresses) || (0 <? n_public_addresses)) AccountAddresses ;;;
  account_node <- cls i None ;;
  edges_append coin_node account_node ;;;
  public_node <- cls 0 (Some "XPUB"%string) ;;
  edges_append account_node public_node ;;;
  private_node <- cls 1 (Some "XPRV"%string) ;;
  edges_append account_node private_node ;;;
  address_chain (range n_private_addresses) private_node ;;;
  address_chain (range n_public_addresses) public_node.

(** [for i, (...) in enumerate(coin_config)], from index [i] on. *)
Fixpoint accounts (coin_node : loc) (i : Z) (coin_config : list (Z * Z)) : M unit :=
  match coin_config with
  | [] => ret tt
  | n_addresses :: coin_config =>
      account coin_node i n_addresses ;;;
      accounts coin_node (i + 1) coin_config
  end.

(** [for coin, coin_config in config.items()]; the dictionary is the list
    of its items, in insertion order.  [assert isinstance(coin, str)] holds
    by the type of [coin]; [assert coin_config] fails on an empty sequence
    of accounts. *)
Fixpoint coins (purpose_node : loc) (config : list (string * list (Z * Z))) : M unit :=
  match config with
  | [] => ret tt
  | (coin, coin_config) :: config =>
      assert (negb (Nat.eqb (length coin_config) 0)) CoinConfigEmpty ;;;
      coin_type <- lift (match constants.CoinType coin with
                         | Some v => Ok v
                         | None => Raise KeyError
                         end) ;;
      coin_node <- cls coin_type (Some coin) ;;
      edges_append purpose_node coin_node ;;;
      accounts coin_node 0 coin_config ;;;
      coins purpose_node config
  end.

(** [bip44_tree(config, cls)]. *)
Definition bip44_tree (config : list (string * list (Z * Z))) : M loc :=
  master_node <- cls 0 (Some "m"%string) ;;
  purpose_node <- cls (44 + constants.BIP32_HARDENED_INDEX) (Some "44'"%string) ;;
  edges_append master_node purpose_node ;;;
  coins purpose_node config ;;;
  ret master_node.

Section ArculaBIP44.

Variable prf_f : bytes → bytes → bytes.
Variable enc_f : bytes → bytes → Entropy → Result (bytes * bytes) * Entropy.
Variable curve : ecdsa.Curve.
Variable randrange_from_seed__trytryagain : bytes → Z → Z.
Variable SigningKey_sign : ecdsa.SigningKey → bytes → Entropy → bytes * Entropy.

(** [Arcula.__init__]: [self.cold_storage_public_key = None]. *)
Definition Arcula__init__ : M unit :=
  fun s => (Ok tt, {| heap := heap s; entropy := entropy s;
                      cold_storage_public_key := None |}).

(** [ArculaBIP44.__init__(seed, config)]; the result is [self.arcula.root]. *)
Definition ArculaBIP44__init__ (fuel : nat) (seed : bytes)
    (config : list (string * list (Z * Z))) : M loc :=
  root <- bip44_tree config ;;
  Arcula__init__ ;;;
  Arcula.keygen root prf_f enc_f curve randrange_from_seed__trytryagain
    SigningKey_sign fuel seed ;;;
  ret root.

(** [get_cold_storage_public_key]. *)
Definition get_cold_storage_public_key : M (option ecdsa.VerifyingKey) :=
  fun s => (Ok (cold_storage_public_key s), s).

End ArculaBIP44.

End bip44.

(** ** Tree-shaped hierarchies

    A [Tree] is the shape of a hierarchy built as the tree builder and the
    tests build it: every node object is the child of at most one parent. *)

Inductive Tree := T (l : loc) (cs : list Tree).

Definition root_of (t : Tree) : loc := match t with T l _ => l end.
Definition children (t : Tree) : list Tree := match t with T _ cs => cs end.

Fixpoint locs (t : Tree) : list loc :=
  match t with T l cs => l :: (cs ≫= locs) end.

Fixpoint subtrees (t : Tree) : list Tree :=
  match t with T _ cs => t :: (cs ≫= subtrees) end.

(** The object at the root of [t] is a node as [Node.__init__] leaves it,
    apart from its [edges], which list the roots of the children of [t]. *)
Definition fresh_node_at (h : gmap loc Node) (t : Tree) : Prop :=
  ∃ n, h !! root_of t = Some n ∧
       edges n = root_of <$> children t ∧ 0 ≤ id n < 2 ^ 64 ∧
       encrypted_edges n = [] ∧ certificate n = None ∧ _signing_key n = None.

(** The store holds a freshly built hierarchy of shape [t]: the node objects
    of [t] are pairwise distinct, so no object has two parents. *)
Definition fresh_hierarchy (h : gmap loc Node) (t : Tree) : Prop :=
  NoDup (locs t) ∧ ∀ s, s ∈ subtrees t → fresh_node_at h s.

Definition fresh_node_atb (h : gmap loc Node) (t : Tree) : bool :=
  match h !! root_of t with
  | Some n =>
      bool_decide (edges n = root_of <$> children t) &&
      (0 <=? id n) && (id n <? 2 ^ 64) &&
      match encrypted_edges n, certificate n, _signing_key n with
      | [], None, None => true
      | _, _, _ => false
      end
  | None => false
  end.

Definition fresh_hierarchyb (h : gmap loc Node) (t : Tree) : bool :=
  bool_decide (NoDup (locs t)) && forallb (fresh_node_atb h) (subtrees t).

(** The ids of the children of the node at [u], in declared order. *)
Definition child_ids (h : gmap loc Node) (u : loc) : list Z :=
  match h !! u with
  | Some un => omap (fun v => id <$> h !! v) (edges un)
  | None => []
  end.

(** Two nodes that differ at most in their cryptographic attributes. *)
Definition same_structure (n n' : Node) : Prop :=
  id n' = id n ∧ tag n' = tag n ∧ edges n' = edges n ∧
  certificate n' = certificate n ∧ _signing_key n' = _signing_key n.

Definition same_material (n n' : Node) : Prop :=
  _label n' = _label n ∧ _secret n' = _secret n ∧
  _encryption_key n' = _encryption_key n ∧ _key n' = _key n.

(** [u.encrypted_edges.append(c)] for every [c] of [cts], in order. *)
Definition add_edges (n : Node) (cts : list (bytes * bytes)) : Node :=
  fold_left append_encrypted_edge cts n.

(** What the traversal needs of a node it has not reached yet. *)
Definition shaped (h : gmap loc Node) (s : Tree) : Prop :=
  ∃ n, h !! root_of s = Some n ∧ edges n = root_of <$> children s ∧
       0 ≤ id n < 2 ^ 64 ∧ encrypted_edges n = [].

Section Material.

Variable prf_f : bytes → bytes → bytes.
Variable enc_f : bytes → bytes → Entropy → Result (bytes * bytes) * Entropy.

  (** The node carries the tuple derived from [parent_secret] and its id. *)
Definition has_material (n : Node) (parent_secret : bytes) : Prop :=
    let label := to_bytes_big 8 (id n) in
    let secret := prf_f parent_secret (Byte.x03 :: label) in
    _label n = Some label ∧
    _secret n = Some secret ∧
    _encryption_key n = Some (prf_f secret (Byte.x00 :: label)) ∧
    _key n = Some (prf_f secret (Byte.x01 :: label)).

  (** [c] is an encryption of [vn]'s (encryption key, private key) under the
      edge key of the edge from [un] to [vn]. *)
Definition is_edge_cipher (un vn : Node) (c : bytes * bytes) : Prop :=
    ∃ u_ek v_ek v_key e,
      _encryption_key un = Some u_ek ∧
      _encryption_key vn = Some v_ek ∧ _key vn = Some v_key ∧
      (enc_f (prf_f u_ek (Byte.x02 :: to_bytes_big 8 (id vn))) (v_ek ++ v_key) e).1 = Ok c.

  (** The node at [u]: every child holds the material derived from the
      secret of [u], and [encrypted_edges] pairs index by index with [edges]. *)
Definition node_done (h : gmap loc Node) (u : loc) : Prop :=
    ∃ un u_secret,
      h !! u = Some un ∧ _secret un = Some u_secret ∧
      Forall2 (fun v c => ∃ vn, h !! v = Some vn ∧ has_material vn u_secret ∧
                                is_edge_cipher un vn c)
              (edges un) (encrypted_edges un).

(** The tuple [_label_secret_encryption_key_from_parent] returns. *)
Definition material (parent_secret : bytes) (identifier : Z)
  : bytes * bytes * bytes * bytes :=
  let label := to_bytes_big 8 identifier in
  let secret := prf_f parent_secret (Byte.x03 :: label) in
  (label, secret, prf_f secret (Byte.x00 :: label), prf_f secret (Byte.x01 :: label)).

(** [c] encrypts the material derived from [u_secret] and [identifier]
    under the edge key derived from [u_ek]. *)
Definition edge_cipher_for (u_ek u_secret : bytes) (identifier : Z)
    (c : bytes * bytes) : Prop :=
  let '(label, _, v_ek, v_key) := material u_secret identifier in
  ∃ e, (enc_f (prf_f u_ek (Byte.x02 :: label)) (v_ek ++ v_key) e).1 = Ok c.

End Material.

Section Certificates.

Variable curve : ecdsa.Curve.
Variable randrange_from_seed__trytryagain : bytes → Z → Z.
Variable SigningKey_sign : ecdsa.SigningKey → bytes → Entropy → bytes * Entropy.

(** The attributes the certificate pass reads and never writes. *)
Definition skeleton (n : Node) : Z * list loc * option bytes :=
  (id n, edges n, _key n).

Definition agree (h0 h : gmap loc Node) : Prop :=
  ∀ l, skeleton <$> h !! l = skeleton <$> h0 !! l.

(** The stores [h0] and [h] hold the same objects with the same ids and
    the same children. *)
Definition same_ids (h0 h : gmap loc Node) : Prop :=
  ∀ l, (fun n => (id n, edges n)) <$> h !! l = (fun n => (id n, edges n)) <$> h0 !! l.

(** What the certificate pass needs of a node it has not reached yet. *)
Definition ready (h : gmap loc Node) (s : Tree) : Prop :=
  ∃ n k, h !! root_of s = Some n ∧ edges n = root_of <$> children s ∧
         0 ≤ id n < 2 ^ 64 ∧ _key n = Some k ∧ length k = 32%nat.

(** [n'] is [n] with the signing key derived from [n._key] and a
    certificate signed by [cold_storage_key] over
    [compressed(public key) ‖ be64(id)]. *)
Definition certified (cold_storage_key : ecdsa.SigningKey) (n n' : Node) : Prop :=
  ∃ k sk pkb e,
    _key n = Some k ∧
    crypto.ecdsa_keygen randrange_from_seed__trytryagain k curve = Ok sk ∧
    encode.verification_key_to_bytes_33 (ecdsa.get_verifying_key sk) = Ok pkb ∧
    n' = set_certificate (set_signing_key n sk)
           ((SigningKey_sign cold_storage_key (pkb ++ to_bytes_big 8 (id n)) e).1,
            (pkb, to_bytes_big 8 (id n))).

Definition uncertified (h : gmap loc Node) (l : loc) : Prop :=
  ∃ n, h !! l = Some n ∧ certificate n = None ∧ _signing_key n = None.

End Certificates.

(** Computations whose final state is related to the initial one by [R],
    whether they return or raise. *)
Definition keeps (R : State → State → Prop) {A} (m : M A) : Prop :=
  ∀ s r s', m s = (r, s') → R s s'.

(** The two states hold the same objects, and every object has the same
    attributes selected by [f] in both. *)
Definition same_attributes {B} (f : Node → B) (s s' : State) : Prop :=
  ∀ l, f <$> heap s' !! l = f <$> heap s !! l.

(** What the derivation engine never writes. *)
Definition structure_of (n : Node)
  : Z * option string * list loc * option (bytes * (bytes * bytes))
    * option ecdsa.SigningKey :=
  (id n, tag n, edges n, certificate n, _signing_key n).

(** What the certificate pass never writes. *)
Definition derivation_of (n : Node)
  : Z * option string * list loc * option bytes * option bytes * option bytes
    * option bytes * list (bytes * bytes) :=
  (id n, tag n, edges n, _label n, _secret n, _encryption_key n, _key n,
   encrypted_edges n).

(** Computations that leave [cold_storage_public_key] alone. *)
Definition keeps_cold_key {A} (m : M A) : Prop :=
  ∀ s r s', m s = (r, s') → cold_storage_public_key s' = cold_storage_public_key s.

(** [self.cold_storage_public_key = cold_storage_key.get_verifying_key()]. *)
Definition with_cold_storage_public_key (s : State) (pk : ecdsa.VerifyingKey) : State :=
  {| heap := heap s; entropy := entropy s; cold_storage_public_key := Some pk |}.

(** ** The shape of a BIP44 hierarchy *)

(** The ids and tags of a hierarchy, without the identities of its objects. *)
Inductive Shape := Sh (i : Z) (tg : option string) (cs : list Shape).

(** The ids and tags the store holds for the hierarchy [t]. *)
Fixpoint shape_in (h : gmap loc Node) (t : Tree) : option Shape :=
  match t with
  | T l cs =>
      n ← h !! l;
      shs ← mapM (shape_in h) cs;
      Some (Sh (id n) (tag n) shs)
  end.

Fixpoint shape_size (sh : Shape) : nat :=
  match sh with Sh _ _ cs => S (sum_list (shape_size <$> cs)) end.

Definition shape_id (sh : Shape) : Z := match sh with Sh i _ _ => i end.
Definition shape_children (sh : Shape) : list Shape := match sh with Sh _ _ cs => cs end.

Fixpoint subshapes (sh : Shape) : list Shape :=
  match sh with Sh _ _ cs => sh :: (cs ≫= subshapes) end.

(** Addresses [js] one below the other. *)
Fixpoint chain_shape (js : list Z) : list Shape :=
  match js with
  | [] => []
  | j :: js => [Sh j None (chain_shape js)]
  end.

(** Account [i]: the public branch (id 0) and the private branch (id 1),
    each with its chain of addresses. *)
Definition account_shape (i : Z) (n_addresses : Z * Z) : Shape :=
  Sh i None [Sh 0 (Some "XPUB"%string) (chain_shape (seqZ 0 n_addresses.2));
             Sh 1 (Some "XPRV"%string) (chain_shape (seqZ 0 n_addresses.1))].

Fixpoint accounts_shape (i : Z) (coin_config : list (Z * Z)) : list Shape :=
  match coin_config with
  | [] => []
  | n_addresses :: coin_config =>
      account_shape i n_addresses :: accounts_shape (i + 1) coin_config
  end.

Definition coin_shape (coin_type : Z) (item : string * list (Z * Z)) : Shape :=
  Sh coin_type (Some item.1) (accounts_shape 0 item.2).

(** m / 44' / coin / account / branch / address ... *)
Definition bip44_shape (config : list (string * list (Z * Z))) : option Shape :=
  coin_shapes ← mapM (fun item => coin_type ← constants.CoinType item.1;
                                  Some (coin_shape coin_type item)) config;
  Some (Sh 0 (Some "m"%string)
          [Sh (44 + constants.BIP32_HARDENED_INDEX) (Some "44'"%string) coin_shapes]).

(** A configuration [bip44_tree] accepts: known coins, at least one account
    per coin, at least one address per account, and no more accounts or
    addresses than there are node ids. *)
Definition valid_account (n_addresses : Z * Z) : Prop :=
  (0 < n_addresses.1 ∨ 0 < n_addresses.2) ∧
  n_addresses.1 ≤ 2 ^ 64 ∧ n_addresses.2 ≤ 2 ^ 64.

Definition valid_coin (item : string * list (Z * Z)) : Prop :=
  is_Some (constants.CoinType item.1) ∧ item.2 ≠ [] ∧
  Z.of_nat (length item.2) ≤ 2 ^ 64 ∧ Forall valid_account item.2.

Definition valid_config (config : list (string * list (Z * Z))) : Prop :=
  Forall valid_coin config.

(** From [h] to [h'] the node [u] was given the new children [ts], freshly
    built hierarchies of new objects with the shapes [shs], and nothing else
    was touched. *)
Definition grows (h h' : gmap loc Node) (u : loc) (ts : list Tree) (shs : list Shape) : Prop :=
  (∃ n, h !! u = Some n ∧
        h' !! u = Some (set_edges n (edges n ++ (root_of <$> ts)))) ∧
  NoDup (ts ≫= locs) ∧
  (∀ l, l ∈ ts ≫= locs → h !! l = None) ∧
  (∀ s, s ∈ ts ≫= subtrees → fresh_node_at h' s) ∧
  Forall2 (fun t sh => shape_in h' t = Some sh) ts shs ∧
  (∀ l, l ≠ u → is_Some (h !! l) → h' !! l = h !! l).

(** No two children of the root of [sh] have the same id. *)
Definition distinct_children (sh : Shape) : Prop :=
  NoDup (shape_id <$> shape_children sh).

(** ** A small executable instance of the libraries

    Stand-ins for [hashlib], [AESGCM] and [ecdsa] that compute inside Rocq.
    They have the input/output behaviour the package relies on (digest
    length, decryption inverts encryption, verification accepts a signature
    just made) and nothing of their cryptographic strength. *)

Module Toy.

Definition Z_of_byte (b : Byte.byte) : Z := Z.of_N (Byte.to_N b).

Definition absorb (m : bytes) : Z :=
  fold_left (fun a b => (a * 257 + Z_of_byte b + 1) mod 2 ^ 512) m 7.

(** 64 bytes, the low-order byte first. *)
Definition hashlib_sha3_512 (m : bytes) : bytes := rev (to_bytes_big 64 (absorb m)).

Fixpoint bytes_eqb (a b : bytes) : bool :=
  match a, b with
  | [], [] => true
  | x :: a, y :: b => Byte.eqb x y && bytes_eqb a b
  | _, _ => false
  end.

Definition tag (k nonce m : bytes) : bytes :=
  firstn 16 (hashlib_sha3_512 (k ++ nonce ++ m)).

Definition AESGCM_encrypt (k nonce m : bytes) : bytes := m ++ tag k nonce m.

Definition AESGCM_decrypt (k nonce c : bytes) : option bytes :=
  let m := firstn (length c - 16) c in
  if bytes_eqb (skipn (length c - 16) c) (tag k nonce m) then Some m else None.

Definition curve : ecdsa.Curve :=
  {| ecdsa.order := 2 ^ 61 - 1;
     ecdsa.generator_mul := fun d =>
       {| ecdsa.x := (d * d) mod 2 ^ 256; ecdsa.y := d * 5 + 1 |} |}.

Definition randrange_from_seed__trytryagain (seed : bytes) (order : Z) : Z :=
  1 + absorb seed mod (Z.max 1 (order - 1)).

(** The signature starts with 32 bytes of fresh entropy. *)
Definition SigningKey_sign (k : ecdsa.SigningKey) (message : bytes) (e : Entropy)
  : bytes * Entropy :=
  let '(r, e') := token_bytes 32 e in
  let pk := to_bytes_big 32 (ecdsa.x (ecdsa.get_verifying_key k)) in
  (r ++ firstn 32 (hashlib_sha3_512 (pk ++ r ++ message)), e').

Definition VerifyingKey_verify (pk : ecdsa.VerifyingKey) (signature message : bytes)
  : bool :=
  let r := firstn 32 signature in
  bytes_eqb (skipn 32 signature)
            (firstn 32 (hashlib_sha3_512 (to_bytes_big 32 (ecdsa.x pk) ++ r ++ message))).

Definition prf_f : bytes → bytes → bytes := crypto.sha3_512_half_k hashlib_sha3_512.
Definition enc_f := crypto.aes_ae AESGCM_encrypt.
Definition dec_f := crypto.aes_ad AESGCM_decrypt.

(** Two entropy tapes. *)
Definition zeros : Entropy := fun _ => Byte.x00.
Definition ones : Entropy := fun _ => Byte.x01.

Definition init (h : gmap loc Node) (e : Entropy) : State :=
  {| heap := h; entropy := e; cold_storage_public_key := None |}.

(** A node as the tests build it: constructed, then given its children. *)
Definition node (identifier : Z) (es : list loc) : Node :=
  set_edges (blank_Node identifier None) es.

Definition seed32 : bytes := repeat Byte.x2a 32.
Definition seed64 : bytes := repeat Byte.x2a 32 ++ repeat Byte.x17 32.

(** [test_private_derivation_hardcoded]: a root with children 0 and 1, and
    a grandchild 0 under child 1. *)
Definition hardcoded : gmap loc Node :=
  <[1%positive := node 0 [2; 3]%positive]>
  (<[2%positive := node 0 []]>
  (<[3%positive := node 1 [4%positive]]>
  (<[4%positive := node 0 []]> ∅))).

Definition hardcoded_shape : Tree :=
  T 1 [T 2 []; T 3 [T 4 []]].

(** One node object (4) that is a child of both 2 and 3. *)
Definition diamond : gmap loc Node :=
  <[1%positive := node 0 [2; 3]%positive]>
  (<[2%positive := node 1 [4%positive]]>
  (<[3%positive := node 2 [4%positive]]>
  (<[4%positive := node 7 []]> ∅))).



(** A root that lists itself as its only child. *)
Definition selfloop : gmap loc Node := <[1%positive := node 0 [1%positive]]> ∅.

(** [test_root]: a single node. *)
Definition single : gmap loc Node := <[1%positive := node 0 []]> ∅.
Definition single_shape : Tree := T 1 [].

(** The attribute [f] of the object at [l] after a run. *)
Definition attr {A} (f : Node → A) (r : Result unit * State) (l : loc) : option A :=
f <$> heap r.2 !! l.

Definition dhka_keygen (h : gmap loc Node) (e : Entropy) (seed : bytes)
  : Result unit * State :=
  DHKA.keygen 1%positive prf_f enc_f 10 seed (init h e).

Definition arcula_keygen (h : gmap loc Node) (e : Entropy) (seed : bytes)
  : Result unit * State :=
  Arcula.keygen 1%positive prf_f enc_f curve randrange_from_seed__trytryagain
                SigningKey_sign 10 seed (init h e).

(** Runs of the executable instance, evaluated once. *)
Definition diamond_run : Result unit * State :=
  Eval vm_compute in dhka_keygen diamond zeros seed32.
Definition hardcoded_run_zeros : Result unit * State :=
  Eval vm_compute in arcula_keygen hardcoded zeros seed64.
Definition hardcoded_run_ones : Result unit * State :=
  Eval vm_compute in arcula_keygen hardcoded ones seed64.
Definition single_run : Result unit * State :=
  Eval vm_compute in dhka_keygen single zeros seed64.
Definition single_wallet_run : Result unit * State :=
  Eval vm_compute in arcula_keygen single zeros seed64.
Definition single_tree_run : Result unit * State :=
  Eval vm_compute in dhka_keygen single zeros (firstn 32 seed64).
Definition selfloop_run : Result unit * State :=
  Eval vm_compute in dhka_keygen selfloop zeros (firstn 32 seed64).

End Toy.

(** * Verification *)

(** ** Encodings and the monad *)

Lemma length_to_bytes_big n k : length (to_bytes_big n k) = n.
Proof.
  revert k. induction n as [|n IH]; intros k; [done|].
  change (to_bytes_big (S n) k) with (to_bytes_big n (k / 256) ++ [byte_of_Z k]).
  rewrite length_app, IH. simpl. lia.
Qed.

Lemma int_to_bytes_8_ok k :
  0 ≤ k < 2 ^ 64 → encode.int_to_bytes_8 k = Ok (to_bytes_big 8 k).
Proof.
  intros [H0 H1]. unfold encode.int_to_bytes_8.
  apply Z.leb_le in H0. apply Z.ltb_lt in H1. by rewrite H0, H1.
Qed.

Lemma int_to_bytes_32_ok k :
  0 ≤ k < 2 ^ 256 → encode.int_to_bytes_32 k = Ok (to_bytes_big 32 k).
Proof.
  intros [H0 H1]. unfold encode.int_to_bytes_32.
  apply Z.leb_le in H0. apply Z.ltb_lt in H1. by rewrite H0, H1.
Qed.

Example int_to_bytes_8_258 :
  encode.int_to_bytes_8 258
  = Ok [Byte.x00; Byte.x00; Byte.x00; Byte.x00; Byte.x00; Byte.x00; Byte.x01; Byte.x02].
Proof. reflexivity. Qed.

Example int_to_bytes_8_overflow :
  encode.int_to_bytes_8 (2 ^ 64) = Raise (AssertionError IntRange8).
Proof. reflexivity. Qed.

Example new_Node_negative : new_Node (-1) None = Raise (AssertionError NodeIdRange).
Proof. reflexivity. Qed.

Example token_bytes_12 : length (token_bytes 12 (fun _ => Byte.x00)).1 = 12%nat.
Proof. reflexivity. Qed.

Lemma bind_unfold {A B} (m : M A) (f : A → M B) s :
  bind m f s = match m s with
               | (Ok a, s') => f a s'
               | (Raise e, s') => (Raise e, s')
               end.
Proof. reflexivity. Qed.

Lemma bind_ok {A B} (m : M A) (f : A → M B) s a s' :
  m s = (Ok a, s') → bind m f s = f a s'.
Proof. intros H. by rewrite bind_unfold, H. Qed.

Lemma bind_raise {A B} (m : M A) (f : A → M B) s e s' :
  m s = (Raise e, s') → bind m f s = (Raise e, s').
Proof. intros H. by rewrite bind_unfold, H. Qed.

Lemma get_node_ok l n s : heap s !! l = Some n → get_node l s = (Ok n, s).
Proof. intros H. unfold get_node. by rewrite H. Qed.

Lemma update_node_ok l f n s :
  heap s !! l = Some n →
  update_node l f s = (Ok tt, set_heap s (<[l := f n]> (heap s))).
Proof. intros H. unfold update_node. by rewrite H. Qed.

Lemma assert_true a s : assert true a s = (Ok tt, s).
Proof. reflexivity. Qed.

Lemma assert_false a s : assert false a s = (Raise (AssertionError a), s).
Proof. reflexivity. Qed.

Lemma not_None_Some {A} (a : A) s : not_None (Some a) s = (Ok a, s).
Proof. reflexivity. Qed.

Lemma lift_ok {A} (a : A) s : lift (Ok a) s = (Ok a, s).
Proof. reflexivity. Qed.

Lemma with_entropy_ok {A} (f : Entropy → Result A * Entropy) s a e :
  f (entropy s) = (Ok a, e) → with_entropy f s = (Ok a, set_entropy s e).
Proof. intros H. unfold with_entropy. by rewrite H. Qed.

(** ** Shapes *)

Lemma Tree_forall_ind (P : Tree → Prop) :
  (∀ l cs, Forall P cs → P (T l cs)) → ∀ t, P t.
Proof.
  intros IH. fix rec 1. intros [l cs]. apply IH.
  induction cs as [|c cs IHcs]; constructor; [apply rec | apply IHcs].
Qed.

Lemma locs_subtrees t : locs t = root_of <$> subtrees t.
Proof.
  induction t as [l cs IH] using Tree_forall_ind. simpl. f_equal.
  induction IH as [|c cs Hc _ IHcs]; [done|].
  rewrite !bind_cons, fmap_app. by rewrite Hc, IHcs.
Qed.

Lemma forest_locs_subtrees (ts : list Tree) :
  ts ≫= locs = root_of <$> (ts ≫= subtrees).
Proof.
  induction ts as [|t ts IH]; [done|].
  by rewrite !bind_cons, fmap_app, locs_subtrees, IH.
Qed.

Lemma subtrees_self t : t ∈ subtrees t.
Proof. destruct t. simpl. set_solver. Qed.

Lemma roots_in_forest (ts : list Tree) t : t ∈ ts → t ∈ ts ≫= subtrees.
Proof. intros H. apply list_elem_of_bind. exists t. split; [apply subtrees_self | done]. Qed.

Lemma children_in_subtrees t s c :
  s ∈ subtrees t → c ∈ children s → c ∈ subtrees t.
Proof.
  revert s c. induction t as [l cs IH] using Tree_forall_ind. intros s c Hs Hc.
  simpl in Hs. apply elem_of_cons in Hs as [->|Hs].
  - simpl in Hc. simpl. apply elem_of_cons. right. by apply roots_in_forest.
  - simpl. apply elem_of_cons. right.
    apply list_elem_of_bind in Hs as (t' & Hs & Ht').
    apply list_elem_of_bind. exists t'. split; [|done].
    rewrite Forall_forall in IH. eauto.
Qed.

(** ** The derivation engine on tree-shaped hierarchies *)

Lemma add_edges_fields n cts :
  same_structure n (add_edges n cts) ∧ same_material n (add_edges n cts) ∧
  encrypted_edges (add_edges n cts) = encrypted_edges n ++ cts.
Proof.
  unfold add_edges. revert n. induction cts as [|c cts IH]; intros n; simpl.
  - by rewrite app_nil_r.
  - destruct (IH (append_encrypted_edge n c)) as ((?&?&?&?&?) & (?&?&?&?) & He).
    rewrite He. simpl. rewrite <- app_assoc. by repeat split.
Qed.

Lemma same_structure_refl n : same_structure n n.
Proof. by repeat split. Qed.

Lemma same_structure_trans n1 n2 n3 :
  same_structure n1 n2 → same_structure n2 n3 → same_structure n1 n3.
Proof. unfold same_structure. intros (?&?&?&?&?) (?&?&?&?&?). repeat split; congruence. Qed.

Lemma same_material_refl n : same_material n n.
Proof. by repeat split. Qed.

Lemma same_material_trans n1 n2 n3 :
  same_material n1 n2 → same_material n2 n3 → same_material n1 n3.
Proof. unfold same_material. intros (?&?&?&?) (?&?&?&?). repeat split; congruence. Qed.

Lemma set_material_structure n m : same_structure n (set_material n m).
Proof. destruct m as [[[? ?] ?] ?]. by repeat split. Qed.

Lemma has_material_transfer prf_f n n' ps :
  id n' = id n → same_material n n' → has_material prf_f n ps → has_material prf_f n' ps.
Proof.
  unfold has_material, same_material. intros Hid (?&?&?&?) (?&?&?&?).
  rewrite Hid. repeat split; congruence.
Qed.

Lemma sublist_roots (cs : list Tree) : sublist cs (cs ≫= subtrees).
Proof.
  induction cs as [|[l cs'] cs IH]; [constructor|].
  rewrite bind_cons. simpl. apply sublist_skip.
  by apply sublist_inserts_l.
Qed.

Lemma NoDup_roots (cs : list Tree) :
  NoDup (root_of <$> (cs ≫= subtrees)) → NoDup (root_of <$> cs).
Proof. intros H. eapply sublist_NoDup; [exact H|]. apply fmap_sublist, sublist_roots. Qed.

Lemma Forall2_impl_elem {A B} (P Q : A → B → Prop) l k :
  Forall2 P l k → (∀ x y, x ∈ l → P x y → Q x y) → Forall2 Q l k.
Proof.
  induction 1 as [|x y l k Hxy _ IH]; intros HPQ; constructor.
  - apply HPQ; [by left | done].
  - apply IH. intros x' y' Hx'. apply HPQ. by right.
Qed.

Section DerivationEngine.

Variable prf_f : bytes → bytes → bytes.
Variable enc_f : bytes → bytes → Entropy → Result (bytes * bytes) * Entropy.

  (** The encryption function accepts the keys the PRF produces. *)
Hypothesis enc_f_total :
    ∀ k x m e, ∃ c e', enc_f (prf_f k x) m e = (Ok c, e').

Lemma from_parent_ok parent_secret identifier :
    0 ≤ identifier < 2 ^ 64 →
    DHKA._label_secret_encryption_key_from_parent prf_f (Some parent_secret) identifier
    = Ok (material prf_f parent_secret identifier).
Proof.
    intros H. unfold DHKA._label_secret_encryption_key_from_parent.
    by rewrite int_to_bytes_8_ok.
Qed.

Lemma has_material_set n parent_secret :
    has_material prf_f (set_material n (material prf_f parent_secret (id n))) parent_secret.
Proof. by repeat split. Qed.

Lemma keygen_edges_spec vs : ∀ u visited q st un u_secret u_ek,
    heap st !! u = Some un →
    _secret un = Some u_secret → _encryption_key un = Some u_ek →
    u ∉ vs → NoDup vs →
    (∀ v, v ∈ vs → v ∉ visited) →
    (∀ v, v ∈ vs → ∃ vn, heap st !! v = Some vn ∧ 0 ≤ id vn < 2 ^ 64) →
    ∃ st' cts,
      DHKA.keygen_edges prf_f enc_f u visited vs q st = (Ok (q ++ vs), st') ∧
      cold_storage_public_key st' = cold_storage_public_key st ∧
      heap st' !! u = Some (add_edges un cts) ∧
      (∀ l, l ≠ u → l ∉ vs → heap st' !! l = heap st !! l) ∧
      (∀ v vn, v ∈ vs → heap st !! v = Some vn →
               heap st' !! v = Some (set_material vn (material prf_f u_secret (id vn)))) ∧
      Forall2 (fun v c => ∃ vn, heap st !! v = Some vn ∧
                                edge_cipher_for prf_f enc_f u_ek u_secret (id vn) c) vs cts.
Proof.
    induction vs as [|v vs IH]; intros u visited q st un u_secret u_ek Hu Hsec Hek Hnin Hnd Hvis Hin.
    - exists st, []. simpl. rewrite app_nil_r. repeat split; auto. set_solver.
    - apply not_elem_of_cons in Hnin as [Huv Hnin].
      apply NoDup_cons in Hnd as [Hv Hnd].
      destruct (Hin v) as (vn & Hvn & Hrange); [set_solver|].
      set (m := material prf_f u_secret (id vn)).
      set (st1 := set_heap st (<[v := set_material vn m]> (heap st))).
      assert (Hu1 : heap st1 !! u = Some un).
      { unfold st1. simpl. by rewrite lookup_insert_ne. }
      assert (Hv1 : heap st1 !! v = Some (set_material vn m)).
      { unfold st1. simpl. by rewrite lookup_insert_eq. }
      assert (∃ c e',
        edge_cipher_for prf_f enc_f u_ek u_secret (id vn) c ∧
        DHKA.keygen_edges prf_f enc_f u visited (v :: vs) q st =
        DHKA.keygen_edges prf_f enc_f u visited vs (q ++ [v])
          (set_heap (set_entropy st1 e')
             (<[u := append_encrypted_edge un c]> (heap st1))))
        as (c & e' & Hc & Hstep).
      { cbn [DHKA.keygen_edges].
        assert (Hb : negb (bool_decide (v ∈ visited)) = true).
        { rewrite bool_decide_eq_false_2; [done|]. apply Hvis. set_solver. }
        rewrite Hb.
        rewrite (bind_ok _ _ _ _ _ (assert_true _ _)).
        rewrite (bind_ok _ _ _ _ _ (get_node_ok _ _ _ Hu)).
        rewrite (bind_ok _ _ _ _ _ (get_node_ok _ _ _ Hvn)).
        rewrite Hsec, from_parent_ok by done.
        rewrite (bind_ok _ _ _ _ _ (lift_ok _ _)).
        rewrite (bind_ok _ _ _ _ _ (update_node_ok _ _ _ _ Hvn)).
        fold m. fold st1.
        rewrite (bind_ok _ _ _ _ _ (get_node_ok _ _ _ Hu1)).
        rewrite (bind_ok _ _ _ _ _ (get_node_ok _ _ _ Hv1)).
        rewrite Hek. rewrite (bind_ok _ _ _ _ _ (not_None_Some _ _)).
        unfold m. cbn [material set_material _label _encryption_key _key].
        rewrite !(bind_ok _ _ _ _ _ (not_None_Some _ _)).
        unfold DHKA._encrypt_edge, DHKA._edge_encryption_key, constants.PRF_EDGE_PREFIX.
        cbn [app].
        match goal with
        | |- context [with_entropy (enc_f (prf_f ?k ?x) ?msg)] =>
            destruct (enc_f_total k x msg (entropy st1)) as (c & e' & Henc)
        end.
        exists c, e'. split.
        { unfold edge_cipher_for. cbn [material]. exists (entropy st1). by rewrite Henc. }
        rewrite (bind_ok _ _ _ _ _ (with_entropy_ok _ st1 _ _ Henc)).
        assert (Hu2 : heap (set_entropy st1 e') !! u = Some un) by done.
        rewrite (bind_ok _ _ _ _ _ (update_node_ok _ _ _ _ Hu2)).
        done. }
      set (st3 := set_heap (set_entropy st1 e')
                    (<[u := append_encrypted_edge un c]> (heap st1))) in *.
      destruct (IH u visited (q ++ [v]) st3 (append_encrypted_edge un c) u_secret u_ek)
        as (st' & cts & Hrun & Hcold & Hu' & Hframe & Hvs & Hcts); try done.
      { unfold st3. simpl. by rewrite lookup_insert_eq. }
      { intros w Hw. apply Hvis. set_solver. }
      { intros w Hw. destruct (Hin w) as (wn & Hwn & Hwid); [set_solver|].
        exists wn. split; [|done]. unfold st3, st1. simpl.
        rewrite lookup_insert_ne by set_solver.
        rewrite lookup_insert_ne by set_solver. done. }
      exists st', (c :: cts). split; [|split; [|split; [|split; [|split]]]].
      + rewrite Hstep, Hrun. by rewrite <- app_assoc.
      + by rewrite Hcold.
      + by rewrite Hu'.
      + intros l Hlu Hl. apply not_elem_of_cons in Hl as [Hlv Hl].
        rewrite Hframe by done. unfold st3, st1. simpl.
        rewrite lookup_insert_ne by done. by rewrite lookup_insert_ne.
      + intros w wn Hw Hwn. apply elem_of_cons in Hw as [->|Hw].
        * rewrite Hframe by done. unfold st3, st1. simpl.
          rewrite lookup_insert_ne by done. rewrite lookup_insert_eq.
          congruence.
        * apply Hvs; [done|]. unfold st3, st1. simpl.
          rewrite lookup_insert_ne by set_solver.
          rewrite lookup_insert_ne by set_solver. done.
      + constructor.
        * exists vn. split; done.
        * eapply Forall2_impl_elem; [exact Hcts|].
          intros w cw Hw (wn & Hwn & Hcw). exists wn. split; [|done].
          revert Hwn. unfold st3, st1. simpl.
          rewrite lookup_insert_ne by set_solver.
          by rewrite lookup_insert_ne by set_solver.
Qed.

Lemma keygen_while_spec fuel : ∀ ts visited st,
    (length (ts ≫= subtrees) ≤ fuel)%nat →
    NoDup (root_of <$> (ts ≫= subtrees)) →
    (∀ s, s ∈ ts ≫= subtrees → root_of s ∉ visited) →
    (∀ s, s ∈ ts ≫= subtrees → shaped (heap st) s) →
    (∀ t, t ∈ ts → ∃ n ps, heap st !! root_of t = Some n ∧ has_material prf_f n ps) →
    ∃ st',
      DHKA.keygen_while prf_f enc_f fuel (root_of <$> ts) visited st = (Ok tt, st') ∧
      cold_storage_public_key st' = cold_storage_public_key st ∧
      (∀ l, l ∉ root_of <$> (ts ≫= subtrees) → heap st' !! l = heap st !! l) ∧
      (∀ s n, s ∈ ts ≫= subtrees → heap st !! root_of s = Some n →
         ∃ n', heap st' !! root_of s = Some n' ∧ same_structure n n' ∧
               (s ∈ ts → same_material n n') ∧
               (∃ ps, has_material prf_f n' ps) ∧
               node_done prf_f enc_f (heap st') (root_of s)).
Proof.
    induction fuel as [|fuel IH]; intros ts visited st Hfuel Hnd Hvis Hshape Hmat.
    { destruct ts as [|[u cs] ts]; [|simpl in Hfuel; lia].
      exists st. repeat split; auto. intros s n Hs. by apply elem_of_nil in Hs. }
    destruct ts as [|[u cs] ts].
    { exists st. repeat split; auto. intros s n Hs. by apply elem_of_nil in Hs. }
    rewrite bind_cons in *. cbn [subtrees] in *.
    rewrite <- app_comm_cons in *. rewrite fmap_cons in Hnd. cbn [root_of] in Hnd.
    apply NoDup_cons in Hnd as [Hu_fresh Hnd].
    rewrite fmap_app in Hu_fresh, Hnd.
    pose proof Hnd as Hnd'. apply NoDup_app in Hnd' as (Hnd_cs & Hdisj & Hnd_ts).
    destruct (Hshape (T u cs)) as (un & Hun & Hedges & Hrange & Henc0); [by left|].
    simpl in Hun, Hedges.
    destruct (Hmat (T u cs)) as (un_ & ps & Hun_ & Hps); [by left|].
    simpl in Hun_. rewrite Hun in Hun_. injection Hun_ as <-.
    assert (∃ u_secret u_ek, _secret un = Some u_secret ∧ _encryption_key un = Some u_ek)
      as (u_secret & u_ek & Hsec & Hek).
    { destruct Hps as (_ & ? & ? & _). eauto. }
    set (visited' := visited ∪ {[u]}).
    set (vs := root_of <$> cs) in *.
    assert (Hvs_in : ∀ v, v ∈ vs → v ∈ root_of <$> (cs ≫= subtrees)).
    { intros v (c & -> & Hc)%list_elem_of_fmap.
      by apply list_elem_of_fmap_2, roots_in_forest. }
    destruct (keygen_edges_spec vs u visited' (root_of <$> ts) st un u_secret u_ek Hun Hsec Hek)
      as (st1 & cts & Hrun1 & Hcold1 & Hu1 & Hframe1 & Hvs1 & Hcts).
    { intros Hu. apply Hu_fresh, elem_of_app. left. by apply Hvs_in. }
    { by apply NoDup_roots. }
    { intros v Hv. apply Hvs_in in Hv.
      apply list_elem_of_fmap in Hv as (s & -> & Hs).
      assert (root_of s ∉ visited) by (apply Hvis; set_solver).
      assert (root_of s ≠ u).
      { intros <-. apply Hu_fresh. apply elem_of_app. left. by apply list_elem_of_fmap_2. }
      set_solver. }
    { intros v (c & -> & Hc)%list_elem_of_fmap.
      destruct (Hshape c) as (n & Hn & _ & Hr & _).
      { right. apply elem_of_app. left. by apply roots_in_forest. }
      eauto. }
    destruct (add_edges_fields un cts) as (Hstr_u & Hmat_u & Henc_u).
    rewrite Henc0 in Henc_u. simpl in Henc_u.
    (* the store after the loop body, on the nodes still to be processed *)
    assert (Hst1 : ∀ s n, s ∈ (ts ++ cs) ≫= subtrees → heap st !! root_of s = Some n →
              ∃ n1, heap st1 !! root_of s = Some n1 ∧ same_structure n n1 ∧
                    encrypted_edges n1 = encrypted_edges n ∧
                    (s ∈ ts → n1 = n) ∧
                    (s ∈ cs → n1 = set_material n (material prf_f u_secret (id n)))).
    { intros s n Hs Hn.
      assert (Hsu : root_of s ≠ u).
      { intros <-. apply Hu_fresh. rewrite <- fmap_app. apply list_elem_of_fmap_2.
        rewrite bind_app in Hs. set_solver. }
      destruct (decide (root_of s ∈ vs)) as [Hin|Hnin].
      - exists (set_material n (material prf_f u_secret (id n))).
        split; [by apply Hvs1|]. split; [apply set_material_structure|].
        split; [done|]. split; [|done].
        intros Hts. exfalso. apply (Hdisj (root_of s)); [by apply Hvs_in|].
        by apply list_elem_of_fmap_2, roots_in_forest.
      - exists n. rewrite Hframe1 by done.
        split; [done|]. split; [apply same_structure_refl|]. split; [done|].
        split; [done|]. intros Hcs. exfalso. apply Hnin.
        by apply list_elem_of_fmap_2. }
    destruct (IH (ts ++ cs) visited' st1) as (st' & Hrun & Hcold & Hframe & Hpost).
    { rewrite bind_app, length_app. simpl in Hfuel. rewrite length_app in Hfuel. lia. }
    { rewrite bind_app, fmap_app. apply NoDup_app. split; [done|]. split; [|done].
      intros l Hl Hl'. by apply (Hdisj l). }
    { intros s Hs. rewrite bind_app in Hs.
      assert (root_of s ∉ visited) by (apply Hvis; set_solver).
      assert (root_of s ≠ u).
      { intros <-. apply Hu_fresh. rewrite <- fmap_app. apply list_elem_of_fmap_2. set_solver. }
      set_solver. }
    { intros s Hs. destruct (Hshape s) as (n & Hn & He & Hr & Hee).
      { rewrite bind_app in Hs. set_solver. }
      destruct (Hst1 s n Hs Hn) as (n1 & Hn1 & (Hid & _ & Hed & _) & Hee1 & _).
      exists n1. split; [done|]. rewrite Hed, Hid, Hee1. done. }
    { intros t Ht. apply elem_of_app in Ht as [Ht|Ht].
      - destruct (Hmat t) as (n & ps' & Hn & Hps'); [by right|].
        destruct (Hst1 t n) as (n1 & Hn1 & _ & _ & Heq & _); [|done|].
        { apply roots_in_forest. set_solver. }
        exists n, ps'. rewrite Hn1, (Heq Ht). done.
      - destruct (Hshape t) as (n & Hn & _).
        { right. apply elem_of_app. left. by apply roots_in_forest. }
        destruct (Hst1 t n) as (n1 & Hn1 & _ & _ & _ & Heq); [|done|].
        { apply roots_in_forest. set_solver. }
        exists n1, u_secret. split; [done|]. rewrite (Heq Ht).
        apply has_material_set. }
    assert (Hu' : heap st' !! u = Some (add_edges un cts)).
    { rewrite Hframe; [done|]. rewrite bind_app, fmap_app.
      intros Hu. apply Hu_fresh. set_solver. }
    exists st'. split; [|split; [|split]].
    - rewrite fmap_cons. cbn [root_of DHKA.keygen_while]. fold visited'.
      rewrite (bind_ok _ _ _ _ _ (get_node_ok _ _ _ Hun)).
      rewrite Hedges.
      rewrite (bind_ok _ _ _ _ _ Hrun1).
      rewrite (bind_ok _ _ _ _ _ (get_node_ok _ _ _ Hu1)).
      destruct Hstr_u as (_ & _ & Hedges_u & _).
      rewrite Henc_u, Hedges_u, Hedges.
      rewrite <- (Forall2_length _ _ _ Hcts), Nat.eqb_refl.
      rewrite (bind_ok _ _ _ _ _ (assert_true _ _)).
      unfold vs. rewrite <- fmap_app. exact Hrun.
    - by rewrite Hcold.
    - intros l Hl. rewrite fmap_cons, fmap_app in Hl. cbn [root_of] in Hl.
      rewrite Hframe, Hframe1; [done| | |].
      + set_solver.
      + intros Hlv. apply Hl. right. apply elem_of_app. left. by apply Hvs_in.
      + rewrite bind_app, fmap_app. set_solver.
    - intros s n Hs Hn. apply elem_of_cons in Hs as [->|Hs].
      + cbn [root_of] in *. rewrite Hun in Hn. injection Hn as <-.
        exists (add_edges un cts). split; [done|]. split; [done|]. split; [done|].
        split.
        { exists ps. destruct Hstr_u as (Hid_u & _). by eapply has_material_transfer. }
        exists (add_edges un cts), u_secret. split; [done|].
        destruct Hmat_u as (_ & Hsec_u & Hek_u & _).
        split; [by rewrite Hsec_u|].
        destruct Hstr_u as (_ & _ & Hedges_u & _).
        rewrite Henc_u, Hedges_u, Hedges.
        eapply Forall2_impl_elem; [exact Hcts|].
        intros v c Hv (vn & Hvn & Hc).
        apply list_elem_of_fmap in Hv as (t & -> & Ht).
        assert (Ht' : t ∈ (ts ++ cs) ≫= subtrees) by (apply roots_in_forest; set_solver).
        destruct (Hst1 t vn Ht' Hvn) as (n1 & Hn1 & _ & _ & _ & Heq).
        specialize (Heq Ht). subst n1.
        destruct (Hpost t _ Ht' Hn1) as (n' & Hn' & (Hid' & _) & Hmat' & _).
        assert (Hm' : same_material (set_material vn (material prf_f u_secret (id vn))) n')
          by (apply Hmat'; set_solver).
        assert (Hid'' : id n' = id vn) by (by rewrite Hid').
        exists n'. split; [done|]. split.
        { eapply has_material_transfer; [exact Hid'|exact Hm'|]. apply has_material_set. }
        unfold edge_cipher_for in Hc. cbn [material] in Hc. destruct Hc as (e & He).
        destruct Hm' as (_ & _ & Hek' & Hkey').
        unfold is_edge_cipher. rewrite Hek_u, Hek, Hek', Hkey', Hid''.
        cbn [set_material material _encryption_key _key]. eauto 10.
      + assert (Hs' : s ∈ (ts ++ cs) ≫= subtrees) by (rewrite bind_app; set_solver).
        destruct (Hst1 s n Hs' Hn) as (n1 & Hn1 & Hstr1 & _ & Heq & _).
        destruct (Hpost s n1 Hs' Hn1) as (n' & Hn' & Hstr' & Hmat' & Hps' & Hdone).
        exists n'. split; [done|]. split; [by eapply same_structure_trans|].
        split; [|done].
        intros Hin. apply elem_of_cons in Hin as [->|Hin].
        * exfalso. apply Hu_fresh. rewrite <- fmap_app.
          change u with (root_of (T u cs)). by apply list_elem_of_fmap_2.
        * rewrite <- (Heq Hin). apply Hmat'. set_solver.
Qed.

Lemma fresh_shaped h s : fresh_node_at h s → shaped h s.
Proof. intros (n & ? & ? & ? & ? & _). by exists n. Qed.

(** [DHKA.keygen] on a freshly built tree-shaped hierarchy. *)
Lemma keygen_fresh_tree t st seed fuel :
  fresh_hierarchy (heap st) t →
  (length (locs t) ≤ fuel)%nat →
  ∃ st',
    DHKA.keygen (root_of t) prf_f enc_f fuel seed st = (Ok tt, st') ∧
    cold_storage_public_key st' = cold_storage_public_key st ∧
    (∀ l, l ∉ locs t → heap st' !! l = heap st !! l) ∧
    (∃ rn, heap st' !! root_of t = Some rn ∧ has_material prf_f rn seed) ∧
    (∀ s n, s ∈ subtrees t → heap st !! root_of s = Some n →
       ∃ n', heap st' !! root_of s = Some n' ∧ same_structure n n' ∧
             (∃ ps, has_material prf_f n' ps) ∧
             node_done prf_f enc_f (heap st') (root_of s)).
Proof.
  intros [Hnd Hfresh] Hfuel.
  destruct (Hfresh t (subtrees_self t)) as (rn & Hrn & Hredges & Hrid & _).
  set (m := material prf_f seed (id rn)).
  set (st0 := set_heap st (<[root_of t := set_material rn m]> (heap st))).
  assert (Hst0 : ∀ s n, heap st !! root_of s = Some n →
            ∃ n0, heap st0 !! root_of s = Some n0 ∧ same_structure n n0 ∧
                  encrypted_edges n0 = encrypted_edges n ∧
                  (root_of s = root_of t → n0 = set_material rn m)).
  { intros s n Hn. unfold st0. simpl.
    destruct (decide (root_of s = root_of t)) as [Heq|Hne].
    - rewrite Heq in *. rewrite lookup_insert_eq. rewrite Hrn in Hn. injection Hn as <-.
      exists (set_material rn m). split; [done|]. split; [apply set_material_structure|].
      split; [reflexivity|done].
    - rewrite lookup_insert_ne by done. exists n. split; [done|].
      split; [apply same_structure_refl|]. done. }
  destruct (keygen_while_spec fuel [t] ∅ st0) as (st' & Hrun & Hcold & Hframe & Hpost).
  { rewrite bind_singleton. rewrite locs_subtrees, length_fmap in Hfuel. done. }
  { rewrite bind_singleton, <- locs_subtrees. done. }
  { intros s _. set_solver. }
  { intros s Hs. rewrite bind_singleton in Hs.
    destruct (Hfresh s Hs) as (n & Hn & He & Hr & Hee & _).
    destruct (Hst0 s n Hn) as (n0 & Hn0 & (Hid & _ & Hed & _) & Hee0 & _).
    exists n0. rewrite Hed, Hid, Hee0. done. }
  { intros t' ->%list_elem_of_singleton.
    destruct (Hst0 t rn Hrn) as (n0 & Hn0 & _ & _ & Heq).
    exists n0, seed. split; [done|]. rewrite Heq by done. apply has_material_set. }
  rewrite bind_singleton in Hframe, Hpost.
  exists st'. split; [|split; [|split; [|split]]].
  - unfold DHKA.keygen.
    rewrite (bind_ok _ _ _ _ _ (get_node_ok _ _ _ Hrn)).
    rewrite from_parent_ok by done.
    rewrite (bind_ok _ _ _ _ _ (lift_ok _ _)).
    rewrite (bind_ok _ _ _ _ _ (update_node_ok _ _ _ _ Hrn)).
    exact Hrun.
  - by rewrite Hcold.
  - intros l Hl. rewrite Hframe by (by rewrite <- locs_subtrees).
    unfold st0. simpl. rewrite lookup_insert_ne; [done|].
    intros <-. apply Hl. destruct t. simpl. by left.
  - destruct (Hst0 t rn Hrn) as (n0 & Hn0 & (Hid0 & _) & _ & Heq).
    destruct (Hpost t n0 (subtrees_self t) Hn0) as (n' & Hn' & (Hid' & _) & Hmat' & _).
    exists n'. split; [done|].
    eapply has_material_transfer; [exact Hid'|apply Hmat'; by left|].
    rewrite Heq by done. apply has_material_set.
  - intros s n Hs Hn.
    destruct (Hst0 s n Hn) as (n0 & Hn0 & Hstr0 & _).
    destruct (Hpost s n0 Hs Hn0) as (n' & Hn' & Hstr' & _ & Hps & Hdone).
    exists n'. split; [done|]. split; [by eapply same_structure_trans|]. done.
Qed.

End DerivationEngine.

(** ** The certificate pass *)

Lemma size_list_to_set_le (ids : list Z) :
  (size (list_to_set ids : gset Z) ≤ length ids)%nat.
Proof.
  induction ids as [|x ids IH].
  - by rewrite list_to_set_nil, size_empty.
  - rewrite list_to_set_cons. cbn [length].
    destruct (decide (x ∈ (list_to_set ids : gset Z))) as [Hin|Hnin].
    + replace ({[x]} ∪ list_to_set ids : gset Z) with (list_to_set ids : gset Z)
        by set_solver. lia.
    + rewrite size_union by set_solver. rewrite size_singleton. lia.
Qed.

Lemma size_list_to_set_NoDup (ids : list Z) :
  size (list_to_set ids : gset Z) = length ids ↔ NoDup ids.
Proof.
  split; [|apply size_list_to_set].
  induction ids as [|x ids IH]; [constructor|].
  rewrite list_to_set_cons. cbn [length].
  intros Hsize. pose proof (size_list_to_set_le ids) as Hle.
  destruct (decide (x ∈ (list_to_set ids : gset Z))) as [Hin|Hnin].
  - replace ({[x]} ∪ list_to_set ids : gset Z) with (list_to_set ids : gset Z) in Hsize
      by set_solver. lia.
  - rewrite size_union in Hsize by set_solver. rewrite size_singleton in Hsize.
    constructor; [set_solver|]. apply IH. lia.
Qed.

Lemma filter_all {A} (P : A → Prop) `{∀ x, Decision (P x)} (l : list A) :
  (∀ x, x ∈ l → P x) → filter P l = l.
Proof.
  induction l as [|x l IH]; intros HP; [done|].
  rewrite filter_cons_True by (apply HP; by left).
  f_equal. apply IH. intros y Hy. apply HP. by right.
Qed.

Lemma child_ids_same_ids h0 h u : same_ids h0 h → child_ids h u = child_ids h0 u.
Proof.
  intros Hag. unfold child_ids. pose proof (Hag u) as Hu.
  destruct (h !! u) as [n|], (h0 !! u) as [n0|]; simpl in Hu; try done.
  injection Hu as Hid Hed. rewrite Hed.
  apply list_omap_ext, Forall2_same_length_lookup_2; [done|].
  intros i v w Hv Hw. rewrite Hv in Hw. injection Hw as <-. specialize (Hag v).
  destruct (h !! v), (h0 !! v); simpl in *; try done. by injection Hag as -> _.
Qed.

Lemma agree_same_ids h0 h : agree h0 h → same_ids h0 h.
Proof.
  intros Hag l. specialize (Hag l). unfold skeleton in Hag.
  destruct (h !! l), (h0 !! l); simpl in *; try done. by injection Hag as -> -> _.
Qed.

Lemma child_ids_agree h0 h u : agree h0 h → child_ids h u = child_ids h0 u.
Proof. intros Hag. by apply child_ids_same_ids, agree_same_ids. Qed.

Lemma agree_refl h : agree h h.
Proof. by intros l. Qed.

Lemma agree_trans h0 h1 h2 : agree h0 h1 → agree h1 h2 → agree h0 h2.
Proof. intros H1 H2 l. by rewrite H2, H1. Qed.

Lemma agree_insert h l n n' :
  h !! l = Some n → skeleton n' = skeleton n → agree h (<[l := n']> h).
Proof.
  intros Hl Hsk l'. destruct (decide (l = l')) as [<-|Hne].
  - rewrite lookup_insert_eq, Hl. simpl. by rewrite Hsk.
  - by rewrite lookup_insert_ne.
Qed.

Lemma ready_agree h0 h s : agree h0 h → ready h0 s → ready h s.
Proof.
  intros Hag (n0 & k & Hn0 & He & Hr & Hk & Hl). specialize (Hag (root_of s)).
  rewrite Hn0 in Hag. unfold skeleton in Hag.
  destruct (h !! root_of s) as [n|] eqn:Hn; [|done].
  injection Hag as Hid Hed Hkey. exists n, k. rewrite Hid, Hed, Hkey. done.
Qed.

Lemma edge_ids_ok (vs : list loc) st :
  (∀ v, v ∈ vs → is_Some (heap st !! v)) →
  Arcula.edge_ids vs st = (Ok (omap (fun v => id <$> heap st !! v) vs), st).
Proof.
  induction vs as [|v vs IH]; intros Hvs; [done|].
  destruct (Hvs v) as [vn Hvn]; [by left|].
  cbn [Arcula.edge_ids omap list_omap].
  rewrite (bind_ok _ _ _ _ _ (get_node_ok _ _ _ Hvn)).
  rewrite (bind_ok _ _ _ _ _ (IH ltac:(intros w Hw; apply Hvs; by right))).
  by rewrite Hvn.
Qed.

Lemma length_child_ids h u un :
  h !! u = Some un → (∀ v, v ∈ edges un → is_Some (h !! v)) →
  length (child_ids h u) = length (edges un).
Proof.
  intros Hu Hvs. unfold child_ids. rewrite Hu. clear Hu.
  induction (edges un) as [|v vs IH]; [done|].
  destruct (Hvs v) as [vn Hvn]; [by left|]. simpl. rewrite Hvn. simpl.
  f_equal. apply IH. intros w Hw. apply Hvs. by right.
Qed.

Lemma children_in_forest (ts : list Tree) s c :
  s ∈ ts ≫= subtrees → c ∈ children s → c ∈ ts ≫= subtrees.
Proof.
  intros (t & Hs & Ht)%list_elem_of_bind Hc. apply list_elem_of_bind.
  exists t. split; [|done]. by eapply children_in_subtrees.
Qed.

Section CertificateLayer.

Variable curve : ecdsa.Curve.
Variable randrange_from_seed__trytryagain : bytes → Z → Z.
Variable SigningKey_sign : ecdsa.SigningKey → bytes → Entropy → bytes * Entropy.

(** [randrange_from_seed__trytryagain(seed, order)] lies in [1, order). *)
Hypothesis randrange_range : ∀ seed,
  1 ≤ randrange_from_seed__trytryagain seed (ecdsa.order curve) < ecdsa.order curve.

(** The coordinates of the curve's points fit 32 bytes. *)
Hypothesis point_range : ∀ d, 0 ≤ ecdsa.x (ecdsa.generator_mul curve d) < 2 ^ 256.

Lemma ecdsa_keygen_ok k :
  length k = 32%nat →
  ∃ sk, crypto.ecdsa_keygen randrange_from_seed__trytryagain k curve = Ok sk ∧
        ecdsa.get_verifying_key sk =
          ecdsa.generator_mul curve
            (randrange_from_seed__trytryagain k (ecdsa.order curve)).
Proof.
  intros Hk. unfold crypto.ecdsa_keygen, ecdsa.from_secret_exponent.
  rewrite Hk. simpl Nat.eqb. cbv iota.
  destruct (randrange_range k) as [H1 H2].
  apply Z.leb_le in H1. apply Z.ltb_lt in H2. rewrite H1, H2. simpl. eauto.
Qed.

Lemma verification_key_to_bytes_33_ok k sk :
  crypto.ecdsa_keygen randrange_from_seed__trytryagain k curve = Ok sk →
  ∃ pkb, encode.verification_key_to_bytes_33 (ecdsa.get_verifying_key sk) = Ok pkb ∧
         pkb = (if ecdsa.y (ecdsa.get_verifying_key sk) mod 2 =? 0
                then Byte.x02 else Byte.x03)
               :: to_bytes_big 32 (ecdsa.x (ecdsa.get_verifying_key sk)) ∧
         length pkb = 33%nat.
Proof.
  unfold crypto.ecdsa_keygen, ecdsa.from_secret_exponent.
  destruct (_ =? _)%nat; [|done]. destruct (_ && _); [|done].
  intros [= <-]. unfold encode.verification_key_to_bytes_33. simpl.
  rewrite int_to_bytes_32_ok by apply point_range.
  eexists. split; [done|]. split.
  - by destruct (_ =? 0).
  - rewrite length_app, length_to_bytes_big. by destruct (_ =? 0).
Qed.

Lemma create_certificate_ok cold pk identifier pkb st sg e' :
  encode.verification_key_to_bytes_33 pk = Ok pkb →
  0 ≤ identifier < 2 ^ 64 →
  SigningKey_sign cold (pkb ++ to_bytes_big 8 identifier) (entropy st) = (sg, e') →
  Arcula._create_certificate SigningKey_sign cold pk identifier st
  = (Ok (sg, (pkb, to_bytes_big 8 identifier)), set_entropy st e').
Proof.
  intros Hpk Hid Hsign. unfold Arcula._create_certificate.
  rewrite Hpk, (bind_ok _ _ _ _ _ (lift_ok _ _)).
  rewrite int_to_bytes_8_ok, (bind_ok _ _ _ _ _ (lift_ok _ _)) by done.
  erewrite bind_ok; [reflexivity|].
  apply with_entropy_ok. unfold crypto.ecdsa_sign. by rewrite Hsign.
Qed.

(** One iteration of the loop, up to the sibling check. *)
Lemma certificate_while_step fuel cold u q visited st un k :
  heap st !! u = Some un → _key un = Some k → length k = 32%nat →
  0 ≤ id un < 2 ^ 64 →
  (∀ v, v ∈ edges un → is_Some (heap st !! v)) →
  ∃ un' e',
    certified curve randrange_from_seed__trytryagain SigningKey_sign cold un un' ∧
    let st1 := set_entropy (set_heap st (<[u := un']> (heap st))) e' in
    Arcula.keygen_while curve randrange_from_seed__trytryagain SigningKey_sign
      (S fuel) cold (u :: q) visited st =
    if bool_decide (NoDup (child_ids (heap st) u)) then
      Arcula.keygen_while curve randrange_from_seed__trytryagain SigningKey_sign
        fuel cold (q ++ filter (fun v => v ∉ visited ∪ {[u]}) (edges un))
        (visited ∪ {[u]}) st1
    else (Raise (AssertionError SiblingIds), st1).
Proof.
  intros Hu Hk Hlen Hid Hvs.
  destruct (ecdsa_keygen_ok k Hlen) as (sk & Hsk & _).
  destruct (verification_key_to_bytes_33_ok k sk Hsk) as (pkb & Hpkb & _ & _).
  destruct (SigningKey_sign cold (pkb ++ to_bytes_big 8 (id un)) (entropy st))
    as [sg e'] eqn:Hsign.
  set (c := (sg, (pkb, to_bytes_big 8 (id un)))).
  set (un' := set_certificate (set_signing_key un sk) c).
  exists un', e'. split.
  { exists k, sk, pkb, (entropy st). rewrite Hsign. done. }
  cbn zeta. cbn [Arcula.keygen_while].
  rewrite (bind_ok _ _ _ _ _ (get_node_ok _ _ _ Hu)).
  rewrite Hk, (bind_ok _ _ _ _ _ (not_None_Some _ _)).
  rewrite Hsk, (bind_ok _ _ _ _ _ (lift_ok _ _)).
  rewrite (bind_ok _ _ _ _ _ (update_node_ok _ _ _ _ Hu)).
  set (sta := set_heap st (<[u := set_signing_key un sk]> (heap st))).
  assert (Hua : heap sta !! u = Some (set_signing_key un sk)).
  { unfold sta. simpl. by rewrite lookup_insert_eq. }
  rewrite (bind_ok _ _ _ _ _ (get_node_ok _ _ _ Hua)).
  cbn [id set_signing_key].
  rewrite (bind_ok _ _ _ _ _ (create_certificate_ok cold _ _ pkb sta sg e' Hpkb Hid Hsign)).
  fold c.
  assert (Hub : heap (set_entropy sta e') !! u = Some (set_signing_key un sk)) by done.
  rewrite (bind_ok _ _ _ _ _ (update_node_ok _ _ _ _ Hub)).
  fold un'.
  set (st1 := set_entropy (set_heap st (<[u := un']> (heap st))) e').
  assert (Hst1 : set_heap (set_entropy sta e')
                   (<[u := un']> (heap (set_entropy sta e'))) = st1).
  { unfold st1, sta, set_heap, set_entropy. simpl. by rewrite insert_insert_eq. }
  rewrite Hst1.
  assert (Hu1 : heap st1 !! u = Some un').
  { unfold st1. simpl. by rewrite lookup_insert_eq. }
  rewrite (bind_ok _ _ _ _ _ (get_node_ok _ _ _ Hu1)).
  assert (Hag : agree (heap st) (heap st1)).
  { unfold st1. simpl. by eapply agree_insert. }
  assert (Hvs1 : ∀ v, v ∈ edges un' → is_Some (heap st1 !! v)).
  { intros v Hv. specialize (Hag v). destruct (Hvs v Hv) as [vn Hvn].
    rewrite Hvn in Hag. by destruct (heap st1 !! v). }
  rewrite (bind_ok _ _ _ _ _ (edge_ids_ok _ _ Hvs1)).
  assert (Hids : omap (λ v, id <$> heap st1 !! v) (edges un') = child_ids (heap st) u).
  { rewrite <- (child_ids_agree _ _ u Hag). unfold child_ids. by rewrite Hu1. }
  rewrite Hids.
  change (edges un') with (edges un).
  rewrite <- (length_child_ids _ _ _ Hu Hvs).
  destruct (bool_decide_reflect (NoDup (child_ids (heap st) u))) as [Hnd|Hnd].
  - apply size_list_to_set_NoDup in Hnd. rewrite Hnd, Nat.eqb_refl.
    by rewrite (bind_ok _ _ _ _ _ (assert_true _ _)).
  - assert (Hne : size (list_to_set (child_ids (heap st) u) : gset Z)
                  ≠ length (child_ids (heap st) u)).
    { intros Heq. by apply Hnd, size_list_to_set_NoDup. }
    apply Nat.eqb_neq in Hne. rewrite Hne.
    by rewrite (bind_raise _ _ _ _ _ (assert_false _ _)).
Qed.

(** The loop on a queue of disjoint trees: it certifies every node when
    sibling ids are distinct everywhere, and otherwise stops at the first
    parent, in breadth-first order, with two children of equal id. *)
Lemma certificate_while_spec fuel : ∀ ts visited st cold,
  (length (ts ≫= subtrees) ≤ fuel)%nat →
  NoDup (root_of <$> (ts ≫= subtrees)) →
  (∀ s, s ∈ ts ≫= subtrees → root_of s ∉ visited) →
  (∀ s, s ∈ ts ≫= subtrees → ready (heap st) s) →
  ∃ r st',
    Arcula.keygen_while curve randrange_from_seed__trytryagain SigningKey_sign
      fuel cold (root_of <$> ts) visited st = (r, st') ∧
    cold_storage_public_key st' = cold_storage_public_key st ∧
    agree (heap st) (heap st') ∧
    (∀ l, l ∉ root_of <$> (ts ≫= subtrees) → heap st' !! l = heap st !! l) ∧
    ((∀ s, s ∈ ts ≫= subtrees → NoDup (child_ids (heap st) (root_of s))) →
     r = Ok tt ∧
     ∀ s n, s ∈ ts ≫= subtrees → heap st !! root_of s = Some n →
       ∃ n', heap st' !! root_of s = Some n' ∧
             certified curve randrange_from_seed__trytryagain SigningKey_sign cold n n') ∧
    ((∃ s, s ∈ ts ≫= subtrees ∧ ¬ NoDup (child_ids (heap st) (root_of s))) →
     (∀ s, s ∈ ts ≫= subtrees → uncertified (heap st) (root_of s)) →
     r = Raise (AssertionError SiblingIds) ∧
     (∀ t, head ts = Some t →
        ∃ n, heap st' !! root_of t = Some n ∧ is_Some (certificate n)) ∧
     (∀ s c, s ∈ ts ≫= subtrees → ¬ NoDup (child_ids (heap st) (root_of s)) →
        c ∈ children s → uncertified (heap st') (root_of c))).
Proof.
  induction fuel as [|fuel IH]; intros ts visited st cold Hfuel Hnd Hvis Hready.
  { destruct ts as [|[u cs] ts]; [|simpl in Hfuel; lia].
    exists (Ok tt), st. split; [done|]. split; [done|]. split; [apply agree_refl|].
    split; [done|]. split.
    - intros _. split; [done|]. intros s n Hs. by apply elem_of_nil in Hs.
    - intros (s & Hs & _). by apply elem_of_nil in Hs. }
  destruct ts as [|[u cs] ts].
  { exists (Ok tt), st. split; [done|]. split; [done|]. split; [apply agree_refl|].
    split; [done|]. split.
    - intros _. split; [done|]. intros s n Hs. by apply elem_of_nil in Hs.
    - intros (s & Hs & _). by apply elem_of_nil in Hs. }
  rewrite bind_cons in *. cbn [subtrees] in *.
  rewrite <- app_comm_cons in *. rewrite fmap_cons in Hnd. cbn [root_of] in Hnd.
  apply NoDup_cons in Hnd as [Hu_fresh Hnd].
  rewrite <- bind_app in *.
  destruct (Hready (T u cs)) as (un & k & Hun & Hedges & Hrange & Hk & Hlen); [by left|].
  cbn [root_of children] in Hun, Hedges.
  assert (Htail_u : ∀ s, s ∈ (cs ++ ts) ≫= subtrees → root_of s ≠ u).
  { intros s Hs <-. by apply Hu_fresh, list_elem_of_fmap_2. }
  assert (Hcs_tail : ∀ c, c ∈ cs → c ∈ (cs ++ ts) ≫= subtrees).
  { intros c Hc. apply roots_in_forest. set_solver. }
  assert (Hvs : ∀ v, v ∈ edges un → is_Some (heap st !! v)).
  { rewrite Hedges. intros v (c & -> & Hc)%list_elem_of_fmap.
    destruct (Hready c) as (n & _ & Hn & _); [right; by apply Hcs_tail|]. by exists n. }
  destruct (certificate_while_step fuel cold u (root_of <$> ts) visited st un k
              Hun Hk Hlen Hrange Hvs) as (un' & e' & Hcert & Hstep).
  cbn zeta in Hstep.
  set (st1 := set_entropy (set_heap st (<[u := un']> (heap st))) e') in *.
  assert (Hskel : skeleton un' = skeleton un).
  { destruct Hcert as (? & ? & ? & ? & _ & _ & _ & ->). done. }
  assert (Hag1 : agree (heap st) (heap st1)).
  { unfold st1. simpl. by eapply agree_insert. }
  assert (Hu1 : heap st1 !! u = Some un').
  { unfold st1. simpl. by rewrite lookup_insert_eq. }
  assert (Hframe1 : ∀ l, l ≠ u → heap st1 !! l = heap st !! l).
  { intros l Hl. unfold st1. simpl. by rewrite lookup_insert_ne. }
  assert (Hfilter : filter (fun v => v ∉ visited ∪ {[u]}) (edges un) = root_of <$> cs).
  { rewrite Hedges. apply filter_all. intros v (c & -> & Hc)%list_elem_of_fmap.
    assert (root_of c ∉ visited) by (apply Hvis; right; by apply Hcs_tail).
    assert (root_of c ≠ u) by (by apply Htail_u, Hcs_tail).
    set_solver. }
  assert (Hperm : (ts ++ cs) ≫= subtrees ≡ₚ (cs ++ ts) ≫= subtrees).
  { rewrite !bind_app. apply Permutation_app_comm. }
  assert (Hin_perm : ∀ s, s ∈ (ts ++ cs) ≫= subtrees ↔ s ∈ (cs ++ ts) ≫= subtrees).
  { intros s. by rewrite Hperm. }
  destruct (IH (ts ++ cs) (visited ∪ {[u]}) st1 cold)
    as (r & st' & Hrun & Hcold & Hag & Hframe & HpostA & HpostB).
  { rewrite Hperm. simpl in Hfuel. lia. }
  { by rewrite Hperm. }
  { intros s Hs%Hin_perm.
    assert (root_of s ∉ visited) by (apply Hvis; by right).
    assert (root_of s ≠ u) by (by apply Htail_u).
    set_solver. }
  { intros s Hs%Hin_perm. eapply ready_agree; [exact Hag1|]. apply Hready. by right. }
  assert (Hu' : heap st' !! u = Some un').
  { rewrite Hframe; [done|]. rewrite Hperm. exact Hu_fresh. }
  rewrite fmap_cons. cbn [root_of].
  rewrite Hstep, Hfilter, <- fmap_app.
  destruct (bool_decide_reflect (NoDup (child_ids (heap st) u))) as [Hnd_u|Hnd_u].
  - exists r, st'. split; [done|]. split; [by rewrite Hcold|].
    split; [by eapply agree_trans|]. split; [|split].
    + intros l Hl. apply not_elem_of_cons in Hl as [Hlu Hl].
      rewrite Hframe by (by rewrite Hperm). by apply Hframe1.
    + intros Hall. destruct HpostA as [-> Hcerts].
      { intros s Hs%Hin_perm. rewrite (child_ids_agree _ _ _ Hag1). apply Hall. by right. }
      split; [done|]. intros s n Hs Hn. apply elem_of_cons in Hs as [->|Hs].
      * cbn [root_of] in *. rewrite Hun in Hn. injection Hn as <-. eauto.
      * apply Hcerts; [by apply Hin_perm|]. rewrite Hframe1; [done|]. by apply Htail_u.
    + intros (s & Hs & Hbad) Hunc.
      assert (Htransfer : ∀ s, s ∈ T u cs :: (cs ++ ts) ≫= subtrees →
                ¬ NoDup (child_ids (heap st) (root_of s)) →
                s ∈ (ts ++ cs) ≫= subtrees ∧
                ¬ NoDup (child_ids (heap st1) (root_of s))).
      { intros s' Hs' Hbad'. rewrite (child_ids_agree _ _ _ Hag1).
        split; [|done]. apply elem_of_cons in Hs' as [->|Hs']; [done|].
        by apply Hin_perm. }
      destruct HpostB as (-> & _ & Hkids).
      { exists s. by apply Htransfer. }
      { intros s' Hs'%Hin_perm. destruct (Hunc s') as (n & Hn & ?); [by right|].
        exists n. rewrite Hframe1; [done|]. by apply Htail_u. }
      split; [done|]. split.
      * intros t [= <-]. exists un'. split; [done|].
        destruct Hcert as (? & ? & ? & ? & _ & _ & _ & ->). by eexists.
      * intros s' c Hs' Hbad' Hc.
        destruct (Htransfer s' Hs' Hbad') as [Hs1 Hbad1]. by eapply Hkids.
  - exists (Raise (AssertionError SiblingIds)), st1.
    split; [done|]. split; [done|]. split; [done|]. split; [|split].
    + intros l Hl. apply not_elem_of_cons in Hl as [Hlu Hl]. by apply Hframe1.
    + intros Hall. exfalso. apply Hnd_u. apply (Hall (T u cs)). by left.
    + intros _ Hunc. split; [done|]. split.
      * intros t [= <-]. exists un'. split; [done|].
        destruct Hcert as (? & ? & ? & ? & _ & _ & _ & ->). by eexists.
      * intros s c Hs _ Hc.
        assert (Hc' : c ∈ (cs ++ ts) ≫= subtrees).
        { apply elem_of_cons in Hs as [->|Hs]; [by apply Hcs_tail|].
          by eapply children_in_forest. }
        destruct (Hunc c) as (n & Hn & ?); [by right|].
        exists n. rewrite Hframe1; [done|]. by apply Htail_u.
Qed.

End CertificateLayer.

(** ** The wallet: derivation followed by the certificate pass *)

Section Wallet.

Variable prf_f : bytes → bytes → bytes.
Variable enc_f : bytes → bytes → Entropy → Result (bytes * bytes) * Entropy.
Variable curve : ecdsa.Curve.
Variable randrange_from_seed__trytryagain : bytes → Z → Z.
Variable SigningKey_sign : ecdsa.SigningKey → bytes → Entropy → bytes * Entropy.

Hypothesis enc_f_total :
  ∀ k x m e, ∃ c e', enc_f (prf_f k x) m e = (Ok c, e').
(** "A PRF function that outputs 256 bits." *)
Hypothesis prf_f_length : ∀ k m, length (prf_f k m) = 32%nat.
Hypothesis randrange_range : ∀ seed,
  1 ≤ randrange_from_seed__trytryagain seed (ecdsa.order curve) < ecdsa.order curve.
Hypothesis point_range : ∀ d, 0 ≤ ecdsa.x (ecdsa.generator_mul curve d) < 2 ^ 256.

Lemma arcula_keygen_fresh_tree t st seed fuel :
  fresh_hierarchy (heap st) t →
  (length (locs t) ≤ fuel)%nat →
  length seed = 64%nat →
  ∃ st1 cold r st',
    DHKA.keygen (root_of t) prf_f enc_f fuel (firstn 32 seed) st = (Ok tt, st1) ∧
    crypto.ecdsa_keygen randrange_from_seed__trytryagain (skipn 32 seed) curve = Ok cold ∧
    Arcula.keygen (root_of t) prf_f enc_f curve randrange_from_seed__trytryagain
      SigningKey_sign fuel seed st = (r, st') ∧
    cold_storage_public_key st' = Some (ecdsa.get_verifying_key cold) ∧
    same_ids (heap st) (heap st1) ∧
    agree (heap st1) (heap st') ∧
    ((∀ s, s ∈ subtrees t → NoDup (child_ids (heap st) (root_of s))) →
     r = Ok tt ∧
     ∀ s, s ∈ subtrees t →
       ∃ n1 n', heap st1 !! root_of s = Some n1 ∧ heap st' !! root_of s = Some n' ∧
         certified curve randrange_from_seed__trytryagain SigningKey_sign cold n1 n') ∧
    ((∃ s, s ∈ subtrees t ∧ ¬ NoDup (child_ids (heap st) (root_of s))) →
     r = Raise (AssertionError SiblingIds) ∧
     (∃ n, heap st' !! root_of t = Some n ∧ is_Some (certificate n)) ∧
     (∀ s c, s ∈ subtrees t → ¬ NoDup (child_ids (heap st) (root_of s)) →
        c ∈ children s → uncertified (heap st') (root_of c))).
Proof.
  intros Hfresh Hfuel Hseed.
  destruct (keygen_fresh_tree prf_f enc_f enc_f_total t st (firstn 32 seed) fuel Hfresh Hfuel)
    as (st1 & Hrun1 & Hcold1 & Hframe1 & _ & Hpost1).
  destruct Hfresh as [Hnd Hfresh].
  assert (Hids : same_ids (heap st) (heap st1)).
  { intros l. destruct (decide (l ∈ locs t)) as [Hl|Hl]; [|by rewrite Hframe1].
    rewrite locs_subtrees in Hl. apply list_elem_of_fmap in Hl as (s & -> & Hs).
    destruct (Hfresh s Hs) as (n & Hn & _).
    destruct (Hpost1 s n Hs Hn) as (n' & Hn' & (Hid & _ & Hed & _) & _).
    rewrite Hn, Hn'. simpl. by rewrite Hid, Hed. }
  assert (Hready : ∀ s, s ∈ subtrees t → ready (heap st1) s ∧ uncertified (heap st1) (root_of s)).
  { intros s Hs. destruct (Hfresh s Hs) as (n & Hn & He & Hr & _ & Hc & Hsk).
    destruct (Hpost1 s n Hs Hn) as (n' & Hn' & (Hid & _ & Hed & Hc' & Hsk') & (ps & Hps) & _).
    destruct Hps as (_ & _ & _ & Hkey). split.
    - exists n'. eexists. split; [done|]. split; [by rewrite Hed|].
      split; [by rewrite Hid|]. split; [exact Hkey|apply prf_f_length].
    - exists n'. rewrite Hc', Hsk'. done. }
  destruct (ecdsa_keygen_ok curve randrange_from_seed__trytryagain randrange_range
              (skipn 32 seed)) as (cold & Hcold & _).
  { rewrite length_skipn. lia. }
  set (st1c := {| heap := heap st1; entropy := entropy st1;
                  cold_storage_public_key := Some (ecdsa.get_verifying_key cold) |}).
  destruct (certificate_while_spec curve randrange_from_seed__trytryagain SigningKey_sign
              randrange_range point_range fuel [t] ∅ st1c cold)
    as (r & st' & Hrun & Hcold' & Hag & Hframe & HpostA & HpostB).
  { rewrite bind_singleton. rewrite locs_subtrees, length_fmap in Hfuel. done. }
  { rewrite bind_singleton, <- locs_subtrees. done. }
  { intros s _. set_solver. }
  { intros s Hs. rewrite bind_singleton in Hs. by apply Hready. }
  rewrite bind_singleton in *.
  exists st1, cold, r, st'. split; [done|]. split; [done|]. split; [|split; [|split; [|split; [|split]]]].
  - unfold Arcula.keygen. rewrite Hseed. simpl Nat.eqb.
    rewrite (bind_ok _ _ _ _ _ (assert_true _ _)).
    rewrite (bind_ok _ _ _ _ _ Hrun1).
    unfold Arcula._cold_storage_keys. change (256 / 8)%nat with 32%nat. rewrite Hcold.
    rewrite (bind_ok _ _ _ _ _ (lift_ok _ _)).
    unfold bind at 1. unfold Arcula.set_cold_storage_public_key. exact Hrun.
  - by rewrite Hcold'.
  - done.
  - done.
  - intros Hall. destruct HpostA as [-> Hcerts].
    { intros s Hs. change (heap st1c) with (heap st1).
      rewrite (child_ids_same_ids _ _ _ Hids). by apply Hall. }
    split; [done|]. intros s Hs.
    destruct (Hready s Hs) as [(n1 & k & Hn1 & _) _].
    destruct (Hcerts s n1 Hs Hn1) as (n' & Hn' & Hc). eauto.
  - intros (s & Hs & Hbad).
    destruct HpostB as (-> & Hroot & Hkids).
    { exists s. split; [done|]. change (heap st1c) with (heap st1).
      by rewrite (child_ids_same_ids _ _ _ Hids). }
    { intros s' Hs'. by apply Hready. }
    split; [done|]. split; [by apply Hroot|].
    intros s' c Hs' Hbad' Hc. eapply Hkids; [exact Hs'| |exact Hc].
    change (heap st1c) with (heap st1). by rewrite (child_ids_same_ids _ _ _ Hids).
Qed.

End Wallet.

(** ** Properties of the derivation engine *)

Section DerivationProperties.

Variable prf_f : bytes → bytes → bytes.
Variable enc_f : bytes → bytes → Entropy → Result (bytes * bytes) * Entropy.
Variable dec_f : bytes → bytes * bytes → Result bytes.

Hypothesis enc_f_total :
  ∀ k x m e, ∃ c e', enc_f (prf_f k x) m e = (Ok c, e').

(** [keygen_fresh_tree], node by node. *)
Lemma keygen_fresh_tree_nodes t st seed fuel :
  fresh_hierarchy (heap st) t →
  (length (locs t) ≤ fuel)%nat →
  ∃ st',
    DHKA.keygen (root_of t) prf_f enc_f fuel seed st = (Ok tt, st') ∧
    same_ids (heap st) (heap st') ∧
    (∃ rn, heap st' !! root_of t = Some rn ∧ has_material prf_f rn seed) ∧
    (∀ u cs, T u cs ∈ subtrees t →
       ∃ un u_secret,
         heap st' !! u = Some un ∧ _secret un = Some u_secret ∧
         (∃ ps, has_material prf_f un ps) ∧
         edges un = root_of <$> cs ∧
         Forall2 (fun v c => ∃ vn, heap st' !! v = Some vn ∧
                                   has_material prf_f vn u_secret ∧
                                   is_edge_cipher prf_f enc_f un vn c)
                 (edges un) (encrypted_edges un)).
Proof.
  intros Hfresh Hfuel.
  destruct (keygen_fresh_tree prf_f enc_f enc_f_total t st seed fuel Hfresh Hfuel)
    as (st' & Hrun & _ & Hframe & Hroot & Hpost).
  destruct Hfresh as [Hnd Hfresh].
  exists st'. split; [done|]. split; [|split; [done|]].
  - intros l. destruct (decide (l ∈ locs t)) as [Hl|Hl]; [|by rewrite Hframe].
    rewrite locs_subtrees in Hl. apply list_elem_of_fmap in Hl as (s & -> & Hs).
    destruct (Hfresh s Hs) as (n & Hn & _).
    destruct (Hpost s n Hs Hn) as (n' & Hn' & (Hid & _ & Hed & _) & _).
    rewrite Hn, Hn'. simpl. by rewrite Hid, Hed.
  - intros u cs Hs.
    destruct (Hfresh _ Hs) as (n & Hn & Hedges & _).
    destruct (Hpost _ n Hs Hn) as (n' & Hn' & (_ & _ & Hed & _) & Hps & Hdone).
    destruct Hdone as (un & u_secret & Hun & Hsec & Hall).
    cbn [root_of children] in *. rewrite Hn' in Hun. injection Hun as <-.
    exists n', u_secret. split; [done|]. split; [done|]. split; [done|].
    split; [congruence|done].
Qed.

(** C1: on every (freshly built, tree-shaped) hierarchy and for every seed,
    [DHKA.keygen] completes; the root holds label = be64(id),
    secret = PRF(seed, 0x03 ‖ label), encryption_key = PRF(secret, 0x00 ‖ label)
    and private_key = PRF(secret, 0x01 ‖ label); every child holds the same
    tuple derived from its parent's secret; and every entry of a parent's
    [encrypted_edges] is an encryption of the child's
    encryption_key ‖ private_key under PRF(parent.encryption_key,
    0x02 ‖ be64(child.id)).  Ids and child lists are left as they were. *)
Theorem C1_keygen_derivation_rules t st seed fuel :
  fresh_hierarchy (heap st) t →
  (length (locs t) ≤ fuel)%nat →
  ∃ st',
    DHKA.keygen (root_of t) prf_f enc_f fuel seed st = (Ok tt, st') ∧
    (∀ l n, heap st !! l = Some n →
       ∃ n', heap st' !! l = Some n' ∧ id n' = id n ∧ edges n' = edges n) ∧
    (∃ rn, heap st' !! root_of t = Some rn ∧ has_material prf_f rn seed) ∧
    (∀ u cs, T u cs ∈ subtrees t →
       ∃ un u_secret,
         heap st' !! u = Some un ∧ _secret un = Some u_secret ∧
         edges un = root_of <$> cs ∧
         Forall2 (fun v c => ∃ vn, heap st' !! v = Some vn ∧
                                   has_material prf_f vn u_secret ∧
                                   is_edge_cipher prf_f enc_f un vn c)
                 (edges un) (encrypted_edges un)).
Proof.
  intros Hfresh Hfuel.
  destruct (keygen_fresh_tree_nodes t st seed fuel Hfresh Hfuel)
    as (st' & Hrun & Hids & Hroot & Hnodes).
  exists st'. split; [done|]. split; [|split; [done|]].
  - intros l n Hn. specialize (Hids l). rewrite Hn in Hids.
    destruct (heap st' !! l) as [n'|]; [|done].
    injection Hids as Hid Hed. by exists n'.
  - intros u cs Hu.
    destruct (Hnodes u cs Hu) as (un & u_secret & ? & ? & _ & ? & ?).
    by exists un, u_secret.
Qed.

(** C8: after [DHKA.keygen], for every node the lists [encrypted_edges] and
    [edges] have the same length, [edges] is the declared child list, and
    the i-th encrypted edge is the edge ciphertext of the i-th child. *)
Theorem C8_encrypted_edges_aligned t st seed fuel :
  fresh_hierarchy (heap st) t →
  (length (locs t) ≤ fuel)%nat →
  ∃ st',
    DHKA.keygen (root_of t) prf_f enc_f fuel seed st = (Ok tt, st') ∧
    ∀ u, u ∈ locs t →
      ∃ un0 un,
        heap st !! u = Some un0 ∧ heap st' !! u = Some un ∧
        edges un = edges un0 ∧
        length (encrypted_edges un) = length (edges un) ∧
        ∀ i v, edges un !! i = Some v →
          ∃ c vn, encrypted_edges un !! i = Some c ∧ heap st' !! v = Some vn ∧
                  is_edge_cipher prf_f enc_f un vn c.
Proof.
  intros Hfresh Hfuel.
  destruct (keygen_fresh_tree_nodes t st seed fuel Hfresh Hfuel)
    as (st' & Hrun & Hids & Hroot & Hnodes).
  exists st'. split; [done|]. intros u Hu.
  rewrite locs_subtrees in Hu. apply list_elem_of_fmap in Hu as ([u' cs] & -> & Hs).
  destruct Hfresh as [_ Hfresh]. destruct (Hfresh _ Hs) as (un0 & Hun0 & Hed0 & _).
  destruct (Hnodes u' cs Hs) as (un & u_secret & Hun & _ & _ & Hed & Hall).
  cbn [root_of children] in *.
  exists un0, un. split; [done|]. split; [done|]. split; [congruence|].
  split; [symmetry; by eapply Forall2_length|].
  intros i v Hv.
  destruct (Forall2_lookup_l _ _ _ _ _ Hall Hv) as (c & Hc & vn & Hvn & _ & Hcipher).
  by exists c, vn.
Qed.

(** C9 (as the code has it): [DHKA.keygen] does not look at the length of
    the seed.  For a seed of any length other than 32 bytes it still
    completes on a tree-shaped hierarchy and derives the root secret as
    PRF(seed, 0x03 ‖ be64(root.id)) from the seed as given. *)
Theorem C9_keygen_accepts_any_seed_length t st seed fuel :
  length seed ≠ 32%nat →
  fresh_hierarchy (heap st) t →
  (length (locs t) ≤ fuel)%nat →
  ∃ st' rn,
    DHKA.keygen (root_of t) prf_f enc_f fuel seed st = (Ok tt, st') ∧
    heap st' !! root_of t = Some rn ∧
    _secret rn = Some (prf_f seed (constants.PRF_SECRET_PREFIX ++ to_bytes_big 8 (id rn))).
Proof.
  intros _ Hfresh Hfuel.
  destruct (keygen_fresh_tree_nodes t st seed fuel Hfresh Hfuel)
    as (st' & Hrun & _ & (rn & Hrn & _ & Hsec & _) & _).
  by exists st', rn.
Qed.


(** Decryption inverts encryption. *)
Hypothesis dec_f_enc_f :
  ∀ k m e c e', enc_f k m e = (Ok c, e') → dec_f k c = Ok m.

(** C5: after [DHKA.keygen], for every edge from a parent to its i-th child,
    decrypting the i-th entry of the parent's [encrypted_edges] with
    PRF(parent.encryption_key, 0x02 ‖ be64(child.id)) returns exactly
    child.encryption_key ‖ child.private_key. *)
Theorem C5_edge_round_trip t st seed fuel :
  fresh_hierarchy (heap st) t →
  (length (locs t) ≤ fuel)%nat →
  ∃ st',
    DHKA.keygen (root_of t) prf_f enc_f fuel seed st = (Ok tt, st') ∧
    ∀ p cs, T p cs ∈ subtrees t →
      ∃ pn p_ek,
        heap st' !! p = Some pn ∧ edges pn = root_of <$> cs ∧
        _encryption_key pn = Some p_ek ∧
        Forall2 (fun v c =>
                   ∃ vn v_ek v_key,
                     heap st' !! v = Some vn ∧
                     _encryption_key vn = Some v_ek ∧ _key vn = Some v_key ∧
                     dec_f (prf_f p_ek (Byte.x02 :: to_bytes_big 8 (id vn))) c
                     = Ok (v_ek ++ v_key))
                (edges pn) (encrypted_edges pn).
Proof.
  intros Hfresh Hfuel.
  destruct (keygen_fresh_tree_nodes t st seed fuel Hfresh Hfuel)
    as (st' & Hrun & Hids & Hroot & Hnodes).
  exists st'. split; [done|]. intros p cs Hp.
  destruct (Hnodes p cs Hp)
    as (pn & p_secret & Hpn & Hsec & (ps & _ & _ & Hek & _) & Hedges & Hall).
  eexists pn, _. split; [done|]. split; [done|]. split; [exact Hek|].
  eapply Forall2_impl; [exact Hall|].
  intros v c (vn & Hvn & _ & (u_ek & v_ek & v_key & e & Hu & Hvek & Hvkey & Henc)).
  rewrite Hek in Hu. injection Hu as <-.
  exists vn, v_ek, v_key. split; [done|]. split; [done|]. split; [done|].
  destruct (enc_f _ _ e) as [r e'] eqn:Hr. simpl in Henc. subst r.
  by eapply dec_f_enc_f.
Qed.

End DerivationProperties.

(** ** Properties of the certificate layer *)

Lemma keeps_cold_key_bind {A B} (m : M A) (f : A → M B) :
  keeps_cold_key m → (∀ a, keeps_cold_key (f a)) → keeps_cold_key (bind m f).
Proof.
  intros Hm Hf s r s'. unfold bind. destruct (m s) as [[a|e] s1] eqn:Hms.
  - intros Hfa. rewrite (Hf a _ _ _ Hfa). by eapply Hm.
  - intros [= <- <-]. by eapply Hm.
Qed.

Lemma keeps_cold_key_pure {A} (r0 : Result A) : keeps_cold_key (fun s => (r0, s)).
Proof. by intros s r s' [= _ <-]. Qed.

Lemma keeps_cold_key_assert b a : keeps_cold_key (assert b a).
Proof. destruct b; apply keeps_cold_key_pure. Qed.

Lemma keeps_cold_key_not_None {A} (o : option A) : keeps_cold_key (not_None o).
Proof. destruct o; apply keeps_cold_key_pure. Qed.

Lemma keeps_cold_key_get_node l : keeps_cold_key (get_node l).
Proof. intros s r s'. unfold get_node. by destruct (heap s !! l); intros [= _ <-]. Qed.

Lemma keeps_cold_key_update_node l f : keeps_cold_key (update_node l f).
Proof. intros s r s'. unfold update_node. by destruct (heap s !! l); intros [= _ <-]. Qed.

Lemma keeps_cold_key_with_entropy {A} (f : Entropy → Result A * Entropy) :
  keeps_cold_key (with_entropy f).
Proof.
  intros s r s'. unfold with_entropy. destruct (f (entropy s)). by intros [= _ <-].
Qed.

Create HintDb cold_key.
#[local] Hint Resolve keeps_cold_key_pure keeps_cold_key_assert keeps_cold_key_not_None
  keeps_cold_key_get_node keeps_cold_key_update_node keeps_cold_key_with_entropy
  : cold_key.

Ltac keeps_cold_key_steps :=
  repeat first
    [ apply keeps_cold_key_bind; [|intros ?]
    | solve [unfold ret, raise, lift; eauto with cold_key] ].

Section SeedSplit.

Variable prf_f : bytes → bytes → bytes.
Variable enc_f : bytes → bytes → Entropy → Result (bytes * bytes) * Entropy.
Variable curve : ecdsa.Curve.
Variable randrange_from_seed__trytryagain : bytes → Z → Z.
Variable SigningKey_sign : ecdsa.SigningKey → bytes → Entropy → bytes * Entropy.

Lemma keeps_cold_key_edge_ids vs : keeps_cold_key (Arcula.edge_ids vs).
Proof. induction vs as [|v vs IH]; cbn [Arcula.edge_ids]; keeps_cold_key_steps. Qed.

Lemma keeps_cold_key_create_certificate cold pk identifier :
  keeps_cold_key (Arcula._create_certificate SigningKey_sign cold pk identifier).
Proof. unfold Arcula._create_certificate. keeps_cold_key_steps. Qed.

Lemma keeps_cold_key_keygen_while fuel : ∀ cold q visited,
  keeps_cold_key (Arcula.keygen_while curve randrange_from_seed__trytryagain
                    SigningKey_sign fuel cold q visited).
Proof.
  induction fuel as [|fuel IH]; intros cold [|u q] visited; cbn [Arcula.keygen_while];
    try (unfold ret, raise; apply keeps_cold_key_pure).
  keeps_cold_key_steps;
    auto using keeps_cold_key_edge_ids, keeps_cold_key_create_certificate.
Qed.

Hypothesis enc_f_total :
  ∀ k x m e, ∃ c e', enc_f (prf_f k x) m e = (Ok c, e').
Hypothesis prf_f_length : ∀ k m, length (prf_f k m) = 32%nat.
Hypothesis randrange_range : ∀ seed,
  1 ≤ randrange_from_seed__trytryagain seed (ecdsa.order curve) < ecdsa.order curve.
Hypothesis point_range : ∀ d, 0 ≤ ecdsa.x (ecdsa.generator_mul curve d) < 2 ^ 256.

(** C7: [Arcula.keygen] rejects every seed that is not 64 bytes long, before
    touching the hierarchy; when it completes, it has run [DHKA.keygen] on the
    first 32 bytes of the seed and has derived the cold-storage key from the
    last 32 bytes by [crypto.ecdsa_keygen], a function of those bytes and
    the curve alone, whose public key is what [cold_storage_public_key]
    holds at the end.  And it does complete: on a freshly built tree with
    distinct sibling ids and a 64-byte seed it returns, the root then holds
    the material derived from the first 32 bytes, and the cold-storage key
    is the key pair of the scalar that the seeded sampling procedure maps the
    last 32 bytes to. *)
Theorem C7_seed_split root fuel seed st :
  (length seed ≠ 64%nat →
   Arcula.keygen root prf_f enc_f curve randrange_from_seed__trytryagain
     SigningKey_sign fuel seed st = (Raise (AssertionError SeedLength), st)) ∧
  (∀ st',
     Arcula.keygen root prf_f enc_f curve randrange_from_seed__trytryagain
       SigningKey_sign fuel seed st = (Ok tt, st') →
     length seed = 64%nat ∧
     ∃ st1 cold,
       DHKA.keygen root prf_f enc_f fuel (firstn 32 seed) st = (Ok tt, st1) ∧
       crypto.ecdsa_keygen randrange_from_seed__trytryagain (skipn 32 seed) curve
         = Ok cold ∧
       Arcula.keygen_while curve randrange_from_seed__trytryagain SigningKey_sign
         fuel cold [root] ∅
         (with_cold_storage_public_key st1 (ecdsa.get_verifying_key cold)) = (Ok tt, st') ∧
       cold_storage_public_key st' = Some (ecdsa.get_verifying_key cold)) ∧
  (∀ t,
     root_of t = root → fresh_hierarchy (heap st) t →
     (length (locs t) ≤ fuel)%nat →
     (∀ s, s ∈ subtrees t → NoDup (child_ids (heap st) (root_of s))) →
     length seed = 64%nat →
     ∃ st' cold rn,
       Arcula.keygen root prf_f enc_f curve randrange_from_seed__trytryagain
         SigningKey_sign fuel seed st = (Ok tt, st') ∧
       crypto.ecdsa_keygen randrange_from_seed__trytryagain (skipn 32 seed) curve
         = Ok cold ∧
       ecdsa.get_verifying_key cold
         = ecdsa.generator_mul curve
             (randrange_from_seed__trytryagain (skipn 32 seed) (ecdsa.order curve)) ∧
       cold_storage_public_key st' = Some (ecdsa.get_verifying_key cold) ∧
       heap st' !! root = Some rn ∧
       has_material prf_f rn (firstn 32 seed)).
Proof.
  split; [|split].
  - intros Hlen. unfold Arcula.keygen.
    apply Nat.eqb_neq in Hlen. change (512 / 8)%nat with 64%nat. rewrite Hlen.
    by rewrite (bind_raise _ _ _ _ _ (assert_false _ _)).
  - intros st'. unfold Arcula.keygen. change (512 / 8)%nat with 64%nat.
    change (256 / 8)%nat with 32%nat.
    destruct (length seed =? 64)%nat eqn:Hlen.
    2:{ by rewrite (bind_raise _ _ _ _ _ (assert_false _ _)). }
    rewrite (bind_ok _ _ _ _ _ (assert_true _ _)).
    apply Nat.eqb_eq in Hlen. rewrite bind_unfold.
    destruct (DHKA.keygen root prf_f enc_f fuel (firstn 32 seed) st) as [[[]|e] st1];
      [|done].
    unfold Arcula._cold_storage_keys.
    destruct (crypto.ecdsa_keygen _ _ _) as [cold|e] eqn:Hcold.
    2:{ by rewrite (bind_raise _ _ _ _ _ (eq_refl : lift (Raise e) st1 = _)). }
    rewrite (bind_ok _ _ _ _ _ (lift_ok _ _)).
    unfold bind at 1. unfold Arcula.set_cold_storage_public_key.
    fold (with_cold_storage_public_key st1 (ecdsa.get_verifying_key cold)).
    intros Hrun. split; [done|]. exists st1, cold. split; [done|]. split; [done|].
    split; [done|]. by rewrite (keeps_cold_key_keygen_while _ _ _ _ _ _ _ Hrun).
  - intros t <- Hfresh Hfuel Hsiblings Hseed.
    destruct (arcula_keygen_fresh_tree prf_f enc_f curve randrange_from_seed__trytryagain
                SigningKey_sign enc_f_total prf_f_length randrange_range point_range
                t st seed fuel Hfresh Hfuel Hseed)
      as (st1 & cold & r & st' & Hrun1 & Hcold & Hrun & Hpk & _ & _ & Hok & _).
    destruct (Hok Hsiblings) as [-> Hcert].
    destruct (keygen_fresh_tree prf_f enc_f enc_f_total t st (firstn 32 seed) fuel
                Hfresh Hfuel) as (st1' & Hrun1' & _ & _ & (rn & Hrn & Hmat) & _).
    rewrite Hrun1 in Hrun1'. injection Hrun1' as <-.
    destruct (Hcert t (subtrees_self t))
      as (n1 & n' & Hn1 & Hn' & (k & sk & pkb & e & _ & _ & _ & ->)).
    rewrite Hrn in Hn1. injection Hn1 as <-.
    destruct (ecdsa_keygen_ok curve randrange_from_seed__trytryagain randrange_range
                (skipn 32 seed)) as (cold' & Hcold' & Hvk).
    { rewrite length_drop, Hseed. done. }
    rewrite Hcold in Hcold'. injection Hcold' as <-.
    exists st', cold, (set_certificate (set_signing_key rn sk)
                         ((SigningKey_sign cold (pkb ++ to_bytes_big 8 (id rn)) e).1,
                          (pkb, to_bytes_big 8 (id rn)))).
    split; [done|]. split; [done|]. split; [done|]. split; [done|].
    split; [done|]. exact Hmat.
Qed.

End SeedSplit.

Lemma has_material_same prf_f nA nB ps :
  id nA = id nB → has_material prf_f nA ps → has_material prf_f nB ps →
  same_material nA nB.
Proof.
  unfold has_material, same_material. intros Hid (?&?&?&?) (?&?&?&?).
  rewrite Hid in *. repeat split; congruence.
Qed.

Section EntropyIndependence.

Variable prf_f : bytes → bytes → bytes.
Variables enc_fA enc_fB : bytes → bytes → Entropy → Result (bytes * bytes) * Entropy.
Variables hA hB : gmap loc Node.

Hypothesis same_ids_AB : same_ids hA hB.

(** Two stores that went through derivation with the same ids carry the
    same material below any node that carries the same material. *)
Lemma material_determined t :
  (∀ s, s ∈ subtrees t → node_done prf_f enc_fA hA (root_of s)) →
  (∀ s, s ∈ subtrees t → node_done prf_f enc_fB hB (root_of s)) →
  (∀ s nA, s ∈ subtrees t → hA !! root_of s = Some nA →
           edges nA = root_of <$> children s) →
  ∀ ps nA nB,
    hA !! root_of t = Some nA → hB !! root_of t = Some nB →
    has_material prf_f nA ps → has_material prf_f nB ps →
    ∀ s, s ∈ subtrees t →
      ∃ nA' nB', hA !! root_of s = Some nA' ∧ hB !! root_of s = Some nB' ∧
                 same_material nA' nB'.
Proof.
  induction t as [l cs IH] using Tree_forall_ind.
  intros HdoneA HdoneB Hedges ps nA nB HnA HnB HmA HmB s Hs.
  cbn [root_of] in HnA, HnB.
  assert (Hid : id nA = id nB).
  { specialize (same_ids_AB l). rewrite HnA, HnB in same_ids_AB.
    simpl in same_ids_AB. congruence. }
  assert (Hsame : same_material nA nB) by (by eapply has_material_same).
  cbn [subtrees] in Hs. apply elem_of_cons in Hs as [->|Hs].
  { by exists nA, nB. }
  apply list_elem_of_bind in Hs as (c & Hs & Hc).
  rewrite Forall_forall in IH.
  assert (Hsub : ∀ s', s' ∈ subtrees c → s' ∈ subtrees (T l cs)).
  { intros s' Hs'. cbn [subtrees]. right. apply list_elem_of_bind. eauto. }
  destruct (HdoneA (T l cs) (subtrees_self _)) as (unA & secA & HunA & HsecA & HallA).
  destruct (HdoneB (T l cs) (subtrees_self _)) as (unB & secB & HunB & HsecB & HallB).
  cbn [root_of] in HunA, HunB. rewrite HnA in HunA. rewrite HnB in HunB.
  injection HunA as <-. injection HunB as <-.
  assert (secB = secA) as ->.
  { destruct Hsame as (_ & Hsec & _). congruence. }
  pose proof (Hedges (T l cs) nA (subtrees_self _) HnA) as HedA. cbn [children] in HedA.
  assert (HedB : edges nB = root_of <$> cs).
  { specialize (same_ids_AB l). rewrite HnA, HnB in same_ids_AB.
    simpl in same_ids_AB. congruence. }
  apply list_elem_of_lookup in Hc as [i Hi].
  assert (HiA : edges nA !! i = Some (root_of c)) by (by rewrite HedA, list_lookup_fmap, Hi).
  assert (HiB : edges nB !! i = Some (root_of c)) by (by rewrite HedB, list_lookup_fmap, Hi).
  destruct (Forall2_lookup_l _ _ _ _ _ HallA HiA) as (_ & _ & cA & HcA & HmcA & _).
  destruct (Forall2_lookup_l _ _ _ _ _ HallB HiB) as (_ & _ & cB & HcB & HmcB & _).
  eapply (IH c); eauto.
  apply list_elem_of_lookup. eauto.
Qed.

End EntropyIndependence.

Section WalletProperties.

Variable prf_f : bytes → bytes → bytes.
Variable enc_f : bytes → bytes → Entropy → Result (bytes * bytes) * Entropy.
Variable curve : ecdsa.Curve.
Variable randrange_from_seed__trytryagain : bytes → Z → Z.
Variable SigningKey_sign : ecdsa.SigningKey → bytes → Entropy → bytes * Entropy.
(** [pk.verify(signature, message, hashfunc=hashlib.sha256,
    sigdecode=ecdsa.util.sigdecode_der)]. *)
Variable VerifyingKey_verify : ecdsa.VerifyingKey → bytes → bytes → bool.

Hypothesis enc_f_total :
  ∀ k x m e, ∃ c e', enc_f (prf_f k x) m e = (Ok c, e').
Hypothesis prf_f_length : ∀ k m, length (prf_f k m) = 32%nat.
Hypothesis randrange_range : ∀ seed,
  1 ≤ randrange_from_seed__trytryagain seed (ecdsa.order curve) < ecdsa.order curve.
Hypothesis point_range : ∀ d, 0 ≤ ecdsa.x (ecdsa.generator_mul curve d) < 2 ^ 256.


(** C4 (as the code has it): two runs of [Arcula.keygen] from the same seed
    and the same hierarchy, whatever entropy each run draws, both complete
    and agree, for every node, on label, secret, encryption_key,
    private_key, signing key and the message of the certificate, and on the
    cold-storage public key.  The edge nonces and ciphertexts and the
    signature bytes come from [secrets.token_bytes] and from the signer's
    entropy: the runs are only guaranteed to agree on them when they draw
    the same entropy, in which case they agree on everything. *)
Theorem C4_keygen_deterministic_up_to_entropy t stA stB seed fuel :
  heap stA = heap stB →
  fresh_hierarchy (heap stA) t →
  (length (locs t) ≤ fuel)%nat →
  length seed = 64%nat →
  (∀ s, s ∈ subtrees t → NoDup (child_ids (heap stA) (root_of s))) →
  ∃ stA' stB',
    Arcula.keygen (root_of t) prf_f enc_f curve randrange_from_seed__trytryagain
      SigningKey_sign fuel seed stA = (Ok tt, stA') ∧
    Arcula.keygen (root_of t) prf_f enc_f curve randrange_from_seed__trytryagain
      SigningKey_sign fuel seed stB = (Ok tt, stB') ∧
    cold_storage_public_key stA' = cold_storage_public_key stB' ∧
    (∀ v, v ∈ locs t →
       ∃ nA nB,
         heap stA' !! v = Some nA ∧ heap stB' !! v = Some nB ∧
         _label nA = _label nB ∧ _secret nA = _secret nB ∧
         _encryption_key nA = _encryption_key nB ∧ _key nA = _key nB ∧
         _signing_key nA = _signing_key nB ∧
         snd <$> certificate nA = snd <$> certificate nB ∧
         length (encrypted_edges nA) = length (encrypted_edges nB)) ∧
    (entropy stA = entropy stB →
     cold_storage_public_key stA = cold_storage_public_key stB →
     stA' = stB').
Proof.
  intros Hheap HfreshA Hfuel Hseed HallA.
  assert (HfreshB : fresh_hierarchy (heap stB) t) by (by rewrite <- Hheap).
  assert (HallB : ∀ s, s ∈ subtrees t → NoDup (child_ids (heap stB) (root_of s)))
    by (by rewrite <- Hheap).
  destruct (arcula_keygen_fresh_tree prf_f enc_f curve randrange_from_seed__trytryagain
              SigningKey_sign enc_f_total prf_f_length randrange_range point_range
              t stA seed fuel HfreshA Hfuel Hseed)
    as (st1A & coldA & rA & stA' & Hrun1A & HcoldA & HrunA & HpkA & HidsA & _ & HA & _).
  destruct (arcula_keygen_fresh_tree prf_f enc_f curve randrange_from_seed__trytryagain
              SigningKey_sign enc_f_total prf_f_length randrange_range point_range
              t stB seed fuel HfreshB Hfuel Hseed)
    as (st1B & coldB & rB & stB' & Hrun1B & HcoldB & HrunB & HpkB & HidsB & _ & HB & _).
  destruct (HA HallA) as (-> & HcertsA). destruct (HB HallB) as (-> & HcertsB).
  assert (coldB = coldA) as -> by congruence.
  exists stA', stB'. split; [done|]. split; [done|]. split; [congruence|]. split.
  2:{ intros He Hc. assert (stA = stB) as ->; [|congruence].
      destruct stA, stB. simpl in *. congruence. }
  destruct (keygen_fresh_tree prf_f enc_f enc_f_total t stA (firstn 32 seed) fuel HfreshA Hfuel)
    as (st1A' & Hrun1A' & _ & _ & (rnA & HrnA & HrmA) & HpostA).
  rewrite Hrun1A in Hrun1A'. injection Hrun1A' as <-.
  destruct (keygen_fresh_tree prf_f enc_f enc_f_total t stB (firstn 32 seed) fuel HfreshB Hfuel)
    as (st1B' & Hrun1B' & _ & _ & (rnB & HrnB & HrmB) & HpostB).
  rewrite Hrun1B in Hrun1B'. injection Hrun1B' as <-.
  assert (Hids : same_ids (heap st1A) (heap st1B)).
  { intros l. by rewrite HidsB, HidsA, Hheap. }
  destruct HfreshA as [_ HfreshA]. destruct HfreshB as [_ HfreshB].
  assert (Hmat : ∀ s, s ∈ subtrees t →
            ∃ nA nB, heap st1A !! root_of s = Some nA ∧ heap st1B !! root_of s = Some nB ∧
                     same_material nA nB).
  { eapply (material_determined prf_f enc_f enc_f _ _ Hids t); eauto.
    - intros s Hs. destruct (HfreshA s Hs) as (n & Hn & _).
      by destruct (HpostA s n Hs Hn) as (_ & _ & _ & _ & ?).
    - intros s Hs. destruct (HfreshB s Hs) as (n & Hn & _).
      by destruct (HpostB s n Hs Hn) as (_ & _ & _ & _ & ?).
    - intros s nA Hs HnA. destruct (HfreshA s Hs) as (n & Hn & He & _).
      destruct (HpostA s n Hs Hn) as (n' & Hn' & (_ & _ & Hed & _) & _). congruence. }
  intros v Hv. rewrite locs_subtrees in Hv. apply list_elem_of_fmap in Hv as (s & -> & Hs).
  destruct (Hmat s Hs) as (n1A & n1B & Hn1A & Hn1B & (Hl & Hsec & Hek & Hkey)).
  destruct (HcertsA s Hs) as (n1A' & nA & Hn1A' & HnA & (kA & skA & pkbA & eA & HkA & HskA & HpA & ->)).
  destruct (HcertsB s Hs) as (n1B' & nB & Hn1B' & HnB & (kB & skB & pkbB & eB & HkB & HskB & HpB & ->)).
  rewrite Hn1A in Hn1A'. injection Hn1A' as <-.
  rewrite Hn1B in Hn1B'. injection Hn1B' as <-.
  assert (kB = kA) as -> by congruence.
  assert (skB = skA) as -> by congruence.
  assert (pkbB = pkbA) as -> by congruence.
  assert (Hid : id n1A = id n1B ∧ edges n1A = edges n1B).
  { specialize (Hids (root_of s)). rewrite Hn1A, Hn1B in Hids. simpl in Hids.
    split; congruence. }
  destruct Hid as [Hid Hed].
  eexists _, _. split; [exact HnA|]. split; [exact HnB|].
  cbn [set_certificate set_signing_key _label _secret _encryption_key _key
       _signing_key certificate encrypted_edges fmap option_fmap option_map snd].
  split; [done|]. split; [done|]. split; [done|]. split; [done|]. split; [done|].
  split; [by rewrite Hid|].
  destruct (HfreshA s Hs) as (n0A & Hn0A & _). destruct (HfreshB s Hs) as (n0B & Hn0B & _).
  destruct (HpostA s n0A Hs Hn0A) as (? & _ & _ & _ & (uA & ? & HuA & _ & HfA)).
  destruct (HpostB s n0B Hs Hn0B) as (? & _ & _ & _ & (uB & ? & HuB & _ & HfB)).
  rewrite Hn1A in HuA. injection HuA as <-. rewrite Hn1B in HuB. injection HuB as <-.
  rewrite <- (Forall2_length _ _ _ HfA), <- (Forall2_length _ _ _ HfB). by rewrite Hed.
Qed.


(** A signature made with a key verifies under its public key. *)
Hypothesis sign_verify : ∀ sk m e,
  VerifyingKey_verify (ecdsa.get_verifying_key sk) (SigningKey_sign sk m e).1 m = true.

(** C6: after [Arcula.keygen] on a tree-shaped hierarchy with pairwise
    distinct sibling ids, every node holds the signing key derived from its
    private key and a certificate (signature, (compressed public key,
    be64(id))); the compressed public key is one parity byte (0x02 for even
    y, 0x03 for odd y) followed by the 32-byte big-endian x-coordinate, 33
    bytes in all; and the signature verifies under the cold-storage public
    key over compressed public key ‖ be64(id). *)
Theorem C6_certificates_verify t st seed fuel :
  fresh_hierarchy (heap st) t →
  (length (locs t) ≤ fuel)%nat →
  length seed = 64%nat →
  (∀ s, s ∈ subtrees t → NoDup (child_ids (heap st) (root_of s))) →
  ∃ st' cold_pk,
    Arcula.keygen (root_of t) prf_f enc_f curve randrange_from_seed__trytryagain
      SigningKey_sign fuel seed st = (Ok tt, st') ∧
    cold_storage_public_key st' = Some cold_pk ∧
    ∀ v, v ∈ locs t →
      ∃ vn key sk signature pkb,
        heap st' !! v = Some vn ∧
        _key vn = Some key ∧
        crypto.ecdsa_keygen randrange_from_seed__trytryagain key curve = Ok sk ∧
        _signing_key vn = Some sk ∧
        certificate vn = Some (signature, (pkb, to_bytes_big 8 (id vn))) ∧
        pkb = (if ecdsa.y (ecdsa.get_verifying_key sk) mod 2 =? 0
               then Byte.x02 else Byte.x03)
              :: to_bytes_big 32 (ecdsa.x (ecdsa.get_verifying_key sk)) ∧
        length pkb = 33%nat ∧
        VerifyingKey_verify cold_pk signature (pkb ++ to_bytes_big 8 (id vn)) = true.
Proof.
  intros Hfresh Hfuel Hseed Hall.
  destruct (arcula_keygen_fresh_tree prf_f enc_f curve randrange_from_seed__trytryagain
              SigningKey_sign enc_f_total prf_f_length randrange_range point_range
              t st seed fuel Hfresh Hfuel Hseed)
    as (st1 & cold & r & st' & _ & _ & Hrun & Hcold & _ & _ & HA & _).
  destruct (HA Hall) as (-> & Hcerts).
  exists st', (ecdsa.get_verifying_key cold). split; [done|]. split; [done|].
  intros v Hv. rewrite locs_subtrees in Hv. apply list_elem_of_fmap in Hv as (s & -> & Hs).
  destruct (Hcerts s Hs) as (n1 & n' & _ & Hn' & (k & sk & pkb & e & Hk & Hsk & Hpkb & ->)).
  destruct (verification_key_to_bytes_33_ok curve randrange_from_seed__trytryagain
              point_range k sk Hsk) as (pkb' & Hpkb' & Hform & Hlen).
  rewrite Hpkb in Hpkb'. injection Hpkb' as <-.
  eexists _, k, sk, _, pkb. split; [exact Hn'|]. split; [exact Hk|].
  split; [done|]. split; [done|]. split; [reflexivity|]. split; [done|].
  split; [done|]. apply sign_verify.
Qed.

End WalletProperties.

(** ** The executable instance meets the assumptions *)

Lemma fresh_hierarchyb_spec h t : fresh_hierarchyb h t = true → fresh_hierarchy h t.
Proof.
  unfold fresh_hierarchyb, fresh_hierarchy.
  intros [Hnd Hall]%andb_prop. split; [by apply bool_decide_eq_true in Hnd|].
  intros s Hs. rewrite forallb_forall in Hall.
  specialize (Hall s (proj1 (list_elem_of_In _ _) Hs)).
  unfold fresh_node_atb in Hall. unfold fresh_node_at.
  destruct (h !! root_of s) as [n|]; [|done]. exists n. split; [done|].
  apply andb_prop in Hall as [Hall Hrest].
  apply andb_prop in Hall as [Hall Hlt]. apply andb_prop in Hall as [Hed Hle].
  apply bool_decide_eq_true in Hed. apply Z.leb_le in Hle. apply Z.ltb_lt in Hlt.
  destruct (encrypted_edges n), (certificate n), (_signing_key n); try done.
Qed.

Module ToyFacts.

Lemma toy_length_hashlib_sha3_512 m : length (Toy.hashlib_sha3_512 m) = 64%nat.
Proof. unfold Toy.hashlib_sha3_512. by rewrite length_rev, length_to_bytes_big. Qed.

Lemma toy_prf_f_length k m : length (Toy.prf_f k m) = 32%nat.
Proof.
  unfold Toy.prf_f, crypto.sha3_512_half_k, crypto.sha3_512_half.
  rewrite length_take, toy_length_hashlib_sha3_512. done.
Qed.

Lemma toy_enc_f_total k x m e :
  ∃ c e', Toy.enc_f (Toy.prf_f k x) m e = (Ok c, e').
Proof.
  unfold Toy.enc_f, crypto.aes_ae. rewrite toy_prf_f_length. simpl. eauto.
Qed.

Lemma toy_bytes_eqb_refl a : Toy.bytes_eqb a a = true.
Proof.
  induction a as [|x a IH]; [done|]. simpl. rewrite IH.
  by rewrite (Byte.byte_dec_lb eq_refl).
Qed.

Lemma toy_length_tag k nonce m : length (Toy.tag k nonce m) = 16%nat.
Proof. unfold Toy.tag. by rewrite length_take, toy_length_hashlib_sha3_512. Qed.

Lemma toy_AESGCM_decrypt_encrypt k nonce m :
  Toy.AESGCM_decrypt k nonce (Toy.AESGCM_encrypt k nonce m) = Some m.
Proof.
  unfold Toy.AESGCM_decrypt, Toy.AESGCM_encrypt.
  rewrite length_app, toy_length_tag.
  replace (length m + 16 - 16)%nat with (length m) by lia.
  rewrite take_app_length, drop_app_length. by rewrite toy_bytes_eqb_refl.
Qed.

Lemma toy_dec_f_enc_f k m e c e' :
  Toy.enc_f k m e = (Ok c, e') → Toy.dec_f k c = Ok m.
Proof.
  unfold Toy.enc_f, Toy.dec_f, crypto.aes_ae, crypto.aes_ad.
  destruct (_ =? _)%nat; [|done]. simpl. intros [= <- _]. simpl.
  by rewrite toy_AESGCM_decrypt_encrypt.
Qed.

Lemma toy_randrange_range seed :
  1 ≤ Toy.randrange_from_seed__trytryagain seed (ecdsa.order Toy.curve)
    < ecdsa.order Toy.curve.
Proof.
  unfold Toy.randrange_from_seed__trytryagain. simpl ecdsa.order.
  change (Z.max 1 (2 ^ 61 - 1 - 1)) with (2 ^ 61 - 2).
  pose proof (Z.mod_pos_bound (Toy.absorb seed) (2 ^ 61 - 2) ltac:(lia)). lia.
Qed.

Lemma toy_point_range d : 0 ≤ ecdsa.x (ecdsa.generator_mul Toy.curve d) < 2 ^ 256.
Proof. simpl. apply Z.mod_pos_bound. lia. Qed.

Lemma toy_sign_verify sk m e :
  Toy.VerifyingKey_verify (ecdsa.get_verifying_key sk) (Toy.SigningKey_sign sk m e).1 m
  = true.
Proof.
  unfold Toy.VerifyingKey_verify, Toy.SigningKey_sign, token_bytes.
  cbv beta iota zeta. cbn [fst].
  set (r := map e (seq 0 32)).
  assert (Hr : length r = 32%nat) by (unfold r; by rewrite length_map, length_seq).
  assert (Hd : ∀ X, drop 32 (r ++ X) = X) by (intros; by apply drop_app_length').
  assert (Ht : ∀ X, take 32 (r ++ X) = r) by (intros; by apply take_app_length').
  rewrite Hd, Ht.
  apply toy_bytes_eqb_refl.
Qed.

Lemma toy_fresh_hardcoded e :
  fresh_hierarchy (heap (Toy.init Toy.hardcoded e)) Toy.hardcoded_shape.
Proof. apply fresh_hierarchyb_spec. by vm_compute. Qed.


Lemma toy_fresh_single e :
  fresh_hierarchy (heap (Toy.init Toy.single e)) Toy.single_shape.
Proof. apply fresh_hierarchyb_spec. by vm_compute. Qed.

End ToyFacts.

(** ** Concrete runs *)

Lemma diamond_run_eq : Toy.dhka_keygen Toy.diamond Toy.zeros Toy.seed32 = Toy.diamond_run.
Proof. vm_compute. reflexivity. Qed.


Lemma hardcoded_run_zeros_eq :
  Toy.arcula_keygen Toy.hardcoded Toy.zeros Toy.seed64 = Toy.hardcoded_run_zeros.
Proof. vm_compute. reflexivity. Qed.

Lemma hardcoded_run_ones_eq :
  Toy.arcula_keygen Toy.hardcoded Toy.ones Toy.seed64 = Toy.hardcoded_run_ones.
Proof. vm_compute. reflexivity. Qed.

Lemma single_run_eq : Toy.dhka_keygen Toy.single Toy.zeros Toy.seed64 = Toy.single_run.
Proof. vm_compute. reflexivity. Qed.

Lemma single_wallet_run_eq :
  Toy.arcula_keygen Toy.single Toy.zeros Toy.seed64 = Toy.single_wallet_run.
Proof. vm_compute. reflexivity. Qed.
(** C2: a hierarchy in which one node object (4) is a child of two parents
    (2 and 3) on the same level.  [DHKA.keygen] completes without raising:
    the visited set only holds nodes already taken off the queue, and 4 is
    still queued when its second parent is processed.  The result looks
    complete (every node has its secret and as many encrypted edges as
    children), the shared child carries the material derived from its last
    parent, and the edge ciphertext stored at its first parent decrypts to
    keys the child no longer has. *)
Theorem C2_diamond_keygen_completes :
  let r := Toy.dhka_keygen Toy.diamond Toy.zeros Toy.seed32 in
  Toy.attr edges (Ok tt, Toy.init Toy.diamond Toy.zeros) 2 = Some [4%positive] ∧
  Toy.attr edges (Ok tt, Toy.init Toy.diamond Toy.zeros) 3 = Some [4%positive] ∧
  r.1 = Ok tt ∧
  map_Forall (fun _ n => is_Some (_secret n) ∧
                         length (encrypted_edges n) = length (edges n)) (heap r.2) ∧
  (∃ s2 s3 ek2 c ek4 key4 m,
     Toy.attr _secret r 2 = Some (Some s2) ∧
     Toy.attr _secret r 3 = Some (Some s3) ∧
     Toy.attr _secret r 4
       = Some (Some (Toy.prf_f s3 (constants.PRF_SECRET_PREFIX ++ to_bytes_big 8 7))) ∧
     Toy.attr _secret r 4
       ≠ Some (Some (Toy.prf_f s2 (constants.PRF_SECRET_PREFIX ++ to_bytes_big 8 7))) ∧
     Toy.attr _encryption_key r 2 = Some (Some ek2) ∧
     Toy.attr encrypted_edges r 2 = Some [c] ∧
     Toy.attr _encryption_key r 4 = Some (Some ek4) ∧
     Toy.attr _key r 4 = Some (Some key4) ∧
     Toy.dec_f (DHKA._edge_encryption_key Toy.prf_f ek2 (to_bytes_big 8 7)) c = Ok m ∧
     m ≠ ek4 ++ key4).
Proof.
  cbv zeta. rewrite diamond_run_eq. fold Toy.diamond_run.
  split; [by vm_compute|]. split; [by vm_compute|]. split; [by vm_compute|].
  split.
  { refine (bool_decide_unpack _ _). by vm_compute. }
  do 7 eexists.
  split; [vm_compute; reflexivity|]. split; [vm_compute; reflexivity|].
  split; [vm_compute; reflexivity|]. split; [vm_compute; congruence|].
  split; [vm_compute; reflexivity|]. split; [vm_compute; reflexivity|].
  split; [vm_compute; reflexivity|]. split; [vm_compute; reflexivity|].
  split; [vm_compute; reflexivity|]. vm_compute. congruence.
Qed.


(** Two runs from the same seed and the same hierarchy that draw different
    entropy: both complete, and neither the encrypted edges nor the
    certificate of the root are the same bytes. *)
Lemma C4_counterexample :
  let rA := Toy.arcula_keygen Toy.hardcoded Toy.zeros Toy.seed64 in
  let rB := Toy.arcula_keygen Toy.hardcoded Toy.ones Toy.seed64 in
  rA.1 = Ok tt ∧ rB.1 = Ok tt ∧
  Toy.attr encrypted_edges rA 1 ≠ Toy.attr encrypted_edges rB 1 ∧
  Toy.attr certificate rA 1 ≠ Toy.attr certificate rB 1.
Proof.
  cbv zeta. rewrite hardcoded_run_zeros_eq, hardcoded_run_ones_eq.
  split; [by vm_compute|]. split; [by vm_compute|].
  split; vm_compute; congruence.
Qed.

(** [test_root] of the DHKA tests: a 64-byte seed, and [DHKA.keygen]
    completes. *)
Lemma C9_counterexample :
  length Toy.seed64 ≠ 32%nat ∧
  (Toy.dhka_keygen Toy.single Toy.zeros Toy.seed64).1 = Ok tt.
Proof.
  rewrite single_run_eq. split; [by vm_compute|by vm_compute].
Qed.

Lemma C1_witness :
  fresh_hierarchy (heap (Toy.init Toy.hardcoded Toy.zeros)) Toy.hardcoded_shape ∧
  (length (locs Toy.hardcoded_shape) ≤ 10)%nat ∧
  ∃ st',
    DHKA.keygen 1 Toy.prf_f Toy.enc_f 10 Toy.seed32 (Toy.init Toy.hardcoded Toy.zeros)
    = (Ok tt, st') ∧
    ∃ rn, heap st' !! 1%positive = Some rn ∧ has_material Toy.prf_f rn Toy.seed32.
Proof.
  split; [apply ToyFacts.toy_fresh_hardcoded|]. split; [simpl; lia|].
  destruct (C1_keygen_derivation_rules Toy.prf_f Toy.enc_f ToyFacts.toy_enc_f_total
              Toy.hardcoded_shape (Toy.init Toy.hardcoded Toy.zeros) Toy.seed32 10
              (ToyFacts.toy_fresh_hardcoded _) ltac:(simpl; lia))
    as (st' & Hrun & _ & Hroot & _).
  exists st'. split; [exact Hrun|exact Hroot].
Defined.

Lemma C5_witness :
  fresh_hierarchy (heap (Toy.init Toy.hardcoded Toy.zeros)) Toy.hardcoded_shape ∧
  (length (locs Toy.hardcoded_shape) ≤ 10)%nat ∧
  ∃ st' pn p_ek,
    DHKA.keygen 1 Toy.prf_f Toy.enc_f 10 Toy.seed32 (Toy.init Toy.hardcoded Toy.zeros)
    = (Ok tt, st') ∧
    heap st' !! 1%positive = Some pn ∧ edges pn = [2; 3]%positive ∧
    _encryption_key pn = Some p_ek ∧
    Forall2 (fun v c =>
               ∃ vn v_ek v_key,
                 heap st' !! v = Some vn ∧
                 _encryption_key vn = Some v_ek ∧ _key vn = Some v_key ∧
                 Toy.dec_f (Toy.prf_f p_ek (Byte.x02 :: to_bytes_big 8 (id vn))) c
                 = Ok (v_ek ++ v_key))
            (edges pn) (encrypted_edges pn).
Proof.
  split; [apply ToyFacts.toy_fresh_hardcoded|]. split; [simpl; lia|].
  destruct (C5_edge_round_trip Toy.prf_f Toy.enc_f Toy.dec_f ToyFacts.toy_enc_f_total
              ToyFacts.toy_dec_f_enc_f
              Toy.hardcoded_shape (Toy.init Toy.hardcoded Toy.zeros) Toy.seed32 10
              (ToyFacts.toy_fresh_hardcoded _) ltac:(simpl; lia))
    as (st' & Hrun & Hall).
  destruct (Hall 1%positive [T 2 []; T 3 [T 4 []]] (subtrees_self Toy.hardcoded_shape))
    as (pn & p_ek & Hpn & Hedges & Hek & Hdec).
  exists st', pn, p_ek. split; [exact Hrun|]. split; [exact Hpn|].
  split; [exact Hedges|]. split; [exact Hek|exact Hdec].
Defined.

Lemma C8_witness :
  fresh_hierarchy (heap (Toy.init Toy.hardcoded Toy.zeros)) Toy.hardcoded_shape ∧
  (length (locs Toy.hardcoded_shape) ≤ 10)%nat ∧
  ∃ st',
    DHKA.keygen 1 Toy.prf_f Toy.enc_f 10 Toy.seed32 (Toy.init Toy.hardcoded Toy.zeros)
    = (Ok tt, st') ∧
    ∃ un, heap st' !! 1%positive = Some un ∧ length (encrypted_edges un) = 2%nat.
Proof.
  split; [apply ToyFacts.toy_fresh_hardcoded|]. split; [simpl; lia|].
  destruct (C8_encrypted_edges_aligned Toy.prf_f Toy.enc_f ToyFacts.toy_enc_f_total
              Toy.hardcoded_shape (Toy.init Toy.hardcoded Toy.zeros) Toy.seed32 10
              (ToyFacts.toy_fresh_hardcoded _) ltac:(simpl; lia))
    as (st' & Hrun & Hall).
  exists st'. split; [exact Hrun|].
  destruct (Hall 1%positive ltac:(by left)) as (un0 & un & Hun0 & Hun & Hed & Hlen & _).
  exists un. split; [exact Hun|]. rewrite Hlen, Hed.
  vm_compute in Hun0. by injection Hun0 as <-.
Defined.

Lemma C9_witness :
  length Toy.seed64 ≠ 32%nat ∧
  fresh_hierarchy (heap (Toy.init Toy.single Toy.zeros)) Toy.single_shape ∧
  (length (locs Toy.single_shape) ≤ 10)%nat ∧
  ∃ st' rn,
    DHKA.keygen 1 Toy.prf_f Toy.enc_f 10 Toy.seed64 (Toy.init Toy.single Toy.zeros)
    = (Ok tt, st') ∧
    heap st' !! 1%positive = Some rn ∧
    _secret rn = Some (Toy.prf_f Toy.seed64
                         (constants.PRF_SECRET_PREFIX ++ to_bytes_big 8 (id rn))).
Proof.
  split; [by vm_compute|]. split; [apply ToyFacts.toy_fresh_single|]. split; [simpl; lia|].
  apply (C9_keygen_accepts_any_seed_length Toy.prf_f Toy.enc_f ToyFacts.toy_enc_f_total
           Toy.single_shape (Toy.init Toy.single Toy.zeros) Toy.seed64 10).
  - by vm_compute.
  - apply ToyFacts.toy_fresh_single.
  - simpl; lia.
Defined.


Lemma distinct_sibling_ids_hardcoded e s :
  s ∈ subtrees Toy.hardcoded_shape →
  NoDup (child_ids (heap (Toy.init Toy.hardcoded e)) (root_of s)).
Proof.
  revert s. apply Forall_forall.
  refine (bool_decide_unpack _ _). by vm_compute.
Qed.



Lemma C4_witness :
  heap (Toy.init Toy.hardcoded Toy.zeros) = heap (Toy.init Toy.hardcoded Toy.ones) ∧
  fresh_hierarchy (heap (Toy.init Toy.hardcoded Toy.zeros)) Toy.hardcoded_shape ∧
  (length (locs Toy.hardcoded_shape) ≤ 10)%nat ∧
  length Toy.seed64 = 64%nat ∧
  ∃ stA' stB',
    Arcula.keygen 1 Toy.prf_f Toy.enc_f Toy.curve Toy.randrange_from_seed__trytryagain
      Toy.SigningKey_sign 10 Toy.seed64 (Toy.init Toy.hardcoded Toy.zeros) = (Ok tt, stA') ∧
    Arcula.keygen 1 Toy.prf_f Toy.enc_f Toy.curve Toy.randrange_from_seed__trytryagain
      Toy.SigningKey_sign 10 Toy.seed64 (Toy.init Toy.hardcoded Toy.ones) = (Ok tt, stB') ∧
    cold_storage_public_key stA' = cold_storage_public_key stB'.
Proof.
  split; [reflexivity|]. split; [apply ToyFacts.toy_fresh_hardcoded|].
  split; [simpl; lia|]. split; [reflexivity|].
  destruct (C4_keygen_deterministic_up_to_entropy
              Toy.prf_f Toy.enc_f Toy.curve Toy.randrange_from_seed__trytryagain
              Toy.SigningKey_sign ToyFacts.toy_enc_f_total ToyFacts.toy_prf_f_length
              ToyFacts.toy_randrange_range ToyFacts.toy_point_range
              Toy.hardcoded_shape (Toy.init Toy.hardcoded Toy.zeros)
              (Toy.init Toy.hardcoded Toy.ones) Toy.seed64 10
              eq_refl (ToyFacts.toy_fresh_hardcoded _) ltac:(simpl; lia) eq_refl
              (distinct_sibling_ids_hardcoded _))
    as (stA' & stB' & HrunA & HrunB & Hcold & _).
  exists stA', stB'. split; [exact HrunA|]. split; [exact HrunB|exact Hcold].
Defined.

Lemma C6_witness :
  fresh_hierarchy (heap (Toy.init Toy.hardcoded Toy.zeros)) Toy.hardcoded_shape ∧
  (length (locs Toy.hardcoded_shape) ≤ 10)%nat ∧
  length Toy.seed64 = 64%nat ∧
  (∀ s, s ∈ subtrees Toy.hardcoded_shape →
        NoDup (child_ids (heap (Toy.init Toy.hardcoded Toy.zeros)) (root_of s))) ∧
  ∃ st' cold_pk,
    Arcula.keygen 1 Toy.prf_f Toy.enc_f Toy.curve Toy.randrange_from_seed__trytryagain
      Toy.SigningKey_sign 10 Toy.seed64 (Toy.init Toy.hardcoded Toy.zeros) = (Ok tt, st') ∧
    cold_storage_public_key st' = Some cold_pk.
Proof.
  split; [apply ToyFacts.toy_fresh_hardcoded|]. split; [simpl; lia|]. split; [reflexivity|].
  split; [apply distinct_sibling_ids_hardcoded|].
  destruct (C6_certificates_verify
              Toy.prf_f Toy.enc_f Toy.curve Toy.randrange_from_seed__trytryagain
              Toy.SigningKey_sign Toy.VerifyingKey_verify
              ToyFacts.toy_enc_f_total ToyFacts.toy_prf_f_length
              ToyFacts.toy_randrange_range ToyFacts.toy_point_range ToyFacts.toy_sign_verify
              Toy.hardcoded_shape (Toy.init Toy.hardcoded Toy.zeros) Toy.seed64 10
              (ToyFacts.toy_fresh_hardcoded _) ltac:(simpl; lia) eq_refl
              (distinct_sibling_ids_hardcoded _))
    as (st' & cold_pk & Hrun & Hcold & _).
  exists st', cold_pk. split; [exact Hrun|exact Hcold].
Defined.

Lemma C7_witness :
  length Toy.seed32 ≠ 64%nat ∧
  Toy.arcula_keygen Toy.single Toy.zeros Toy.seed32
  = (Raise (AssertionError SeedLength), Toy.init Toy.single Toy.zeros) ∧
  Toy.arcula_keygen Toy.single Toy.zeros Toy.seed64 = (Ok tt, Toy.single_wallet_run.2) ∧
  (∃ cold,
    crypto.ecdsa_keygen Toy.randrange_from_seed__trytryagain (skipn 32 Toy.seed64) Toy.curve
    = Ok cold ∧
    cold_storage_public_key Toy.single_wallet_run.2 = Some (ecdsa.get_verifying_key cold)) ∧
  fresh_hierarchy (heap (Toy.init Toy.single Toy.zeros)) Toy.single_shape ∧
  (∀ s, s ∈ subtrees Toy.single_shape →
        NoDup (child_ids (heap (Toy.init Toy.single Toy.zeros)) (root_of s))) ∧
  length Toy.seed64 = 64%nat ∧
  ∃ st' rn,
    Toy.arcula_keygen Toy.single Toy.zeros Toy.seed64 = (Ok tt, st') ∧
    heap st' !! 1%positive = Some rn ∧
    has_material Toy.prf_f rn (firstn 32 Toy.seed64).
Proof.
  assert (Hlen : length Toy.seed32 ≠ 64%nat) by (by vm_compute).
  assert (Hrun : Toy.arcula_keygen Toy.single Toy.zeros Toy.seed64
                 = (Ok tt, Toy.single_wallet_run.2)).
  { rewrite single_wallet_run_eq. by vm_compute. }
  assert (Hsiblings : ∀ s, s ∈ subtrees Toy.single_shape →
            NoDup (child_ids (heap (Toy.init Toy.single Toy.zeros)) (root_of s))).
  { intros s Hs. apply list_elem_of_singleton in Hs. subst s.
    change (NoDup (@nil Z)). constructor. }
  split; [exact Hlen|].
  split.
  { exact (proj1 (C7_seed_split Toy.prf_f Toy.enc_f Toy.curve
                    Toy.randrange_from_seed__trytryagain Toy.SigningKey_sign
                    ToyFacts.toy_enc_f_total ToyFacts.toy_prf_f_length
                    ToyFacts.toy_randrange_range ToyFacts.toy_point_range
                    1%positive 10 Toy.seed32 (Toy.init Toy.single Toy.zeros)) Hlen). }
  split; [exact Hrun|].
  split.
  { destruct (proj1 (proj2 (C7_seed_split Toy.prf_f Toy.enc_f Toy.curve
                       Toy.randrange_from_seed__trytryagain Toy.SigningKey_sign
                       ToyFacts.toy_enc_f_total ToyFacts.toy_prf_f_length
                       ToyFacts.toy_randrange_range ToyFacts.toy_point_range
                       1%positive 10 Toy.seed64 (Toy.init Toy.single Toy.zeros)))
                _ Hrun) as (_ & st1 & cold & _ & Hcold & _ & Hpk).
    exists cold. split; [exact Hcold|exact Hpk]. }
  split; [apply ToyFacts.toy_fresh_single|].
  split; [exact Hsiblings|].
  split; [reflexivity|].
  destruct (proj2 (proj2 (C7_seed_split Toy.prf_f Toy.enc_f Toy.curve
                     Toy.randrange_from_seed__trytryagain Toy.SigningKey_sign
                     ToyFacts.toy_enc_f_total ToyFacts.toy_prf_f_length
                     ToyFacts.toy_randrange_range ToyFacts.toy_point_range
                     1%positive 10 Toy.seed64 (Toy.init Toy.single Toy.zeros)))
              Toy.single_shape eq_refl (ToyFacts.toy_fresh_single _)
              ltac:(simpl; lia) Hsiblings eq_refl)
    as (st' & cold & rn & Hrun' & _ & _ & _ & Hrn & Hmat).
  exists st', rn. split; [exact Hrun'|]. split; [exact Hrn|exact Hmat].
Defined.

(** * Further properties *)

(** ** Byte encodings *)

Lemma Z_of_byte_range b : 0 ≤ Z_of_byte b < 256.
Proof.
  unfold Z_of_byte. pose proof (Byte.to_N_bounded b) as H. lia.
Qed.

Lemma Z_of_byte_of_Z z : Z_of_byte (byte_of_Z z) = z mod 256.
Proof.
  unfold byte_of_Z, Z_of_byte.
  pose proof (Z.mod_pos_bound z 256 ltac:(lia)) as Hz.
  destruct (Byte.of_N (Z.to_N (z mod 256))) as [b|] eqn:Hb.
  - apply Byte.to_of_N in Hb. rewrite Hb. lia.
  - apply Byte.of_N_None_iff in Hb. lia.
Qed.

Lemma byte_of_Z_of_byte b : byte_of_Z (Z_of_byte b) = b.
Proof.
  unfold byte_of_Z. pose proof (Z_of_byte_range b) as Hb.
  rewrite Z.mod_small by done. unfold Z_of_byte. rewrite N2Z.id.
  by rewrite Byte.of_to_N.
Qed.

Lemma to_bytes_big_S n k :
  to_bytes_big (S n) k = to_bytes_big n (k / 256) ++ [byte_of_Z k].
Proof. reflexivity. Qed.

Lemma from_bytes_big_snoc b x :
  from_bytes_big (b ++ [x]) = from_bytes_big b * 256 + Z_of_byte x.
Proof. unfold from_bytes_big. by rewrite fold_left_app. Qed.

Lemma from_bytes_big_range b : 0 ≤ from_bytes_big b < 256 ^ Z.of_nat (length b).
Proof.
  induction b as [|x b IH] using rev_ind; [by vm_compute|].
  rewrite from_bytes_big_snoc, length_app, Nat2Z.inj_add. simpl length.
  rewrite Z.pow_add_r by lia. pose proof (Z_of_byte_range x).
  change (256 ^ Z.of_nat 1) with 256. nia.
Qed.

(** Decoding undoes encoding, up to the truncation to [n] bytes. *)
Lemma from_to_bytes_big n k : from_bytes_big (to_bytes_big n k) = k mod 256 ^ Z.of_nat n.
Proof.
  revert k. induction n as [|n IH]; intros k.
  - change (to_bytes_big 0 k) with (@nil Byte.byte). by rewrite Z.mod_1_r.
  - rewrite to_bytes_big_S, from_bytes_big_snoc, IH, Z_of_byte_of_Z.
    rewrite Nat2Z.inj_succ, Z.pow_succ_r by lia.
    rewrite (Z.rem_mul_r k 256 (256 ^ Z.of_nat n)) by lia. lia.
Qed.

Lemma to_from_bytes_big b : to_bytes_big (length b) (from_bytes_big b) = b.
Proof.
  induction b as [|x b IH] using rev_ind; [done|].
  rewrite length_app. simpl length. rewrite Nat.add_1_r, to_bytes_big_S.
  rewrite from_bytes_big_snoc. pose proof (Z_of_byte_range x) as Hx.
  replace ((from_bytes_big b * 256 + Z_of_byte x) / 256) with (from_bytes_big b).
  2:{ rewrite Z.div_add_l by lia. rewrite Z.div_small by done. lia. }
  rewrite IH. f_equal. f_equal.
  unfold byte_of_Z. rewrite Z.add_comm, Z.mod_add by lia.
  fold (byte_of_Z (Z_of_byte x)). apply byte_of_Z_of_byte.
Qed.

Lemma bytes_8_to_int_to_bytes_big k :
  0 ≤ k < 2 ^ 64 → encode.bytes_8_to_int (to_bytes_big 8 k) = Ok k.
Proof.
  intros Hk. unfold encode.bytes_8_to_int. rewrite length_to_bytes_big, Nat.eqb_refl.
  rewrite from_to_bytes_big. f_equal. apply Z.mod_small.
  by change (256 ^ Z.of_nat 8) with (2 ^ 64).
Qed.

Lemma bytes_32_to_int_to_bytes_big k :
  0 ≤ k < 2 ^ 256 → encode.bytes_32_to_int (to_bytes_big 32 k) = Ok k.
Proof.
  intros Hk. unfold encode.bytes_32_to_int. rewrite length_to_bytes_big, Nat.eqb_refl.
  rewrite from_to_bytes_big. f_equal. apply Z.mod_small.
  by change (256 ^ Z.of_nat 32) with (2 ^ 256).
Qed.

Lemma int_to_bytes_8_inv k b :
  encode.int_to_bytes_8 k = Ok b → 0 ≤ k < 2 ^ 64 ∧ b = to_bytes_big 8 k.
Proof.
  unfold encode.int_to_bytes_8.
  destruct ((0 <=? k) && (k <? 2 ^ 64)) eqn:Hb; [|done].
  apply andb_prop in Hb as [H0 H1]. apply Z.leb_le in H0. apply Z.ltb_lt in H1.
  intros Heq. split; [lia|].
  by apply (f_equal (fun r => match r with Ok b => b | Raise _ => [] end)) in Heq.
Qed.

Lemma int_to_bytes_32_inv k b :
  encode.int_to_bytes_32 k = Ok b → 0 ≤ k < 2 ^ 256 ∧ b = to_bytes_big 32 k.
Proof.
  unfold encode.int_to_bytes_32.
  destruct ((0 <=? k) && (k <? 2 ^ 256)) eqn:Hb; [|done].
  apply andb_prop in Hb as [H0 H1]. apply Z.leb_le in H0. apply Z.ltb_lt in H1.
  intros Heq. split; [lia|].
  by apply (f_equal (fun r => match r with Ok b => b | Raise _ => [] end)) in Heq.
Qed.

Lemma int_to_bytes_32_raise k :
  ¬ 0 ≤ k < 2 ^ 256 → encode.int_to_bytes_32 k = Raise (AssertionError IntRange32).
Proof.
  intros Hk. unfold encode.int_to_bytes_32.
  destruct ((0 <=? k) && (k <? 2 ^ 256)) eqn:Hb; [|done].
  apply andb_prop in Hb as [H0 H1]. apply Z.leb_le in H0. apply Z.ltb_lt in H1. lia.
Qed.

Lemma to_bytes_big_inj n k k' :
  0 ≤ k < 256 ^ Z.of_nat n → 0 ≤ k' < 256 ^ Z.of_nat n →
  to_bytes_big n k = to_bytes_big n k' → k = k'.
Proof.
  intros Hk Hk' Heq. apply (f_equal from_bytes_big) in Heq.
  rewrite !from_to_bytes_big in Heq. by rewrite !Z.mod_small in Heq.
Qed.

(** X1: [int_to_bytes_8] accepts exactly the integers of [0, 2^64); what it
    returns is 8 bytes long and [bytes_8_to_int] maps it back to the
    integer, so distinct ids have distinct labels. *)
Theorem X1_int_to_bytes_8_round_trip k :
  (0 ≤ k < 2 ^ 64 →
   ∃ b, encode.int_to_bytes_8 k = Ok b ∧ length b = 8%nat ∧
        encode.bytes_8_to_int b = Ok k) ∧
  (¬ 0 ≤ k < 2 ^ 64 → encode.int_to_bytes_8 k = Raise (AssertionError IntRange8)) ∧
  (∀ k', encode.int_to_bytes_8 k = encode.int_to_bytes_8 k' →
         0 ≤ k < 2 ^ 64 → k = k').
Proof.
  split; [|split].
  - intros Hk. exists (to_bytes_big 8 k). rewrite int_to_bytes_8_ok by done.
    split; [done|]. split; [apply length_to_bytes_big|by apply bytes_8_to_int_to_bytes_big].
  - intros Hk. unfold encode.int_to_bytes_8.
    destruct ((0 <=? k) && (k <? 2 ^ 64)) eqn:Hb; [|done].
    apply andb_prop in Hb as [H0 H1]. apply Z.leb_le in H0. apply Z.ltb_lt in H1. lia.
  - intros k' Heq Hk. rewrite int_to_bytes_8_ok in Heq by done. symmetry in Heq.
    apply int_to_bytes_8_inv in Heq as [Hk' Heq].
    by apply (to_bytes_big_inj 8).
Qed.

(** X2: [bytes_8_to_int] accepts exactly the byte strings of length 8; the
    integer it returns lies in [0, 2^64) and [int_to_bytes_8] maps it back
    to the same bytes. *)
Theorem X2_bytes_8_to_int_round_trip b :
  (length b = 8%nat →
   ∃ k, encode.bytes_8_to_int b = Ok k ∧ 0 ≤ k < 2 ^ 64 ∧
        encode.int_to_bytes_8 k = Ok b) ∧
  (length b ≠ 8%nat → encode.bytes_8_to_int b = Raise (AssertionError Bytes8Length)).
Proof.
  split.
  - intros Hb. exists (from_bytes_big b). unfold encode.bytes_8_to_int.
    rewrite Hb, Nat.eqb_refl. split; [done|].
    pose proof (from_bytes_big_range b) as Hr. rewrite Hb in Hr.
    change (256 ^ Z.of_nat 8) with (2 ^ 64) in Hr. split; [done|].
    rewrite int_to_bytes_8_ok by done. f_equal. rewrite <- Hb at 1.
    apply to_from_bytes_big.
  - intros Hb. unfold encode.bytes_8_to_int. apply Nat.eqb_neq in Hb. by rewrite Hb.
Qed.

(** X3: the same for 32 bytes: [int_to_bytes_32] accepts exactly [0, 2^256),
    returns 32 bytes, and [bytes_32_to_int] inverts it. *)
Theorem X3_int_to_bytes_32_round_trip k :
  (0 ≤ k < 2 ^ 256 →
   ∃ b, encode.int_to_bytes_32 k = Ok b ∧ length b = 32%nat ∧
        encode.bytes_32_to_int b = Ok k) ∧
  (¬ 0 ≤ k < 2 ^ 256 → encode.int_to_bytes_32 k = Raise (AssertionError IntRange32)).
Proof.
  split; [|apply int_to_bytes_32_raise].
  intros Hk. exists (to_bytes_big 32 k). rewrite int_to_bytes_32_ok by done.
  split; [done|]. split; [apply length_to_bytes_big|by apply bytes_32_to_int_to_bytes_big].
Qed.

(** X4: [bytes_32_to_int] accepts exactly the byte strings of length 32; the
    integer lies in [0, 2^256) and [int_to_bytes_32] maps it back. *)
Theorem X4_bytes_32_to_int_round_trip b :
  (length b = 32%nat →
   ∃ k, encode.bytes_32_to_int b = Ok k ∧ 0 ≤ k < 2 ^ 256 ∧
        encode.int_to_bytes_32 k = Ok b) ∧
  (length b ≠ 32%nat → encode.bytes_32_to_int b = Raise (AssertionError Bytes32Length)).
Proof.
  split.
  - intros Hb. exists (from_bytes_big b). unfold encode.bytes_32_to_int.
    rewrite Hb, Nat.eqb_refl. split; [done|].
    pose proof (from_bytes_big_range b) as Hr. rewrite Hb in Hr.
    change (256 ^ Z.of_nat 32) with (2 ^ 256) in Hr. split; [done|].
    rewrite int_to_bytes_32_ok by done. f_equal. rewrite <- Hb at 1.
    apply to_from_bytes_big.
  - intros Hb. unfold encode.bytes_32_to_int. apply Nat.eqb_neq in Hb. by rewrite Hb.
Qed.

(** X5: [verification_key_to_bytes_33] needs the x-coordinate in [0, 2^256)
    and fails with [int_to_bytes_32]'s assertion otherwise.  Its result is 33
    bytes: 0x02 when y is even and 0x03 when y is odd, followed by bytes
    that [bytes_32_to_int] decodes to x. *)
Theorem X5_verification_key_to_bytes_33 pk :
  (0 ≤ ecdsa.x pk < 2 ^ 256 →
   ∃ parity xs,
     encode.verification_key_to_bytes_33 pk = Ok (parity :: xs) ∧
     length (parity :: xs) = 33%nat ∧
     parity = (if ecdsa.y pk mod 2 =? 0 then Byte.x02 else Byte.x03) ∧
     encode.bytes_32_to_int xs = Ok (ecdsa.x pk)) ∧
  (¬ 0 ≤ ecdsa.x pk < 2 ^ 256 →
   encode.verification_key_to_bytes_33 pk = Raise (AssertionError IntRange32)).
Proof.
  unfold encode.verification_key_to_bytes_33. split.
  - intros Hx. rewrite int_to_bytes_32_ok by done.
    exists (if ecdsa.y pk mod 2 =? 0 then Byte.x02 else Byte.x03), (to_bytes_big 32 (ecdsa.x pk)).
    split; [by destruct (_ =? 0)|].
    split; [cbn [length]; by rewrite length_to_bytes_big|].
    split; [done|]. by apply bytes_32_to_int_to_bytes_big.
  - intros Hx. by rewrite int_to_bytes_32_raise.
Qed.

Section Crypto.

Variable hashlib_sha3_512 : bytes → bytes.
Variable AESGCM_encrypt : bytes → bytes → bytes → bytes.
Variable AESGCM_decrypt : bytes → bytes → bytes → option bytes.

(** SHA3-512 digests are 64 bytes long. *)
Hypothesis length_hashlib_sha3_512 : ∀ m, length (hashlib_sha3_512 m) = 64%nat.

(** X6: [sha3_512_half] is the first 32 bytes of the SHA3-512 digest, and
    the PRF [sha3_512_half_k] hashes key and message concatenated with no
    separator: moving bytes from the end of the key to the front of the
    message does not change its output. *)
Theorem X6_sha3_512_half_k_concatenates k1 k2 m :
  length (crypto.sha3_512_half hashlib_sha3_512 m) = 32%nat ∧
  crypto.sha3_512_half hashlib_sha3_512 m
    ++ skipn 32 (crypto.sha3_512 hashlib_sha3_512 m)
  = crypto.sha3_512 hashlib_sha3_512 m ∧
  crypto.sha3_512_half_k hashlib_sha3_512 (k1 ++ k2) m
  = crypto.sha3_512_half_k hashlib_sha3_512 k1 (k2 ++ m).
Proof.
  unfold crypto.sha3_512_half_k, crypto.sha3_512_half, crypto.sha3_512.
  rewrite !length_hashlib_sha3_512. change (64 / 2)%nat with 32%nat.
  split; [|split].
  - rewrite length_take, length_hashlib_sha3_512. done.
  - apply take_drop.
  - by rewrite <- app_assoc.
Qed.

(** AES-GCM decrypts what it encrypted under the same key and nonce. *)
Hypothesis AESGCM_decrypt_encrypt : ∀ k nonce m,
  length k = 32%nat → length nonce = 12%nat →
  AESGCM_decrypt k nonce (AESGCM_encrypt k nonce m) = Some m.

(** X7: with a 32-byte key, [aes_ae] reads exactly 12 bytes of entropy, returns
    them as the nonce next to the ciphertext, and [aes_ad] under the same key
    gives the message back; with a key of any other length it raises its
    assertion and reads no entropy. *)
Theorem X7_aes_round_trip k m e :
  (length k = 32%nat →
   ∃ nonce cipher e',
     crypto.aes_ae AESGCM_encrypt k m e = (Ok (nonce, cipher), e') ∧
     nonce = map e (seq 0 12) ∧ (∀ i, e' i = e (12 + i)%nat) ∧
     crypto.aes_ad AESGCM_decrypt k (nonce, cipher) = Ok m) ∧
  (length k ≠ 32%nat →
   crypto.aes_ae AESGCM_encrypt k m e = (Raise (AssertionError AesKeyLength), e)).
Proof.
  unfold crypto.aes_ae, crypto.aes_ad. change (256 / 8)%nat with 32%nat. split.
  - intros Hk. rewrite Hk, Nat.eqb_refl. unfold token_bytes. cbv beta iota zeta.
    eexists _, _, _. split; [reflexivity|]. split; [reflexivity|]. split; [done|].
    cbn [fst snd]. rewrite AESGCM_decrypt_encrypt; [done|done|].
    by rewrite length_map, length_seq.
  - intros Hk. apply Nat.eqb_neq in Hk. by rewrite Hk.
Qed.

End Crypto.

(** ** What key generation never writes *)

Lemma same_attributes_refl {B} (f : Node → B) s : same_attributes f s s.
Proof. by intros l. Qed.

Lemma same_attributes_trans {B} (f : Node → B) s1 s2 s3 :
  same_attributes f s1 s2 → same_attributes f s2 s3 → same_attributes f s1 s3.
Proof. intros H1 H2 l. by rewrite H2, H1. Qed.

Lemma keeps_bind (R : State → State → Prop) {A B} (m : M A) (f : A → M B) :
  (∀ s1 s2 s3, R s1 s2 → R s2 s3 → R s1 s3) →
  keeps R m → (∀ a, keeps R (f a)) → keeps R (bind m f).
Proof.
  intros Htrans Hm Hf s r s'. unfold bind. destruct (m s) as [[a|e] s1] eqn:Hms.
  - intros Hfa. eapply Htrans; [by eapply Hm|by eapply Hf].
  - intros [= <- <-]. by eapply Hm.
Qed.

Section Keeps.

Context {B : Type} (f : Node → B).

Lemma keeps_pure {A} (r0 : Result A) : keeps (same_attributes f) (fun s => (r0, s)).
Proof. intros s r s' [= _ <-]. apply same_attributes_refl. Qed.

Lemma keeps_assert b a : keeps (same_attributes f) (assert b a).
Proof. destruct b; apply keeps_pure. Qed.

Lemma keeps_not_None {A} (o : option A) : keeps (same_attributes f) (not_None o).
Proof. destruct o; apply keeps_pure. Qed.

Lemma keeps_get_node l : keeps (same_attributes f) (get_node l).
Proof.
  intros s r s'. unfold get_node.
  destruct (heap s !! l); intros [= _ <-]; apply same_attributes_refl.
Qed.

Lemma keeps_with_entropy {A} (g : Entropy → Result A * Entropy) :
  keeps (same_attributes f) (with_entropy g).
Proof.
  intros s r s'. unfold with_entropy. destruct (g (entropy s)). by intros [= _ <-].
Qed.

Lemma keeps_update_node l (g : Node → Node) :
  (∀ n, f (g n) = f n) → keeps (same_attributes f) (update_node l g).
Proof.
  intros Hg s r s'. unfold update_node. destruct (heap s !! l) as [n|] eqn:Hn.
  - intros [= _ <-] l'. simpl. destruct (decide (l = l')) as [<-|Hne].
    + rewrite lookup_insert_eq, Hn. simpl. by rewrite Hg.
    + by rewrite lookup_insert_ne.
  - intros [= _ <-]. apply same_attributes_refl.
Qed.

End Keeps.

Create HintDb keeps.
#[local] Hint Resolve keeps_pure keeps_assert keeps_not_None keeps_get_node
  keeps_with_entropy keeps_cold_key_pure keeps_cold_key_assert keeps_cold_key_not_None
  keeps_cold_key_get_node keeps_cold_key_update_node keeps_cold_key_with_entropy
  : keeps.

Ltac keeps_steps :=
  repeat first
    [ apply keeps_bind; [apply same_attributes_trans| |intros ?]
    | apply keeps_cold_key_bind; [|intros ?]
    | apply keeps_update_node; intros ?; reflexivity
    | solve [unfold ret, raise, lift; eauto with keeps] ].

Section NeverWritten.

Variable prf_f : bytes → bytes → bytes.
Variable enc_f : bytes → bytes → Entropy → Result (bytes * bytes) * Entropy.
Variable curve : ecdsa.Curve.
Variable randrange_from_seed__trytryagain : bytes → Z → Z.
Variable SigningKey_sign : ecdsa.SigningKey → bytes → Entropy → bytes * Entropy.

Lemma set_material_structure_of n m : structure_of (set_material n m) = structure_of n.
Proof. by destruct m as [[[? ?] ?] ?]. Qed.

Lemma keeps_update_set_material l m :
  keeps (same_attributes structure_of) (update_node l (fun n => set_material n m)).
Proof. apply keeps_update_node. intros ?. apply set_material_structure_of. Qed.

Lemma keeps_structure_keygen_edges vs : ∀ u visited q,
  keeps (same_attributes structure_of) (DHKA.keygen_edges prf_f enc_f u visited vs q).
Proof.
  induction vs as [|v vs IH]; intros u visited q; cbn [DHKA.keygen_edges]; keeps_steps;
    first [apply IH | apply keeps_update_set_material].
Qed.

Lemma keeps_structure_keygen_while fuel : ∀ q visited,
  keeps (same_attributes structure_of) (DHKA.keygen_while prf_f enc_f fuel q visited).
Proof.
  induction fuel as [|fuel IH]; intros [|u q] visited; cbn [DHKA.keygen_while];
    try (unfold ret, raise; apply keeps_pure).
  keeps_steps; first [apply keeps_structure_keygen_edges | apply IH].
Qed.

Lemma keeps_structure_keygen root fuel seed :
  keeps (same_attributes structure_of) (DHKA.keygen root prf_f enc_f fuel seed).
Proof.
  unfold DHKA.keygen.
  keeps_steps; first [apply keeps_update_set_material | apply keeps_structure_keygen_while].
Qed.

Lemma keeps_cold_key_keygen_edges vs : ∀ u visited q,
  keeps_cold_key (DHKA.keygen_edges prf_f enc_f u visited vs q).
Proof.
  induction vs as [|v vs IH]; intros u visited q; cbn [DHKA.keygen_edges]; keeps_steps;
    apply IH.
Qed.

Lemma keeps_cold_key_dhka_keygen_while fuel : ∀ q visited,
  keeps_cold_key (DHKA.keygen_while prf_f enc_f fuel q visited).
Proof.
  induction fuel as [|fuel IH]; intros [|u q] visited; cbn [DHKA.keygen_while];
    try (unfold ret, raise; apply keeps_cold_key_pure).
  keeps_steps; first [apply keeps_cold_key_keygen_edges | apply IH].
Qed.

Lemma keeps_cold_key_dhka_keygen root fuel seed :
  keeps_cold_key (DHKA.keygen root prf_f enc_f fuel seed).
Proof. unfold DHKA.keygen. keeps_steps; apply keeps_cold_key_dhka_keygen_while. Qed.

(** X8: whatever the store looks like (a tree or not) and whether it returns
    or raises, [DHKA.keygen] creates and deletes no object and never changes
    the [id], [tag], [edges], [certificate] or [_signing_key] of any node,
    nor the wallet's [cold_storage_public_key]. *)
Theorem X8_dhka_keygen_never_writes root fuel seed st r st' :
  DHKA.keygen root prf_f enc_f fuel seed st = (r, st') →
  cold_storage_public_key st' = cold_storage_public_key st ∧
  ∀ l, match heap st !! l, heap st' !! l with
       | Some n, Some n' =>
           id n' = id n ∧ tag n' = tag n ∧ edges n' = edges n ∧
           certificate n' = certificate n ∧ _signing_key n' = _signing_key n
       | None, None => True
       | _, _ => False
       end.
Proof.
  intros Hrun. split; [by eapply keeps_cold_key_dhka_keygen|].
  intros l. pose proof (keeps_structure_keygen _ _ _ _ _ _ Hrun l) as Hl.
  destruct (heap st !! l), (heap st' !! l); simpl in Hl; try done.
  unfold structure_of in Hl. by injection Hl as -> -> -> -> ->.
Qed.

Lemma keeps_derivation_edge_ids vs :
  keeps (same_attributes derivation_of) (Arcula.edge_ids vs).
Proof. induction vs as [|v vs IH]; cbn [Arcula.edge_ids]; keeps_steps. Qed.

Lemma keeps_derivation_create_certificate cold pk identifier :
  keeps (same_attributes derivation_of)
        (Arcula._create_certificate SigningKey_sign cold pk identifier).
Proof. unfold Arcula._create_certificate. keeps_steps. Qed.

Lemma keeps_derivation_keygen_while fuel : ∀ cold q visited,
  keeps (same_attributes derivation_of)
        (Arcula.keygen_while curve randrange_from_seed__trytryagain SigningKey_sign
           fuel cold q visited).
Proof.
  induction fuel as [|fuel IH]; intros cold [|u q] visited; cbn [Arcula.keygen_while];
    try (unfold ret, raise; apply keeps_pure).
  keeps_steps;
    auto using keeps_derivation_edge_ids, keeps_derivation_create_certificate.
Qed.

(** X9: on any store, the certificate layer adds to what the derivation
    engine produced and changes none of it: if [DHKA.keygen] on the first 32
    bytes of a 64-byte seed completes with state [st1], then after
    [Arcula.keygen] on the whole seed, whether that returns or raises, every
    node has the [id], [tag], [edges], label, secret, encryption key, private
    key and encrypted edges it has in [st1]. *)
Theorem X9_arcula_keeps_derivation root fuel seed st st1 r st' :
  length seed = 64%nat →
  DHKA.keygen root prf_f enc_f fuel (firstn 32 seed) st = (Ok tt, st1) →
  Arcula.keygen root prf_f enc_f curve randrange_from_seed__trytryagain
    SigningKey_sign fuel seed st = (r, st') →
  ∀ l, match heap st1 !! l, heap st' !! l with
       | Some n, Some n' =>
           id n' = id n ∧ tag n' = tag n ∧ edges n' = edges n ∧
           _label n' = _label n ∧ _secret n' = _secret n ∧
           _encryption_key n' = _encryption_key n ∧ _key n' = _key n ∧
           encrypted_edges n' = encrypted_edges n
       | None, None => True
       | _, _ => False
       end.
Proof.
  intros Hlen Hrun1. unfold Arcula.keygen.
  change (512 / 8)%nat with 64%nat. change (256 / 8)%nat with 32%nat.
  rewrite Hlen, Nat.eqb_refl.
  rewrite (bind_ok _ _ _ _ _ (assert_true _ _)).
  rewrite (bind_ok _ _ _ _ _ Hrun1).
  intros Hrun.
  assert (Hkeep : same_attributes derivation_of st1 st').
  { revert Hrun. unfold Arcula._cold_storage_keys.
    destruct (crypto.ecdsa_keygen _ _ _) as [cold|e0].
    - rewrite (bind_ok _ _ _ _ _ (lift_ok _ _)).
      unfold bind at 1. unfold Arcula.set_cold_storage_public_key.
      intros Hrun. apply (keeps_derivation_keygen_while _ _ _ _ _ _ _ Hrun).
    - rewrite (bind_raise _ _ _ _ _ (eq_refl : lift (Raise e0) st1 = _)).
      intros [= _ <-]. apply same_attributes_refl. }
  intros l. specialize (Hkeep l).
  destruct (heap st1 !! l), (heap st' !! l); simpl in Hkeep; try done.
  unfold derivation_of in Hkeep. by injection Hkeep as -> -> -> -> -> -> -> ->.
Qed.

(** X10: a failure of the derivation engine aborts the wallet set-up as it
    is: [Arcula.keygen] on a 64-byte seed raises the same exception from the
    same state, in which no [cold_storage_public_key] has been published and
    no certificate or signing key has been written. *)
Theorem X10_arcula_propagates_derivation_failure root fuel seed st e st1 :
  length seed = 64%nat →
  DHKA.keygen root prf_f enc_f fuel (firstn 32 seed) st = (Raise e, st1) →
  Arcula.keygen root prf_f enc_f curve randrange_from_seed__trytryagain
    SigningKey_sign fuel seed st = (Raise e, st1) ∧
  cold_storage_public_key st1 = cold_storage_public_key st ∧
  ∀ l n1, heap st1 !! l = Some n1 →
    ∃ n, heap st !! l = Some n ∧
         certificate n1 = certificate n ∧ _signing_key n1 = _signing_key n.
Proof.
  intros Hlen Hrun1. split; [|split].
  - unfold Arcula.keygen.
    change (512 / 8)%nat with 64%nat. change (256 / 8)%nat with 32%nat.
    rewrite Hlen, Nat.eqb_refl.
    rewrite (bind_ok _ _ _ _ _ (assert_true _ _)).
    by rewrite (bind_raise _ _ _ _ _ Hrun1).
  - by eapply keeps_cold_key_dhka_keygen.
  - intros l n1 Hn1.
    pose proof (keeps_structure_keygen _ _ _ _ _ _ Hrun1 l) as Hl. rewrite Hn1 in Hl.
    destruct (heap st !! l) as [n|]; [|done]. exists n. split; [done|].
    simpl in Hl. unfold structure_of in Hl. by injection Hl as _ _ _ -> ->.
Qed.

End NeverWritten.

(** ** Derivation on trees: frame, repetition, subtrees *)

Lemma subtrees_trans t s s' : s ∈ subtrees t → s' ∈ subtrees s → s' ∈ subtrees t.
Proof.
  revert s s'. induction t as [l cs IH] using Tree_forall_ind. intros s s' Hs Hs'.
  cbn [subtrees] in Hs. apply elem_of_cons in Hs as [->|Hs]; [done|].
  apply list_elem_of_bind in Hs as (c & Hs & Hc).
  cbn [subtrees]. right. apply list_elem_of_bind. exists c. split; [|done].
  rewrite Forall_forall in IH. by eapply IH.
Qed.

Lemma sublist_bind_elem {A B} (f : A → list B) (l : list A) x :
  x ∈ l → sublist (f x) (l ≫= f).
Proof.
  induction l as [|y l IH]; [by intros ?%elem_of_nil|].
  rewrite bind_cons. intros [->|Hx]%elem_of_cons.
  - by apply sublist_inserts_r.
  - by apply sublist_inserts_l, IH.
Qed.

Lemma subtree_locs_sublist t s : s ∈ subtrees t → sublist (locs s) (locs t).
Proof.
  revert s. induction t as [l cs IH] using Tree_forall_ind. intros s Hs.
  cbn [subtrees] in Hs. apply elem_of_cons in Hs as [->|Hs]; [done|].
  apply list_elem_of_bind in Hs as (c & Hs & Hc).
  cbn [locs]. apply sublist_cons. rewrite Forall_forall in IH.
  etrans; [by apply IH|]. by apply sublist_bind_elem.
Qed.

Lemma fresh_hierarchy_subtree h t s :
  fresh_hierarchy h t → s ∈ subtrees t → fresh_hierarchy h s.
Proof.
  intros [Hnd Hfresh] Hs. split.
  - eapply sublist_NoDup; [exact Hnd|]. by apply subtree_locs_sublist.
  - intros s' Hs'. apply Hfresh. by eapply subtrees_trans.
Qed.

Section DerivationOnTrees.

Variable prf_f : bytes → bytes → bytes.
Variable enc_f : bytes → bytes → Entropy → Result (bytes * bytes) * Entropy.

Hypothesis enc_f_total :
  ∀ k x m e, ∃ c e', enc_f (prf_f k x) m e = (Ok c, e').

(** X11: on a tree-shaped hierarchy [DHKA.keygen] touches the objects of the
    hierarchy only: every other object of the store is exactly as it was. *)
Theorem X11_keygen_leaves_other_objects t st seed fuel :
  fresh_hierarchy (heap st) t →
  (length (locs t) ≤ fuel)%nat →
  ∃ st',
    DHKA.keygen (root_of t) prf_f enc_f fuel seed st = (Ok tt, st') ∧
    ∀ l, l ∉ locs t → heap st' !! l = heap st !! l.
Proof.
  intros Hfresh Hfuel.
  destruct (keygen_fresh_tree prf_f enc_f enc_f_total t st seed fuel Hfresh Hfuel)
    as (st' & Hrun & _ & Hframe & _).
  by exists st'.
Qed.

(** X12: key generation is not repeatable on the same objects.  After a first
    [DHKA.keygen] on a tree whose root has at least one child, a second
    [DHKA.keygen] on the same hierarchy, with any seed, appends to the
    [encrypted_edges] that are already there and then fails the assertion
    [len(u.encrypted_edges) == len(u.edges)] at the root. *)
Theorem X12_second_keygen_fails r c cs st seed seed' fuel fuel' :
  fresh_hierarchy (heap st) (T r (c :: cs)) →
  (length (locs (T r (c :: cs))) ≤ fuel)%nat →
  ∃ st1 st2,
    DHKA.keygen r prf_f enc_f fuel seed st = (Ok tt, st1) ∧
    DHKA.keygen r prf_f enc_f (S fuel') seed' st1
    = (Raise (AssertionError EdgesLengthMismatch), st2).
Proof.
  intros Hfresh Hfuel. set (t := T r (c :: cs)) in *.
  destruct (keygen_fresh_tree_nodes prf_f enc_f enc_f_total t st seed fuel Hfresh Hfuel)
    as (st1 & Hrun & Hids & _ & Hnodes).
  destruct (Hnodes r (c :: cs) (subtrees_self t))
    as (rn & r_secret & Hrn & _ & _ & Hedges & Hall).
  destruct Hfresh as [Hnd Hfresh].
  assert (Hrange : ∀ s, s ∈ subtrees t →
            ∃ n, heap st1 !! root_of s = Some n ∧ 0 ≤ id n < 2 ^ 64).
  { intros s Hs. destruct (Hfresh s Hs) as (n & Hn & _ & Hr & _).
    specialize (Hids (root_of s)). rewrite Hn in Hids.
    destruct (heap st1 !! root_of s) as [n1|]; [|done].
    injection Hids as Hid _. exists n1. by rewrite Hid. }
  destruct (Hrange t (subtrees_self t)) as (rn' & Hrn' & Hrid).
  change (root_of t) with r in Hrn'. rewrite Hrn in Hrn'. injection Hrn' as <-.
  set (m := material prf_f seed' (id rn)).
  set (st1a := set_heap st1 (<[r := set_material rn m]> (heap st1))).
  assert (Hra : heap st1a !! r = Some (set_material rn m)).
  { unfold st1a. simpl. by rewrite lookup_insert_eq. }
  unfold t in Hnd. cbn [locs] in Hnd. apply NoDup_cons in Hnd as [Hr_fresh Hnd].
  assert (Hvs_in : ∀ v, v ∈ edges rn → v ∈ (c :: cs) ≫= locs ∧ v ≠ r).
  { rewrite Hedges. intros v (s & -> & Hs)%list_elem_of_fmap.
    assert (root_of s ∈ (c :: cs) ≫= locs).
    { rewrite forest_locs_subtrees. by apply list_elem_of_fmap_2, roots_in_forest. }
    split; [done|]. by intros <-. }
  destruct (keygen_edges_spec prf_f enc_f enc_f_total (edges rn) r (∅ ∪ {[r]}) [] st1a
              (set_material rn m) (prf_f seed' (Byte.x03 :: to_bytes_big 8 (id rn)))
              (prf_f (prf_f seed' (Byte.x03 :: to_bytes_big 8 (id rn)))
                     (Byte.x00 :: to_bytes_big 8 (id rn))))
    as (st2 & cts & Hrun2 & _ & Hr2 & _ & _ & Hcts); try done.
  { intros Hr. by destruct (Hvs_in r Hr). }
  { rewrite Hedges. apply NoDup_roots. by rewrite <- forest_locs_subtrees. }
  { intros v Hv. destruct (Hvs_in v Hv). set_solver. }
  { intros v Hv. destruct (Hvs_in v Hv) as [_ Hne].
    rewrite Hedges in Hv. apply list_elem_of_fmap in Hv as (s & -> & Hs).
    destruct (Hrange s) as (n & Hn & Hr).
    { cbn [subtrees]. right. by apply roots_in_forest. }
    exists n. split; [|done]. unfold st1a. simpl. by rewrite lookup_insert_ne. }
  exists st1, st2. split; [done|].
  unfold DHKA.keygen.
  rewrite (bind_ok _ _ _ _ _ (get_node_ok _ _ _ Hrn)).
  rewrite (from_parent_ok prf_f) by done.
  rewrite (bind_ok _ _ _ _ _ (lift_ok _ _)).
  rewrite (bind_ok _ _ _ _ _ (update_node_ok _ _ _ _ Hrn)).
  fold m. fold st1a. cbn [DHKA.keygen_while].
  rewrite (bind_ok _ _ _ _ _ (get_node_ok _ _ _ Hra)).
  change (edges (set_material rn m)) with (edges rn).
  rewrite (bind_ok _ _ _ _ _ Hrun2).
  rewrite (bind_ok _ _ _ _ _ (get_node_ok _ _ _ Hr2)).
  destruct (add_edges_fields (set_material rn m) cts) as ((_ & _ & Hed & _) & _ & Henc).
  rewrite Henc, Hed. change (encrypted_edges (set_material rn m)) with (encrypted_edges rn).
  change (edges (set_material rn m)) with (edges rn).
  assert (Hlen : (length (encrypted_edges rn ++ cts) =? length (edges rn))%nat = false).
  { apply Nat.eqb_neq. rewrite length_app.
    rewrite <- (Forall2_length _ _ _ Hall), <- (Forall2_length _ _ _ Hcts).
    rewrite Hedges. simpl. lia. }
  rewrite Hlen. by rewrite (bind_raise _ _ _ _ _ (assert_false _ _)).
Qed.

(** X13: the material of a subtree depends only on the secret of the node
    above it.  Run [DHKA.keygen] on a tree, take any parent [p] and any child
    [c] of it, and run [DHKA.keygen] again from the same initial store on the
    subtree of [c] alone, with [p]'s secret as the seed: every node of that
    subtree gets the same label, secret, encryption key and private key as in
    the run on the whole tree. *)
Theorem X13_subtree_rederivation t st seed fuel p cs c :
  fresh_hierarchy (heap st) t →
  (length (locs t) ≤ fuel)%nat →
  T p cs ∈ subtrees t → c ∈ cs →
  ∃ stA pn p_secret stB,
    DHKA.keygen (root_of t) prf_f enc_f fuel seed st = (Ok tt, stA) ∧
    heap stA !! p = Some pn ∧ _secret pn = Some p_secret ∧
    DHKA.keygen (root_of c) prf_f enc_f fuel p_secret st = (Ok tt, stB) ∧
    ∀ v, v ∈ locs c →
      ∃ nA nB,
        heap stA !! v = Some nA ∧ heap stB !! v = Some nB ∧
        _label nB = _label nA ∧ _secret nB = _secret nA ∧
        _encryption_key nB = _encryption_key nA ∧ _key nB = _key nA.
Proof.
  intros Hfresh Hfuel Hp Hc.
  assert (Hc_sub : c ∈ subtrees t).
  { eapply children_in_subtrees; [exact Hp|done]. }
  assert (HfreshB : fresh_hierarchy (heap st) c) by (by eapply fresh_hierarchy_subtree).
  assert (HfuelB : (length (locs c) ≤ fuel)%nat).
  { etrans; [|exact Hfuel]. by apply sublist_length, subtree_locs_sublist. }
  destruct (keygen_fresh_tree prf_f enc_f enc_f_total t st seed fuel Hfresh Hfuel)
    as (stA & HrunA & _ & _ & _ & HpostA).
  destruct (keygen_fresh_tree_nodes prf_f enc_f enc_f_total t st seed fuel Hfresh Hfuel)
    as (stA' & HrunA' & HidsA & _ & HnodesA).
  rewrite HrunA in HrunA'. injection HrunA' as <-.
  destruct (HnodesA p cs Hp) as (pn & p_secret & Hpn & Hsec & _ & Hedges & Hall).
  destruct (keygen_fresh_tree prf_f enc_f enc_f_total c st p_secret fuel HfreshB HfuelB)
    as (stB & HrunB & _ & _ & (rnB & HrnB & HrmB) & HpostB).
  destruct (keygen_fresh_tree_nodes prf_f enc_f enc_f_total c st p_secret fuel
              HfreshB HfuelB) as (stB' & HrunB' & HidsB & _ & _).
  rewrite HrunB in HrunB'. injection HrunB' as <-.
  exists stA, pn, p_secret, stB. split; [done|]. split; [done|]. split; [done|].
  split; [done|].
  assert (Hids : same_ids (heap stA) (heap stB)).
  { intros l. by rewrite HidsB, HidsA. }
  apply list_elem_of_lookup in Hc as [i Hi].
  assert (Hei : edges pn !! i = Some (root_of c)) by (by rewrite Hedges, list_lookup_fmap, Hi).
  destruct (Forall2_lookup_l _ _ _ _ _ Hall Hei) as (_ & _ & rnA & HrnA & HrmA & _).
  destruct Hfresh as [_ Hfresh].
  assert (Hmat : ∀ s, s ∈ subtrees c →
            ∃ nA nB, heap stA !! root_of s = Some nA ∧ heap stB !! root_of s = Some nB ∧
                     same_material nA nB).
  { eapply (material_determined prf_f enc_f enc_f _ _ Hids c); eauto.
    - intros s Hs. assert (Hs' : s ∈ subtrees t) by (by eapply subtrees_trans).
      destruct (Hfresh s Hs') as (n & Hn & _).
      by destruct (HpostA s n Hs' Hn) as (_ & _ & _ & _ & ?).
    - intros s Hs. assert (Hs' : s ∈ subtrees t) by (by eapply subtrees_trans).
      destruct (Hfresh s Hs') as (n & Hn & _).
      by destruct (HpostB s n Hs Hn) as (_ & _ & _ & _ & ?).
    - intros s nA Hs HnA. assert (Hs' : s ∈ subtrees t) by (by eapply subtrees_trans).
      destruct (Hfresh s Hs') as (n & Hn & He & _).
      destruct (HpostA s n Hs' Hn) as (n' & Hn' & (_ & _ & Hed & _) & _). congruence. }
  intros v Hv. rewrite locs_subtrees in Hv. apply list_elem_of_fmap in Hv as (s & -> & Hs).
  destruct (Hmat s Hs) as (nA & nB & HnA & HnB & (? & ? & ? & ?)).
  by exists nA, nB.
Qed.

End DerivationOnTrees.

(** ** Certificates *)

Section CertificateMessage.

Variable SigningKey_sign : ecdsa.SigningKey → bytes → Entropy → bytes * Entropy.

(** X14: a certificate made by [_create_certificate] carries a signature over
    the 33-byte compressed key followed by the 8-byte id, and that message
    determines both: two certificates with the same message are for the same
    id and for public keys with the same x-coordinate and the same parity of
    y. *)
Theorem X14_certificate_message_binds
    cold cold' pk pk' identifier identifier' st st' sg sg' p p' b b' s s' :
  Arcula._create_certificate SigningKey_sign cold pk identifier st
  = (Ok (sg, (p, b)), s) →
  Arcula._create_certificate SigningKey_sign cold' pk' identifier' st'
  = (Ok (sg', (p', b')), s') →
  sg = (SigningKey_sign cold (p ++ b) (entropy st)).1 ∧
  length p = 33%nat ∧ length b = 8%nat ∧
  (p ++ b = p' ++ b' →
   identifier = identifier' ∧ ecdsa.x pk = ecdsa.x pk' ∧
   (ecdsa.y pk mod 2 =? 0) = (ecdsa.y pk' mod 2 =? 0)).
Proof.
  assert (Hinv : ∀ c k i t g q d u,
    Arcula._create_certificate SigningKey_sign c k i t = (Ok (g, (q, d)), u) →
    0 ≤ i < 2 ^ 64 ∧ 0 ≤ ecdsa.x k < 2 ^ 256 ∧
    q = (if ecdsa.y k mod 2 =? 0 then Byte.x02 else Byte.x03)
        :: to_bytes_big 32 (ecdsa.x k) ∧
    d = to_bytes_big 8 i ∧
    g = (SigningKey_sign c (q ++ d) (entropy t)).1).
  { intros c k i t g q d u. unfold Arcula._create_certificate.
    unfold encode.verification_key_to_bytes_33.
    destruct (encode.int_to_bytes_32 (ecdsa.x k)) as [xs|e0] eqn:Hx.
    2:{ by rewrite (bind_raise _ _ _ _ _ (eq_refl : lift (Raise e0) t = _)). }
    rewrite (bind_ok _ _ _ _ _ (lift_ok _ _)).
    destruct (encode.int_to_bytes_8 i) as [ib|e0] eqn:Hi.
    2:{ by rewrite (bind_raise _ _ _ _ _ (eq_refl : lift (Raise e0) t = _)). }
    rewrite (bind_ok _ _ _ _ _ (lift_ok _ _)).
    apply int_to_bytes_32_inv in Hx as [Hxr ->].
    apply int_to_bytes_8_inv in Hi as [Hir ->].
    unfold bind, with_entropy, crypto.ecdsa_sign, ret.
    destruct (SigningKey_sign c _ (entropy t)) as [g0 e1] eqn:Hs.
    intros Heq.
    assert (Hg : g = g0) by congruence.
    assert (Hq : q = (if ecdsa.y k mod 2 =? 0 then [Byte.x02] else [Byte.x03])
                     ++ to_bytes_big 32 (ecdsa.x k)) by congruence.
    assert (Hd : d = to_bytes_big 8 i) by congruence.
    subst g q d. split; [done|]. split; [done|].
    split; [by destruct (_ =? 0)|]. split; [done|]. by rewrite Hs. }
  intros H1 H2.
  destruct (Hinv _ _ _ _ _ _ _ _ H1) as (Hi & Hx & Hp & Hb & Hsg).
  destruct (Hinv _ _ _ _ _ _ _ _ H2) as (Hi' & Hx' & Hp' & Hb' & _).
  assert (Hlp : ∀ k, length ((if ecdsa.y k mod 2 =? 0 then Byte.x02 else Byte.x03)
                             :: to_bytes_big 32 (ecdsa.x k)) = 33%nat).
  { intros k. cbn [length]. by rewrite length_to_bytes_big. }
  split; [done|]. split; [rewrite Hp; apply Hlp|]. split; [rewrite Hb; apply length_to_bytes_big|].
  intros Heq. apply app_inj_1 in Heq as [Hpp Hbb].
  2:{ rewrite Hp, Hp'. by rewrite !Hlp. }
  rewrite Hb, Hb' in Hbb. rewrite Hp, Hp' in Hpp.
  split; [by apply (to_bytes_big_inj 8)|].
  assert (Hpar : (if ecdsa.y pk mod 2 =? 0 then Byte.x02 else Byte.x03)
                 = (if ecdsa.y pk' mod 2 =? 0 then Byte.x02 else Byte.x03) ∧
                 to_bytes_big 32 (ecdsa.x pk) = to_bytes_big 32 (ecdsa.x pk')).
  { split; [exact (f_equal (hd Byte.x00) Hpp)|exact (f_equal (@tl _) Hpp)]. }
  destruct Hpar as [Hpar Hxs].
  split; [by apply (to_bytes_big_inj 32)|].
  by destruct (ecdsa.y pk mod 2 =? 0), (ecdsa.y pk' mod 2 =? 0).
Qed.

End CertificateMessage.

(** ** Instances of the further properties *)

Lemma single_tree_run_eq :
  Toy.dhka_keygen Toy.single Toy.zeros (firstn 32 Toy.seed64) = Toy.single_tree_run.
Proof. vm_compute. reflexivity. Qed.

Lemma selfloop_run_eq :
  Toy.dhka_keygen Toy.selfloop Toy.zeros (firstn 32 Toy.seed64) = Toy.selfloop_run.
Proof. vm_compute. reflexivity. Qed.

Lemma X1_witness :
  0 ≤ 5 < 2 ^ 64 ∧
  ∃ b, encode.int_to_bytes_8 5 = Ok b ∧ length b = 8%nat ∧ encode.bytes_8_to_int b = Ok 5.
Proof.
  split; [lia|]. apply (proj1 (X1_int_to_bytes_8_round_trip 5)). lia.
Defined.

Lemma X2_witness :
  length (repeat Byte.x01 8) = 8%nat ∧
  ∃ k, encode.bytes_8_to_int (repeat Byte.x01 8) = Ok k ∧ 0 ≤ k < 2 ^ 64 ∧
       encode.int_to_bytes_8 k = Ok (repeat Byte.x01 8).
Proof.
  split; [reflexivity|].
  apply (proj1 (X2_bytes_8_to_int_round_trip (repeat Byte.x01 8))). reflexivity.
Defined.

Lemma X3_witness :
  0 ≤ 5 < 2 ^ 256 ∧
  ∃ b, encode.int_to_bytes_32 5 = Ok b ∧ length b = 32%nat ∧ encode.bytes_32_to_int b = Ok 5.
Proof.
  split; [lia|]. apply (proj1 (X3_int_to_bytes_32_round_trip 5)). lia.
Defined.

Lemma X4_witness :
  length Toy.seed32 = 32%nat ∧
  ∃ k, encode.bytes_32_to_int Toy.seed32 = Ok k ∧ 0 ≤ k < 2 ^ 256 ∧
       encode.int_to_bytes_32 k = Ok Toy.seed32.
Proof.
  split; [reflexivity|].
  apply (proj1 (X4_bytes_32_to_int_round_trip Toy.seed32)). reflexivity.
Defined.

Lemma X5_witness :
  0 ≤ ecdsa.x {| ecdsa.x := 5; ecdsa.y := 7 |} < 2 ^ 256 ∧
  ∃ xs, encode.verification_key_to_bytes_33 {| ecdsa.x := 5; ecdsa.y := 7 |}
        = Ok (Byte.x03 :: xs) ∧
        encode.bytes_32_to_int xs = Ok 5.
Proof.
  split; [simpl; lia|].
  destruct (proj1 (X5_verification_key_to_bytes_33 {| ecdsa.x := 5; ecdsa.y := 7 |}))
    as (parity & xs & Hrun & _ & Hpar & Hxs); [simpl; lia|].
  exists xs. split; [|exact Hxs]. rewrite Hrun, Hpar. reflexivity.
Defined.

Lemma X6_witness :
  (∀ m, length (Toy.hashlib_sha3_512 m) = 64%nat) ∧
  crypto.sha3_512_half_k Toy.hashlib_sha3_512 ([Byte.x01] ++ [Byte.x02]) [Byte.x03]
  = crypto.sha3_512_half_k Toy.hashlib_sha3_512 [Byte.x01] ([Byte.x02] ++ [Byte.x03]).
Proof.
  split; [exact ToyFacts.toy_length_hashlib_sha3_512|].
  exact (proj2 (proj2 (X6_sha3_512_half_k_concatenates Toy.hashlib_sha3_512
                         ToyFacts.toy_length_hashlib_sha3_512
                         [Byte.x01] [Byte.x02] [Byte.x03]))).
Defined.

Lemma X7_witness :
  length Toy.seed32 = 32%nat ∧
  ∃ nonce cipher e',
    crypto.aes_ae Toy.AESGCM_encrypt Toy.seed32 [Byte.x07] Toy.zeros
    = (Ok (nonce, cipher), e') ∧
    crypto.aes_ad Toy.AESGCM_decrypt Toy.seed32 (nonce, cipher) = Ok [Byte.x07].
Proof.
  split; [reflexivity|].
  destruct (proj1 (X7_aes_round_trip Toy.AESGCM_encrypt Toy.AESGCM_decrypt
                     (fun k nonce m _ _ => ToyFacts.toy_AESGCM_decrypt_encrypt k nonce m)
                     Toy.seed32 [Byte.x07] Toy.zeros))
    as (nonce & cipher & e' & Hrun & _ & _ & Hdec); [reflexivity|].
  exists nonce, cipher, e'. split; [exact Hrun|exact Hdec].
Defined.

Lemma X8_witness :
  DHKA.keygen 1 Toy.prf_f Toy.enc_f 10 Toy.seed32 (Toy.init Toy.diamond Toy.zeros)
  = (Toy.diamond_run.1, Toy.diamond_run.2) ∧
  cold_storage_public_key Toy.diamond_run.2 = None ∧
  match Toy.diamond !! 4%positive, heap Toy.diamond_run.2 !! 4%positive with
  | Some n, Some n' => id n' = id n ∧ edges n' = edges n
  | None, None => True
  | _, _ => False
  end.
Proof.
  assert (Hrun : DHKA.keygen 1 Toy.prf_f Toy.enc_f 10 Toy.seed32
                   (Toy.init Toy.diamond Toy.zeros)
                 = (Toy.diamond_run.1, Toy.diamond_run.2)).
  { change (Toy.dhka_keygen Toy.diamond Toy.zeros Toy.seed32
            = (Toy.diamond_run.1, Toy.diamond_run.2)).
    rewrite diamond_run_eq. reflexivity. }
  split; [exact Hrun|].
  pose proof (X8_dhka_keygen_never_writes Toy.prf_f Toy.enc_f _ _ _ _ _ _ Hrun)
    as [Hcold Hall].
  split; [exact Hcold|].
  generalize (Hall 4%positive).
  change (heap (Toy.init Toy.diamond Toy.zeros)) with Toy.diamond.
  generalize (Toy.diamond !! 4%positive) (heap Toy.diamond_run.2 !! 4%positive).
  intros [n|] [n'|] H; try exact H.
  destruct H as (Hid & _ & Hedges & _). split; [exact Hid|exact Hedges].
Defined.

Lemma X9_witness :
  length Toy.seed64 = 64%nat ∧
  Toy.dhka_keygen Toy.single Toy.zeros (firstn 32 Toy.seed64)
  = (Ok tt, Toy.single_tree_run.2) ∧
  match heap Toy.single_tree_run.2 !! 1%positive,
        heap Toy.single_wallet_run.2 !! 1%positive with
  | Some n, Some n' => _secret n' = _secret n ∧ _key n' = _key n
  | None, None => True
  | _, _ => False
  end.
Proof.
  assert (Hlen : length Toy.seed64 = 64%nat) by reflexivity.
  assert (Hrun1 : Toy.dhka_keygen Toy.single Toy.zeros (firstn 32 Toy.seed64)
                  = (Ok tt, Toy.single_tree_run.2)).
  { rewrite single_tree_run_eq. vm_compute. reflexivity. }
  assert (Hrun : Toy.arcula_keygen Toy.single Toy.zeros Toy.seed64
                 = (Toy.single_wallet_run.1, Toy.single_wallet_run.2)).
  { rewrite single_wallet_run_eq. reflexivity. }
  split; [exact Hlen|]. split; [exact Hrun1|].
  generalize (X9_arcula_keeps_derivation Toy.prf_f Toy.enc_f Toy.curve
                Toy.randrange_from_seed__trytryagain Toy.SigningKey_sign
                _ _ _ _ _ _ _ Hlen Hrun1 Hrun 1%positive).
  generalize (heap Toy.single_tree_run.2 !! 1%positive)
             (heap Toy.single_wallet_run.2 !! 1%positive).
  intros [n|] [n'|] H; try exact H.
  destruct H as (_ & _ & _ & _ & Hs & _ & Hk & _). split; [exact Hs|exact Hk].
Defined.

Lemma X10_witness :
  length Toy.seed64 = 64%nat ∧
  Toy.dhka_keygen Toy.selfloop Toy.zeros (firstn 32 Toy.seed64)
  = (Raise (AssertionError PosetNotTree), Toy.selfloop_run.2) ∧
  Toy.arcula_keygen Toy.selfloop Toy.zeros Toy.seed64
  = (Raise (AssertionError PosetNotTree), Toy.selfloop_run.2).
Proof.
  assert (Hlen : length Toy.seed64 = 64%nat) by reflexivity.
  assert (Hrun1 : Toy.dhka_keygen Toy.selfloop Toy.zeros (firstn 32 Toy.seed64)
                  = (Raise (AssertionError PosetNotTree), Toy.selfloop_run.2)).
  { rewrite selfloop_run_eq. vm_compute. reflexivity. }
  split; [exact Hlen|]. split; [exact Hrun1|].
  exact (proj1 (X10_arcula_propagates_derivation_failure Toy.prf_f Toy.enc_f Toy.curve
                  Toy.randrange_from_seed__trytryagain Toy.SigningKey_sign
                  _ _ _ _ _ _ Hlen Hrun1)).
Defined.

Lemma X11_witness :
  fresh_hierarchy (heap (Toy.init Toy.hardcoded Toy.zeros)) (T 3 [T 4 []]) ∧
  (length (locs (T 3 [T 4 []])) ≤ 10)%nat ∧
  ∃ st',
    DHKA.keygen 3 Toy.prf_f Toy.enc_f 10 Toy.seed32 (Toy.init Toy.hardcoded Toy.zeros)
    = (Ok tt, st') ∧
    heap st' !! 1%positive = Toy.hardcoded !! 1%positive ∧
    heap st' !! 2%positive = Toy.hardcoded !! 2%positive.
Proof.
  assert (Hfresh : fresh_hierarchy (heap (Toy.init Toy.hardcoded Toy.zeros)) (T 3 [T 4 []])).
  { apply fresh_hierarchyb_spec. by vm_compute. }
  split; [exact Hfresh|]. split; [simpl; lia|].
  destruct (X11_keygen_leaves_other_objects Toy.prf_f Toy.enc_f ToyFacts.toy_enc_f_total
              (T 3 [T 4 []]) (Toy.init Toy.hardcoded Toy.zeros) Toy.seed32 10
              Hfresh ltac:(simpl; lia)) as (st' & Hrun & Hframe).
  exists st'. split; [exact Hrun|].
  assert (Hout : ∀ l, l ≠ 3%positive → l ≠ 4%positive → l ∉ locs (T 3 [T 4 []])).
  { intros l H3 H4 Hin. simpl in Hin.
    apply elem_of_cons in Hin as [Hin|Hin]; [done|].
    apply elem_of_cons in Hin as [Hin|Hin]; [done|].
    by apply elem_of_nil in Hin. }
  split; apply Hframe; apply Hout; discriminate.
Defined.

Lemma X12_witness :
  fresh_hierarchy (heap (Toy.init Toy.hardcoded Toy.zeros)) Toy.hardcoded_shape ∧
  (length (locs Toy.hardcoded_shape) ≤ 10)%nat ∧
  ∃ st1 st2,
    DHKA.keygen 1 Toy.prf_f Toy.enc_f 10 Toy.seed32 (Toy.init Toy.hardcoded Toy.zeros)
    = (Ok tt, st1) ∧
    DHKA.keygen 1 Toy.prf_f Toy.enc_f 10 Toy.seed32 st1
    = (Raise (AssertionError EdgesLengthMismatch), st2).
Proof.
  split; [apply ToyFacts.toy_fresh_hardcoded|]. split; [simpl; lia|].
  exact (X12_second_keygen_fails Toy.prf_f Toy.enc_f ToyFacts.toy_enc_f_total
           1%positive (T 2 []) [T 3 [T 4 []]] (Toy.init Toy.hardcoded Toy.zeros)
           Toy.seed32 Toy.seed32 10 9
           (ToyFacts.toy_fresh_hardcoded _) ltac:(simpl; lia)).
Defined.

Lemma X13_witness :
  fresh_hierarchy (heap (Toy.init Toy.hardcoded Toy.zeros)) Toy.hardcoded_shape ∧
  (length (locs Toy.hardcoded_shape) ≤ 10)%nat ∧
  T 1 [T 2 []; T 3 [T 4 []]] ∈ subtrees Toy.hardcoded_shape ∧
  T 3 [T 4 []] ∈ [T 2 []; T 3 [T 4 []]] ∧
  ∃ stA pn p_secret stB,
    DHKA.keygen 1 Toy.prf_f Toy.enc_f 10 Toy.seed32 (Toy.init Toy.hardcoded Toy.zeros)
    = (Ok tt, stA) ∧
    heap stA !! 1%positive = Some pn ∧ _secret pn = Some p_secret ∧
    DHKA.keygen 3 Toy.prf_f Toy.enc_f 10 p_secret (Toy.init Toy.hardcoded Toy.zeros)
    = (Ok tt, stB) ∧
    ∃ nA nB, heap stA !! 4%positive = Some nA ∧ heap stB !! 4%positive = Some nB ∧
             _key nB = _key nA.
Proof.
  assert (Hsub : T 1 [T 2 []; T 3 [T 4 []]] ∈ subtrees Toy.hardcoded_shape).
  { apply subtrees_self. }
  assert (Hc : T 3 [T 4 []] ∈ [T 2 []; T 3 [T 4 []]]).
  { apply list_elem_of_further, list_elem_of_here. }
  split; [apply ToyFacts.toy_fresh_hardcoded|]. split; [simpl; lia|].
  split; [exact Hsub|]. split; [exact Hc|].
  destruct (X13_subtree_rederivation Toy.prf_f Toy.enc_f ToyFacts.toy_enc_f_total
              Toy.hardcoded_shape (Toy.init Toy.hardcoded Toy.zeros) Toy.seed32 10
              1%positive [T 2 []; T 3 [T 4 []]] (T 3 [T 4 []])
              (ToyFacts.toy_fresh_hardcoded _) ltac:(simpl; lia) Hsub Hc)
    as (stA & pn & p_secret & stB & HrunA & Hpn & Hsec & HrunB & Hall).
  exists stA, pn, p_secret, stB.
  split; [exact HrunA|]. split; [exact Hpn|]. split; [exact Hsec|]. split; [exact HrunB|].
  destruct (Hall 4%positive) as (nA & nB & HnA & HnB & _ & _ & _ & Hk).
  { simpl. apply list_elem_of_further, list_elem_of_here. }
  exists nA, nB. split; [exact HnA|]. split; [exact HnB|exact Hk].
Defined.

Lemma X14_witness :
  ∃ sg p b s,
    Arcula._create_certificate Toy.SigningKey_sign
      {| ecdsa.secret_multiplier := 7;
         ecdsa.get_verifying_key := ecdsa.generator_mul Toy.curve 7 |}
      (ecdsa.generator_mul Toy.curve 9) 3 (Toy.init Toy.single Toy.zeros)
    = (Ok (sg, (p, b)), s) ∧
    length p = 33%nat ∧ length b = 8%nat.
Proof.
  assert (Hrun : ∃ sg p b s,
    Arcula._create_certificate Toy.SigningKey_sign
      {| ecdsa.secret_multiplier := 7;
         ecdsa.get_verifying_key := ecdsa.generator_mul Toy.curve 7 |}
      (ecdsa.generator_mul Toy.curve 9) 3 (Toy.init Toy.single Toy.zeros)
    = (Ok (sg, (p, b)), s)).
  { vm_compute. do 4 eexists. reflexivity. }
  destruct Hrun as (sg & p & b & s & Hrun).
  exists sg, p, b, s. split; [exact Hrun|].
  destruct (X14_certificate_message_binds Toy.SigningKey_sign _ _ _ _ _ _ _ _ _ _
              _ _ _ _ _ _ Hrun Hrun) as (_ & Hp & Hb & _).
  split; [exact Hp|exact Hb].
Defined.

(** ** The BIP44 tree builder *)

Lemma set_edges_same n : set_edges n (edges n) = n.
Proof. by destruct n. Qed.

Lemma set_edges_set_edges n es es' : set_edges (set_edges n es) es' = set_edges n es'.
Proof. done. Qed.

Lemma shape_in_unfold h l cs :
  shape_in h (T l cs)
  = (n ← h !! l; shs ← mapM (shape_in h) cs; Some (Sh (id n) (tag n) shs)).
Proof. done. Qed.

Lemma mapM_shape_Forall2 h ts shs :
  mapM (shape_in h) ts = Some shs ↔ Forall2 (fun t sh => shape_in h t = Some sh) ts shs.
Proof. apply mapM_Some. Qed.

(** The shape of a hierarchy depends on its own objects only. *)
Lemma shape_in_frame h h' t :
  (∀ l, l ∈ locs t → h' !! l = h !! l) → shape_in h' t = shape_in h t.
Proof.
  induction t as [l cs IH] using Tree_forall_ind. intros Hl.
  rewrite !shape_in_unfold. rewrite (Hl l) by (simpl; left).
  destruct (h !! l) as [n|]; [|done]. simpl.
  assert (Hcs : ∀ l', l' ∈ cs ≫= locs → h' !! l' = h !! l').
  { intros l' Hl'. apply Hl. simpl. by right. }
  assert (Heq : mapM (shape_in h') cs = mapM (shape_in h) cs).
  { clear n Hl. induction IH as [|c cs IHc _ IHcs]; [done|].
    cbn [mapM]. rewrite IHc, IHcs; [done| |].
    - intros l' Hl'. apply Hcs. rewrite bind_cons. apply elem_of_app. by right.
    - intros l' Hl'. apply Hcs. rewrite bind_cons. apply elem_of_app. by left. }
  by rewrite Heq.
Qed.

Lemma fresh_node_at_frame h h' s :
  h' !! root_of s = h !! root_of s → fresh_node_at h s → fresh_node_at h' s.
Proof. intros Heq (n & Hn & ?). exists n. by rewrite Heq. Qed.

Lemma grows_dom h h' u ts shs :
  grows h h' u ts shs → ∀ l, is_Some (h !! l) → is_Some (h' !! l).
Proof.
  intros ((n & Hu & Hu') & _ & _ & _ & _ & Hframe) l Hl.
  destruct (decide (l = u)) as [->|Hne]; [by rewrite Hu'|].
  by rewrite Hframe.
Qed.

Lemma grows_new_is_Some h h' u ts shs :
  grows h h' u ts shs → ∀ l, l ∈ ts ≫= locs → is_Some (h' !! l).
Proof.
  intros (_ & _ & _ & Hfresh & _) l Hl.
  rewrite forest_locs_subtrees in Hl. apply list_elem_of_fmap in Hl as (s & -> & Hs).
  destruct (Hfresh s Hs) as (n & Hn & _). by rewrite Hn.
Qed.

Lemma grows_nil h u n : h !! u = Some n → grows h h u [] [].
Proof.
  intros Hu. split.
  { exists n. split; [done|]. simpl. by rewrite app_nil_r, set_edges_same. }
  split; [constructor|]. split; [intros l Hl; by apply elem_of_nil in Hl|].
  split; [intros l Hl; by apply elem_of_nil in Hl|]. split; [constructor|done].
Qed.

Lemma forest_locs_elem (ts : list Tree) t l : t ∈ ts → l ∈ locs t → l ∈ ts ≫= locs.
Proof. intros Ht Hl. apply list_elem_of_bind. by exists t. Qed.

Lemma grows_leaf h u n a i tg :
  h !! u = Some n → h !! a = None → 0 ≤ i < 2 ^ 64 →
  grows h (<[u := set_edges n (edges n ++ [a])]> (<[a := blank_Node i tg]> h)) u
        [T a []] [Sh i tg []].
Proof.
  intros Hu Ha Hi.
  assert (Hne : u ≠ a) by (intros ->; congruence).
  assert (Ha' : (<[u := set_edges n (edges n ++ [a])]> (<[a := blank_Node i tg]> h)) !! a
                = Some (blank_Node i tg)).
  { by rewrite lookup_insert_ne, lookup_insert_eq. }
  split.
  { exists n. split; [done|]. by rewrite lookup_insert_eq. }
  change ([T a []] ≫= locs) with [a]. change ([T a []] ≫= subtrees) with [T a []].
  split; [apply NoDup_singleton|].
  split; [by intros l ->%list_elem_of_singleton|].
  split.
  { intros s ->%list_elem_of_singleton. exists (blank_Node i tg). by split. }
  split.
  { constructor; [|constructor]. rewrite shape_in_unfold, Ha'. done. }
  intros l Hl Hsome.
  assert (l ≠ a) by (intros ->; rewrite Ha in Hsome; by destruct Hsome).
  by rewrite !lookup_insert_ne.
Qed.

Lemma grows_app h h1 h2 u ts1 ts2 shs1 shs2 :
  grows h h1 u ts1 shs1 → grows h1 h2 u ts2 shs2 →
  grows h h2 u (ts1 ++ ts2) (shs1 ++ shs2).
Proof.
  intros H1 H2.
  pose proof (grows_new_is_Some _ _ _ _ _ H1) as Hsome1.
  pose proof (grows_dom _ _ _ _ _ H1) as Hdom1.
  destruct H1 as ((n & Hu & Hu1) & Hnd1 & Hnew1 & Hfr1 & Hsh1 & Hframe1).
  destruct H2 as ((n1 & Hu1' & Hu2) & Hnd2 & Hnew2 & Hfr2 & Hsh2 & Hframe2).
  rewrite Hu1 in Hu1'. injection Hu1' as <-.
  assert (HA : ∀ l, l ∈ ts1 ≫= locs → h2 !! l = h1 !! l).
  { intros l Hl. apply Hframe2; [|by apply Hsome1].
    intros ->. specialize (Hnew1 _ Hl). congruence. }
  assert (HB : ∀ l, l ∈ ts2 ≫= locs → (l ∉ ts1 ≫= locs) ∧ h !! l = None).
  { intros l Hl. specialize (Hnew2 _ Hl). split.
    - intros Hl1. destruct (Hsome1 _ Hl1) as [? Hx]. congruence.
    - destruct (h !! l) eqn:Hhl; [|done].
      destruct (Hdom1 l) as [? Hx]; [by rewrite Hhl|congruence]. }
  split.
  { exists n. split; [done|]. rewrite Hu2. f_equal. cbn [set_edges edges].
    by rewrite fmap_app, app_assoc. }
  rewrite !bind_app.
  split.
  { apply NoDup_app. split; [done|]. split; [|done].
    intros l Hl1 Hl2. by destruct (HB _ Hl2). }
  split.
  { intros l [Hl|Hl]%elem_of_app; [by apply Hnew1|by apply HB]. }
  split.
  { intros s [Hs|Hs]%elem_of_app; [|by apply Hfr2].
    apply (fresh_node_at_frame h1); [|by apply Hfr1].
    apply HA. rewrite forest_locs_subtrees. by apply list_elem_of_fmap_2. }
  split.
  { apply Forall2_app; [|done].
    eapply Forall2_impl_elem; [exact Hsh1|].
    intros t sh Ht Hsh. cbv beta in *. rewrite <- Hsh. apply shape_in_frame.
    intros l Hl. apply HA. by eapply forest_locs_elem. }
  intros l Hl Hsome. rewrite Hframe2; [by apply Hframe1|done|].
  by rewrite Hframe1.
Qed.

Lemma NoDup_insert_middle (P Q X : list loc) a :
  NoDup (P ++ a :: Q) → NoDup X → (∀ x, x ∈ X → x ∉ P ++ a :: Q) →
  NoDup (P ++ a :: X ++ Q).
Proof.
  intros Hnd HX Hdisj.
  assert (Hperm : P ++ a :: X ++ Q ≡ₚ X ++ (P ++ a :: Q)).
  { symmetry. rewrite Permutation_app_swap_app. apply Permutation_app_head.
    symmetry. apply Permutation_middle. }
  rewrite Hperm. apply NoDup_app. split; [done|]. split; [|done]. exact Hdisj.
Qed.

Lemma grows_deepen h h1 h2 u pre post a ts' shpre shpost i tg shs' :
  grows h h1 u (pre ++ T a [] :: post) (shpre ++ Sh i tg [] :: shpost) →
  length pre = length shpre →
  grows h1 h2 a ts' shs' →
  grows h h2 u (pre ++ T a ts' :: post) (shpre ++ Sh i tg shs' :: shpost).
Proof.
  intros H1 Hlen H2.
  pose proof (grows_new_is_Some _ _ _ _ _ H1) as Hsome1.
  pose proof (grows_dom _ _ _ _ _ H1) as Hdom1.
  destruct H1 as ((n & Hu & Hu1) & Hnd1 & Hnew1 & Hfr1 & Hsh1 & Hframe1).
  destruct H2 as ((na & Ha1 & Ha2) & Hnd2 & Hnew2 & Hfr2 & Hsh2 & Hframe2).
  rewrite bind_app, bind_cons in Hnd1, Hnew1, Hsome1.
  change (locs (T a [])) with [a] in Hnd1, Hnew1, Hsome1. cbn [app] in Hnd1, Hnew1, Hsome1.
  assert (Hau : a ≠ u).
  { intros ->. rewrite Hnew1 in Hu; [done|]. apply elem_of_app. right. by left. }
  assert (HA : ∀ l, l ∈ (pre ≫= locs) ++ a :: (post ≫= locs) → l ≠ a → h2 !! l = h1 !! l).
  { intros l Hl Hne. apply Hframe2; [done|by apply Hsome1]. }
  assert (HB : ∀ l, l ∈ ts' ≫= locs →
                    (l ∉ (pre ≫= locs) ++ a :: (post ≫= locs)) ∧ h !! l = None).
  { intros l Hl. specialize (Hnew2 _ Hl). split.
    - intros Hl1. destruct (Hsome1 _ Hl1) as [? Hx]. congruence.
    - destruct (h !! l) eqn:Hhl; [|done].
      destruct (Hdom1 l) as [? Hx]; [by rewrite Hhl|congruence]. }
  assert (Hpre : ∀ l, l ∈ pre ≫= locs → l ≠ a).
  { intros l Hl ->. apply NoDup_app in Hnd1 as (_ & Hd & _). apply (Hd a Hl). by left. }
  assert (Hpost : ∀ l, l ∈ post ≫= locs → l ≠ a).
  { intros l Hl ->. apply NoDup_app in Hnd1 as (_ & _ & Hd).
    by apply NoDup_cons in Hd as [Hd _]. }
  assert (Hna : edges na = [] ∧ 0 ≤ id na < 2 ^ 64 ∧ encrypted_edges na = [] ∧
                certificate na = None ∧ _signing_key na = None).
  { destruct (Hfr1 (T a [])) as (na' & Hna' & Hrest).
    { rewrite bind_app, bind_cons. apply elem_of_app. right.
      apply elem_of_app. left. apply subtrees_self. }
    cbn [root_of] in Hna'. rewrite Ha1 in Hna'. injection Hna' as <-. exact Hrest. }
  destruct Hna as (Hedges & Hid & Henc & Hcert & Hsk).
  apply Forall2_app_inv in Hsh1 as [Hshpre Hshpost]; [|done].
  apply Forall2_cons in Hshpost as [Hsha Hshpost].
  rewrite shape_in_unfold, Ha1 in Hsha. cbn in Hsha. injection Hsha as Hida Htaga.
  split.
  { exists n. split; [done|]. rewrite Hframe2; [|done|by rewrite Hu1].
    rewrite Hu1. by rewrite !fmap_app, !fmap_cons. }
  rewrite !bind_app, !bind_cons.
  cbn [locs subtrees]. cbn [app].
  split.
  { apply NoDup_insert_middle; [done|done|].
    intros x Hx. by apply HB. }
  split.
  { intros l [Hl|Hl]%elem_of_app.
    - apply Hnew1. apply elem_of_app. by left.
    - apply elem_of_cons in Hl as [->|Hl].
      + apply Hnew1. apply elem_of_app. right. by left.
      + apply elem_of_app in Hl as [Hl|Hl]; [by apply HB|].
        apply Hnew1. apply elem_of_app. right. by right. }
  split.
  { intros s [Hs|Hs]%elem_of_app.
    - apply (fresh_node_at_frame h1).
      + assert (Hr : root_of s ∈ pre ≫= locs).
        { rewrite forest_locs_subtrees. by apply list_elem_of_fmap_2. }
        apply HA; [|by apply Hpre]. apply elem_of_app. by left.
      + apply Hfr1. rewrite bind_app. apply elem_of_app. by left.
    - apply elem_of_cons in Hs as [->|Hs].
      + exists (set_edges na (edges na ++ (root_of <$> ts'))).
        split; [exact Ha2|]. cbn. by rewrite Hedges.
      + apply elem_of_app in Hs as [Hs|Hs]; [by apply Hfr2|].
        apply (fresh_node_at_frame h1).
        * assert (Hr : root_of s ∈ post ≫= locs).
          { rewrite forest_locs_subtrees. by apply list_elem_of_fmap_2. }
          apply HA; [|by apply Hpost]. apply elem_of_app. right. by right.
        * apply Hfr1. rewrite bind_app, bind_cons. apply elem_of_app. right.
          apply elem_of_app. by right. }
  split.
  { apply Forall2_app; [|constructor].
    - eapply Forall2_impl_elem; [exact Hshpre|].
      intros t sh Ht Hsh. cbv beta in *. rewrite <- Hsh. apply shape_in_frame.
      intros l Hl.
      assert (Hl' : l ∈ pre ≫= locs) by (by eapply forest_locs_elem).
      apply HA; [|by apply Hpre]. apply elem_of_app. by left.
    - rewrite shape_in_unfold, Ha2. cbn.
      apply mapM_shape_Forall2 in Hsh2. rewrite Hsh2. cbn. by rewrite Hida, Htaga.
    - eapply Forall2_impl_elem; [exact Hshpost|].
      intros t sh Ht Hsh. cbv beta in *. rewrite <- Hsh. apply shape_in_frame.
      intros l Hl.
      assert (Hl' : l ∈ post ≫= locs) by (by eapply forest_locs_elem).
      apply HA; [|by apply Hpost]. apply elem_of_app. right. by right. }
  intros l Hl Hsome.
  assert (l ≠ a).
  { intros ->. rewrite Hnew1 in Hsome; [by destruct Hsome|].
    apply elem_of_app. right. by left. }
  rewrite Hframe2; [by apply Hframe1|done|]. by rewrite Hframe1.
Qed.

(** *** The builder, level by level *)

Lemma alloc_ok n st :
  heap st !! fresh (dom (heap st)) = None ∧
  alloc n st = (Ok (fresh (dom (heap st))),
                set_heap st (<[fresh (dom (heap st)) := n]> (heap st))).
Proof. split; [|done]. apply not_elem_of_dom, is_fresh. Qed.

Lemma cls_ok i tg st :
  0 ≤ i < 2 ^ 64 →
  ∃ a, heap st !! a = None ∧
       bip44.cls i tg st = (Ok a, set_heap st (<[a := blank_Node i tg]> (heap st))).
Proof.
  intros Hi. exists (fresh (dom (heap st))).
  split; [apply not_elem_of_dom, is_fresh|].
  unfold bip44.cls, new_Node.
  assert (Hb : (0 <=? i) && (i <? 2 ^ 64) = true).
  { apply andb_true_intro. split; [apply Z.leb_le|apply Z.ltb_lt]; lia. }
  rewrite Hb. by rewrite (bind_ok _ _ _ _ _ (lift_ok _ _)).
Qed.

Lemma cls_raise i tg st :
  ¬ 0 ≤ i < 2 ^ 64 → bip44.cls i tg st = (Raise (AssertionError NodeIdRange), st).
Proof.
  intros Hi. unfold bip44.cls, new_Node.
  destruct ((0 <=? i) && (i <? 2 ^ 64)) eqn:Hb; [|done].
  apply andb_prop in Hb as [H0 H1]. apply Z.leb_le in H0. apply Z.ltb_lt in H1. lia.
Qed.

Lemma edges_append_ok u v n st :
  heap st !! u = Some n →
  bip44.edges_append u v st
  = (Ok tt, set_heap st (<[u := set_edges n (edges n ++ [v])]> (heap st))).
Proof. intros Hu. unfold bip44.edges_append, update_node. by rewrite Hu. Qed.

(** [a = cls(i, tg); u.edges.append(a)]. *)
Lemma new_child_ok u n i tg st :
  heap st !! u = Some n → 0 ≤ i < 2 ^ 64 →
  ∃ a st2,
    (∀ A (k : loc → M A),
       (a <- bip44.cls i tg ;; bip44.edges_append u a ;;; k a) st = k a st2) ∧
    heap st2 !! a = Some (blank_Node i tg) ∧
    grows (heap st) (heap st2) u [T a []] [Sh i tg []].
Proof.
  intros Hu Hi. destruct (cls_ok i tg st Hi) as (a & Ha & Hcls).
  assert (Hne : u ≠ a) by (intros ->; congruence).
  set (st1 := set_heap st (<[a := blank_Node i tg]> (heap st))) in *.
  assert (Hu1 : heap st1 !! u = Some n) by (cbn; by rewrite lookup_insert_ne).
  exists a, (set_heap st1 (<[u := set_edges n (edges n ++ [a])]> (heap st1))).
  split.
  { intros A k. rewrite (bind_ok _ _ _ _ _ Hcls).
    by rewrite (bind_ok _ _ _ _ _ (edges_append_ok u a n st1 Hu1)). }
  split; [cbn; by rewrite lookup_insert_ne, lookup_insert_eq|].
  cbn. by apply grows_leaf.
Qed.

Lemma grows_parent h h' u ts shs :
  grows h h' u ts shs → is_Some (h' !! u).
Proof. intros ((n & _ & Hu) & _). by rewrite Hu. Qed.

Lemma range_ids n : n ≤ 2 ^ 64 → Forall (fun j => 0 ≤ j < 2 ^ 64) (bip44.range n).
Proof.
  intros Hn. apply Forall_forall. intros j Hj. unfold bip44.range in Hj.
  apply elem_of_seqZ in Hj. lia.
Qed.

Lemma address_chain_ok js : ∀ previous_node n st,
  Forall (fun j => 0 ≤ j < 2 ^ 64) js →
  heap st !! previous_node = Some n →
  ∃ st' ts,
    bip44.address_chain js previous_node st = (Ok tt, st') ∧
    grows (heap st) (heap st') previous_node ts (chain_shape js).
Proof.
  induction js as [|j js IH]; intros previous_node n st Hjs Hp.
  { exists st, []. split; [done|]. by eapply grows_nil. }
  apply Forall_cons in Hjs as [Hj Hjs]. cbn [bip44.address_chain chain_shape].
  destruct (new_child_ok previous_node n j None st Hp Hj)
    as (a & st2 & Hrun & Ha & Hgrow).
  destruct (IH a _ st2 Hjs Ha) as (st' & ts & Hrun' & Hgrow').
  exists st', [T a ts]. split; [by rewrite Hrun|].
  exact (grows_deepen _ _ _ _ [] [] a ts [] [] j None _ Hgrow eq_refl Hgrow').
Qed.

Lemma account_ok coin_node n i n_addresses st :
  valid_account n_addresses → 0 ≤ i < 2 ^ 64 →
  heap st !! coin_node = Some n →
  ∃ st' t,
    bip44.account coin_node i n_addresses st = (Ok tt, st') ∧
    grows (heap st) (heap st') coin_node [t] [account_shape i n_addresses].
Proof.
  destruct n_addresses as [np nq]. intros (Hpos & Hnp & Hnq) Hi Hc. cbn in Hpos, Hnp, Hnq.
  assert (Hb : (0 <? np) || (0 <? nq) = true).
  { apply orb_true_iff. destruct Hpos; [left|right]; by apply Z.ltb_lt. }
  destruct (new_child_ok coin_node n i None st Hc Hi) as (acc & st2 & Hrun2 & Hacc & G1).
  destruct (new_child_ok acc _ 0 (Some "XPUB"%string) st2 Hacc
              (conj (Z.le_refl 0) (eq_refl : 0 < 2 ^ 64)))
    as (pub & st4 & Hrun4 & Hpub & G2).
  destruct (grows_parent _ _ _ _ _ G2) as [acc4 Hacc4].
  destruct (new_child_ok acc _ 1 (Some "XPRV"%string) st4 Hacc4
              (conj Z.le_0_1 (eq_refl : 1 < 2 ^ 64)))
    as (priv & st6 & Hrun6 & Hpriv & G3).
  pose proof (grows_app _ _ _ _ _ _ _ _ G2 G3) as G23. cbn [app] in G23.
  destruct (address_chain_ok (bip44.range np) priv _ st6 (range_ids np Hnp) Hpriv)
    as (st7 & tsp & Hrun7 & Gp).
  pose proof (grows_deepen _ _ _ _ [T pub []] [] priv tsp
                [Sh 0 (Some "XPUB"%string) []] [] 1 (Some "XPRV"%string) _
                G23 eq_refl Gp) as G23'.
  cbn [app] in G23'.
  destruct (grows_dom _ _ _ _ _ Gp pub) as [pub7 Hpub7].
  { apply (grows_dom _ _ _ _ _ G3). by rewrite Hpub. }
  destruct (address_chain_ok (bip44.range nq) pub _ st7 (range_ids nq Hnq) Hpub7)
    as (st8 & tsq & Hrun8 & Gq).
  pose proof (grows_deepen _ _ _ _ [] [T priv tsp] pub tsq
                [] [Sh 1 (Some "XPRV"%string) (chain_shape (bip44.range np))]
                0 (Some "XPUB"%string) _ G23' eq_refl Gq) as G23''.
  cbn [app] in G23''.
  exists st8, (T acc [T pub tsq; T priv tsp]). split.
  { unfold bip44.account. rewrite Hb, (bind_ok _ _ _ _ _ (assert_true _ _)).
    rewrite Hrun2, Hrun4, Hrun6. by rewrite (bind_ok _ _ _ _ _ Hrun7). }
  exact (grows_deepen _ _ _ _ [] [] acc _ [] [] i None _ G1 eq_refl G23'').
Qed.

Lemma account_raise coin_node i n_addresses st :
  n_addresses.1 ≤ 0 → n_addresses.2 ≤ 0 →
  bip44.account coin_node i n_addresses st
  = (Raise (AssertionError AccountAddresses), st).
Proof.
  destruct n_addresses as [np nq]. cbn. intros Hnp Hnq. unfold bip44.account.
  assert (Hb : (0 <? np) || (0 <? nq) = false).
  { apply orb_false_iff. split; apply Z.ltb_ge; lia. }
  by rewrite Hb, (bind_raise _ _ _ _ _ (assert_false _ _)).
Qed.

(** The accounts [accs] are built one after the other; the loop goes on
    with what follows them. *)
Lemma accounts_prefix_ok coin_node accs : ∀ i n st,
  Forall valid_account accs →
  0 ≤ i → i + Z.of_nat (length accs) ≤ 2 ^ 64 →
  heap st !! coin_node = Some n →
  ∃ st' ts,
    (∀ rest, bip44.accounts coin_node i (accs ++ rest) st
             = bip44.accounts coin_node (i + Z.of_nat (length accs)) rest st') ∧
    grows (heap st) (heap st') coin_node ts (accounts_shape i accs).
Proof.
  induction accs as [|na accs IH]; intros i n st Hvalid Hi Hlen Hc.
  { exists st, []. split; [|by eapply grows_nil].
    intros rest. cbn. by rewrite Z.add_0_r. }
  apply Forall_cons in Hvalid as [Hna Hvalid]. cbn [length] in Hlen.
  destruct (account_ok coin_node n i na st Hna ltac:(lia) Hc) as (st1 & t & Hrun1 & G1).
  destruct (grows_parent _ _ _ _ _ G1) as [n1 Hc1].
  destruct (IH (i + 1) n1 st1 Hvalid ltac:(lia) ltac:(lia) Hc1) as (st' & ts & Hrun & G).
  exists st', ([t] ++ ts). split; [|exact (grows_app _ _ _ _ _ _ _ _ G1 G)].
  intros rest. cbn [app bip44.accounts length]. rewrite (bind_ok _ _ _ _ _ Hrun1), Hrun.
  f_equal. lia.
Qed.

Lemma CoinType_range name v : constants.CoinType name = Some v → 0 ≤ v < 2 ^ 64.
Proof.
  unfold constants.CoinType.
  repeat (destruct (String.eqb name _); [intros [= <-]; split; [done|reflexivity]|]).
  done.
Qed.

Lemma CoinType_inj name name' v :
  constants.CoinType name = Some v → constants.CoinType name' = Some v → name = name'.
Proof.
  unfold constants.CoinType.
  destruct (String.eqb_spec name "BTC"), (String.eqb_spec name "TEST"),
    (String.eqb_spec name "LTC"), (String.eqb_spec name "BCH");
  destruct (String.eqb_spec name' "BTC"), (String.eqb_spec name' "TEST"),
    (String.eqb_spec name' "LTC"), (String.eqb_spec name' "BCH");
  intros H1 H2; try congruence; try discriminate.
Qed.

(** One round of the loop over the coins, up to the loop over its accounts. *)
Lemma coin_node_ok purpose_node coin coin_config n st :
  coin_config ≠ [] → is_Some (constants.CoinType coin) →
  heap st !! purpose_node = Some n →
  ∃ coin_type coin_node st2,
    constants.CoinType coin = Some coin_type ∧
    (∀ config, bip44.coins purpose_node ((coin, coin_config) :: config) st
               = (bip44.accounts coin_node 0 coin_config ;;;
                  bip44.coins purpose_node config) st2) ∧
    heap st2 !! coin_node = Some (blank_Node coin_type (Some coin)) ∧
    grows (heap st) (heap st2) purpose_node
      [T coin_node []] [Sh coin_type (Some coin) []].
Proof.
  intros Hne [coin_type Hcoin] Hp.
  assert (Hb : negb (Nat.eqb (length coin_config) 0) = true) by (by destruct coin_config).
  destruct (new_child_ok purpose_node n coin_type (Some coin) st Hp
              (CoinType_range _ _ Hcoin)) as (coin_node & st2 & Hrun2 & Hcn & G1).
  exists coin_type, coin_node, st2. split; [done|]. split; [|done].
  intros config. cbn [bip44.coins].
  rewrite Hb, (bind_ok _ _ _ _ _ (assert_true _ _)).
  rewrite Hcoin, (bind_ok _ _ _ _ _ (lift_ok _ _)). by rewrite Hrun2.
Qed.

Lemma coins_prefix_ok purpose_node good : ∀ n st,
  valid_config good →
  heap st !! purpose_node = Some n →
  ∃ st' ts shs,
    (∀ rest, bip44.coins purpose_node (good ++ rest) st
             = bip44.coins purpose_node rest st') ∧
    grows (heap st) (heap st') purpose_node ts shs ∧
    mapM (fun item => coin_type ← constants.CoinType item.1;
                      Some (coin_shape coin_type item)) good = Some shs.
Proof.
  induction good as [|[coin coin_config] good IH]; intros n st Hvalid Hp.
  { exists st, [], []. split; [done|]. split; [by eapply grows_nil|done]. }
  apply Forall_cons in Hvalid as [(Hcoin & Hne & Hlen & Hacc) Hvalid].
  cbn [fst snd] in Hcoin, Hne, Hlen, Hacc.
  destruct (coin_node_ok purpose_node coin coin_config n st Hne Hcoin Hp)
    as (coin_type & coin_node & st2 & Hct & Hrun2 & Hcn & G1).
  destruct (accounts_prefix_ok coin_node coin_config 0 _ st2 Hacc
              ltac:(lia) ltac:(lia) Hcn) as (st3 & ts & Hrun3 & G2).
  pose proof (grows_deepen _ _ _ _ [] [] coin_node ts [] [] coin_type (Some coin) _
                G1 eq_refl G2) as G12.
  cbn [app] in G12.
  destruct (grows_parent _ _ _ _ _ G12) as [n3 Hp3].
  destruct (IH n3 st3 Hvalid Hp3) as (st4 & ts' & shs' & Hrun4 & G & Hshs).
  exists st4, ([T coin_node ts] ++ ts'),
    ([Sh coin_type (Some coin) (accounts_shape 0 coin_config)] ++ shs').
  split; [|split; [exact (grows_app _ _ _ _ _ _ _ _ G12 G)|]].
  - intros rest. cbn [app]. rewrite Hrun2.
    specialize (Hrun3 []). rewrite app_nil_r in Hrun3. cbn [bip44.accounts] in Hrun3.
    by rewrite (bind_ok _ _ _ _ _ Hrun3).
  - cbn [mapM fst snd]. rewrite Hct. cbn. rewrite Hshs. done.
Qed.

(** The first two nodes, [m] and [44']. *)
Lemma master_purpose_ok st :
  ∃ master purpose st3,
    (∀ config, bip44.bip44_tree config st
               = (bip44.coins purpose config ;;; ret master) st3) ∧
    heap st !! master = None ∧
    heap st3 !! purpose
    = Some (blank_Node (44 + constants.BIP32_HARDENED_INDEX) (Some "44'"%string)) ∧
    grows (<[master := blank_Node 0 (Some "m"%string)]> (heap st)) (heap st3) master
      [T purpose []]
      [Sh (44 + constants.BIP32_HARDENED_INDEX) (Some "44'"%string) []].
Proof.
  destruct (cls_ok 0 (Some "m"%string) st (conj (Z.le_refl 0) (eq_refl : 0 < 2 ^ 64)))
    as (master & Hnew & Hcls).
  set (st1 := set_heap st (<[master := blank_Node 0 (Some "m"%string)]> (heap st))) in *.
  assert (Hm1 : heap st1 !! master = Some (blank_Node 0 (Some "m"%string))).
  { cbn. by rewrite lookup_insert_eq. }
  assert (Hid : 0 ≤ 44 + constants.BIP32_HARDENED_INDEX < 2 ^ 64).
  { split; [done|reflexivity]. }
  destruct (new_child_ok master _ _ (Some "44'"%string) st1 Hm1 Hid)
    as (purpose & st3 & Hrun3 & Hpurpose & G1).
  exists master, purpose, st3. split; [|done].
  intros config. unfold bip44.bip44_tree. rewrite (bind_ok _ _ _ _ _ Hcls).
  by rewrite Hrun3.
Qed.

Lemma bip44_tree_builds config st :
  valid_config config →
  ∃ st' t sh,
    bip44.bip44_tree config st = (Ok (root_of t), st') ∧
    bip44_shape config = Some sh ∧
    shape_in (heap st') t = Some sh ∧
    fresh_hierarchy (heap st') t ∧
    (∀ l, l ∈ locs t → heap st !! l = None) ∧
    (∀ l, is_Some (heap st !! l) → heap st' !! l = heap st !! l).
Proof.
  intros Hvalid.
  destruct (master_purpose_ok st) as (master & purpose & st3 & Hrun3 & Hnew & Hpurpose & G1).
  destruct (coins_prefix_ok purpose config _ st3 Hvalid Hpurpose)
    as (st4 & ts & shs & Hrun4 & G2 & Hshs).
  specialize (Hrun4 []). rewrite app_nil_r in Hrun4. cbn [bip44.coins] in Hrun4.
  pose proof (grows_deepen _ _ _ _ [] [] purpose ts [] []
                (44 + constants.BIP32_HARDENED_INDEX) (Some "44'"%string) _
                G1 eq_refl G2) as G.
  cbn [app] in G.
  destruct G as ((n & Hn & Hm4) & Hnd & Hnone & Hfresh & Hshape & Hframe).
  rewrite lookup_insert_eq in Hn. injection Hn as <-.
  exists st4, (T master [T purpose ts]),
    (Sh 0 (Some "m"%string)
       [Sh (44 + constants.BIP32_HARDENED_INDEX) (Some "44'"%string) shs]).
  split; [by rewrite Hrun3, (bind_ok _ _ _ _ _ Hrun4)|].
  split; [unfold bip44_shape; by rewrite Hshs|].
  split.
  { rewrite shape_in_unfold, Hm4. cbn [mbind option_bind].
    apply mapM_shape_Forall2 in Hshape. rewrite Hshape. done. }
  split.
  { split.
    - cbn [locs]. apply NoDup_cons. split; [|done].
      intros Hin. specialize (Hnone _ Hin). by rewrite lookup_insert_eq in Hnone.
    - intros s Hs. cbn [subtrees] in Hs. apply elem_of_cons in Hs as [->|Hs]; [|by apply Hfresh].
      eexists. split; [exact Hm4|]. done. }
  split.
  { intros l Hl. cbn [locs] in Hl. apply elem_of_cons in Hl as [->|Hl]; [done|].
    specialize (Hnone _ Hl). by apply lookup_insert_None in Hnone as [? _]. }
  intros l Hl.
  assert (Hne : l ≠ master) by (intros ->; rewrite Hnew in Hl; by destruct Hl).
  rewrite Hframe; [by rewrite lookup_insert_ne|done|by rewrite lookup_insert_ne].
Qed.

(** *** What the shape says about the store *)

Lemma shape_in_inv h l cs sh :
  shape_in h (T l cs) = Some sh →
  ∃ n shs, h !! l = Some n ∧
           Forall2 (fun t sh => shape_in h t = Some sh) cs shs ∧
           sh = Sh (id n) (tag n) shs.
Proof.
  rewrite shape_in_unfold. destruct (h !! l) as [n|]; [|done]. cbn.
  destruct (mapM (shape_in h) cs) as [shs|] eqn:Hshs; [|done]. cbn.
  intros [= <-]. exists n, shs. split; [done|]. split; [|done].
  by apply mapM_shape_Forall2.
Qed.

Lemma shape_in_root_id h t sh :
  shape_in h t = Some sh → id <$> h !! root_of t = Some (shape_id sh).
Proof.
  destruct t as [l cs]. intros (n & shs & Hn & _ & ->)%shape_in_inv.
  cbn. by rewrite Hn.
Qed.

Lemma shape_size_locs h t : ∀ sh,
  shape_in h t = Some sh → length (locs t) = shape_size sh.
Proof.
  induction t as [l cs IH] using Tree_forall_ind.
  intros sh (n & shs & _ & Hshs & ->)%shape_in_inv. cbn [locs shape_size length].
  f_equal. induction Hshs as [|c sh cs shs Hc _ IHcs]; [done|].
  apply Forall_cons in IH as [IHc IH].
  rewrite bind_cons, length_app, fmap_cons. cbn [sum_list].
  by rewrite (IHc _ Hc), (IHcs IH).
Qed.

Lemma subtree_shape h t : ∀ sh,
  shape_in h t = Some sh →
  ∀ s, s ∈ subtrees t → ∃ shs, shs ∈ subshapes sh ∧ shape_in h s = Some shs.
Proof.
  induction t as [l cs IH] using Tree_forall_ind.
  intros sh Hsh s Hs.
  destruct (shape_in_inv _ _ _ _ Hsh) as (n & shs & _ & Hshs & ->).
  cbn [subtrees] in Hs. apply elem_of_cons in Hs as [->|Hs].
  { eexists. split; [|exact Hsh]. cbn [subshapes]. by left. }
  assert (Hforest : ∃ x, x ∈ shs ≫= subshapes ∧ shape_in h s = Some x).
  { clear Hsh. induction Hshs as [|c shc cs shs Hc _ IHcs]; [by apply elem_of_nil in Hs|].
    apply Forall_cons in IH as [IHc IH].
    rewrite bind_cons in Hs. apply elem_of_app in Hs as [Hs|Hs].
    - destruct (IHc _ Hc s Hs) as (x & Hx & Hsx). exists x. split; [|done].
      rewrite bind_cons. apply elem_of_app. by left.
    - destruct (IHcs IH Hs) as (x & Hx & Hsx). exists x. split; [|done].
      rewrite bind_cons. apply elem_of_app. by right. }
  destruct Hforest as (x & Hx & Hsx). exists x. split; [|done].
  cbn [subshapes]. by right.
Qed.

Lemma child_ids_shape h s sh :
  fresh_node_at h s → shape_in h s = Some sh →
  child_ids h (root_of s) = shape_id <$> shape_children sh.
Proof.
  destruct s as [l cs]. intros (n & Hn & Hedges & _) Hsh.
  destruct (shape_in_inv _ _ _ _ Hsh) as (n' & shs & Hn' & Hshs & ->).
  cbn [root_of children] in *. unfold child_ids. rewrite Hn, Hedges. cbn [shape_children].
  clear Hsh Hn Hn' Hedges. induction Hshs as [|c shc cs shs Hc _ IHcs]; [done|].
  rewrite !fmap_cons. cbn [omap list_omap].
  rewrite (shape_in_root_id _ _ _ Hc). by rewrite <- IHcs.
Qed.

(** *** Sibling ids in a BIP44 hierarchy *)

Lemma chain_shape_top js : NoDup (shape_id <$> chain_shape js).
Proof. destruct js; cbn; [constructor|apply NoDup_singleton]. Qed.

Lemma chain_shape_distinct js :
  ∀ s, s ∈ chain_shape js ≫= subshapes → distinct_children s.
Proof.
  induction js as [|j js IH]; intros s Hs; [by apply elem_of_nil in Hs|].
  cbn [chain_shape] in Hs. rewrite bind_singleton in Hs. cbn [subshapes] in Hs.
  apply elem_of_cons in Hs as [->|Hs]; [apply chain_shape_top|by apply IH].
Qed.

Lemma account_shape_distinct i n_addresses :
  ∀ s, s ∈ subshapes (account_shape i n_addresses) → distinct_children s.
Proof.
  intros s Hs. unfold account_shape in Hs. cbn [subshapes] in Hs.
  rewrite bind_cons, bind_singleton in Hs. cbn [subshapes] in Hs.
  apply elem_of_cons in Hs as [->|Hs].
  { unfold distinct_children. cbn. apply NoDup_cons. split; [|apply NoDup_singleton].
    by intros ?%list_elem_of_singleton. }
  apply elem_of_app in Hs as [Hs|Hs]; apply elem_of_cons in Hs as [->|Hs];
    first [apply chain_shape_top | by eapply chain_shape_distinct].
Qed.

Lemma accounts_shape_ids coin_config : ∀ i,
  (∀ x, x ∈ shape_id <$> accounts_shape i coin_config → i ≤ x) ∧
  NoDup (shape_id <$> accounts_shape i coin_config).
Proof.
  induction coin_config as [|na coin_config IH]; intros i.
  { split; [by intros x Hx%elem_of_nil|constructor]. }
  destruct (IH (i + 1)) as [Hge Hnd]. cbn [accounts_shape]. rewrite fmap_cons.
  cbn [shape_id account_shape]. split.
  - intros x [->|Hx]%elem_of_cons; [lia|]. specialize (Hge _ Hx). lia.
  - apply NoDup_cons. split; [|done]. intros Hi. specialize (Hge _ Hi). lia.
Qed.

Lemma accounts_shape_distinct coin_config : ∀ i s,
  s ∈ accounts_shape i coin_config ≫= subshapes → distinct_children s.
Proof.
  induction coin_config as [|na coin_config IH]; intros i s Hs;
    [by apply elem_of_nil in Hs|].
  cbn [accounts_shape] in Hs. rewrite bind_cons in Hs.
  apply elem_of_app in Hs as [Hs|Hs]; [by eapply account_shape_distinct|by eapply IH].
Qed.

Lemma coin_shape_distinct coin_type item :
  ∀ s, s ∈ subshapes (coin_shape coin_type item) → distinct_children s.
Proof.
  intros s Hs. unfold coin_shape in Hs. cbn [subshapes] in Hs.
  apply elem_of_cons in Hs as [->|Hs]; [|by eapply accounts_shape_distinct].
  apply accounts_shape_ids.
Qed.

Lemma coin_shapes_inv (config : list (string * list (Z * Z))) shs :
  mapM (fun item => coin_type ← constants.CoinType item.1;
                    Some (coin_shape coin_type item)) config = Some shs →
  Forall2 (fun item sh => constants.CoinType item.1 = Some (shape_id sh) ∧
                          sh = coin_shape (shape_id sh) item) config shs.
Proof.
  intros Hshs%mapM_Some. eapply Forall2_impl; [exact Hshs|].
  intros item sh Hsh. cbv beta in Hsh.
  destruct (constants.CoinType item.1) as [ct|]; [|done]. cbn in Hsh.
  by injection Hsh as <-.
Qed.

Lemma coin_shapes_ids (config : list (string * list (Z * Z))) shs :
  Forall2 (fun item sh => constants.CoinType item.1 = Some (shape_id sh) ∧
                          sh = coin_shape (shape_id sh) item) config shs →
  NoDup config.*1 → NoDup (shape_id <$> shs).
Proof.
  induction 1 as [|item sh config shs [Hct _] Hrest IH]; [constructor|].
  rewrite !fmap_cons. intros [Hnotin Hnames]%NoDup_cons.
  apply NoDup_cons. split; [|by apply IH].
  intros Hin. apply Hnotin. clear IH Hnotin Hnames.
  induction Hrest as [|item' sh' config shs [Hct' _] _ IH]; [by apply elem_of_nil in Hin|].
  rewrite fmap_cons in Hin. rewrite fmap_cons.
  apply elem_of_cons in Hin as [Hin|Hin]; [|apply elem_of_cons; right; by apply IH].
  apply elem_of_cons. left. rewrite <- Hin in Hct'. by apply (CoinType_inj _ _ _ Hct Hct').
Qed.

Lemma bip44_shape_distinct config sh :
  NoDup config.*1 → bip44_shape config = Some sh →
  ∀ s, s ∈ subshapes sh → distinct_children s.
Proof.
  intros Hnames Hsh. unfold bip44_shape in Hsh.
  destruct (mapM _ config) as [shs|] eqn:Hshs; [|done]. cbn in Hsh. injection Hsh as <-.
  apply coin_shapes_inv in Hshs.
  pose proof (coin_shapes_ids _ _ Hshs Hnames) as Hids.
  assert (Hcoins : ∀ s, s ∈ shs ≫= subshapes → distinct_children s).
  { clear Hnames Hids. induction Hshs as [|item x config shs [_ Hx] _ IH];
      intros s Hs; [by apply elem_of_nil in Hs|].
    rewrite bind_cons in Hs. apply elem_of_app in Hs as [Hs|Hs]; [|by apply IH].
    rewrite Hx in Hs. by eapply coin_shape_distinct. }
  intros s Hs. cbn [subshapes] in Hs.
  apply elem_of_cons in Hs as [->|Hs].
  { unfold distinct_children. cbn. apply NoDup_singleton. }
  rewrite bind_singleton in Hs. cbn [subshapes] in Hs.
  apply elem_of_cons in Hs as [->|Hs]; [exact Hids|by apply Hcoins].
Qed.

(** The hierarchy [bip44_tree] builds has no two siblings with the same id. *)
Lemma bip44_tree_sibling_ids config h t sh :
  NoDup config.*1 → bip44_shape config = Some sh →
  fresh_hierarchy h t → shape_in h t = Some sh →
  ∀ s, s ∈ subtrees t → NoDup (child_ids h (root_of s)).
Proof.
  intros Hnames Hsh [_ Hfresh] Hin s Hs.
  destruct (subtree_shape _ _ _ Hin s Hs) as (x & Hx & Hsx).
  rewrite (child_ids_shape _ _ _ (Hfresh s Hs) Hsx).
  by eapply bip44_shape_distinct.
Qed.


(** X16: [bip44_tree] stops at the first entry it cannot build, after the
    valid entries before it: with [AssertionError] for a coin without
    accounts (checked before the coin's name), with [KeyError] for a name
    that is not a member of [CoinType], and with [AssertionError] for the
    first account that has neither a private nor a public address. *)
Theorem X16_bip44_tree_rejects good coin coin_config rest st :
  valid_config good →
  (coin_config = [] →
   ∃ st', bip44.bip44_tree (good ++ (coin, coin_config) :: rest) st
          = (Raise (AssertionError CoinConfigEmpty), st')) ∧
  (coin_config ≠ [] → constants.CoinType coin = None →
   ∃ st', bip44.bip44_tree (good ++ (coin, coin_config) :: rest) st
          = (Raise KeyError, st')) ∧
  (∀ accs n_addresses rest_accs,
     coin_config = accs ++ n_addresses :: rest_accs →
     is_Some (constants.CoinType coin) →
     Forall valid_account accs → Z.of_nat (length accs) ≤ 2 ^ 64 →
     n_addresses.1 ≤ 0 → n_addresses.2 ≤ 0 →
     ∃ st', bip44.bip44_tree (good ++ (coin, coin_config) :: rest) st
            = (Raise (AssertionError AccountAddresses), st')).
Proof.
  intros Hvalid.
  destruct (master_purpose_ok st) as (master & purpose & st3 & Hrun3 & _ & Hpurpose & _).
  destruct (coins_prefix_ok purpose good _ st3 Hvalid Hpurpose)
    as (st4 & ts & shs & Hrun4 & G & _).
  destruct (grows_parent _ _ _ _ _ G) as [n4 Hp4].
  split; [|split].
  - intros ->. exists st4. rewrite Hrun3.
    apply bind_raise. rewrite Hrun4. cbn [bip44.coins length Nat.eqb negb].
    by apply bind_raise.
  - intros Hne Hnone. exists st4. rewrite Hrun3.
    apply bind_raise. rewrite Hrun4. cbn [bip44.coins].
    assert (Hb : negb (Nat.eqb (length coin_config) 0) = true) by (by destruct coin_config).
    rewrite Hb, (bind_ok _ _ _ _ _ (assert_true _ _)). rewrite Hnone.
    by apply bind_raise.
  - intros accs na rest_accs -> Hcoin Haccs Hlen Hnp Hnq.
    destruct (coin_node_ok purpose coin (accs ++ na :: rest_accs) n4 st4)
      as (coin_type & coin_node & st5 & _ & Hrun5 & Hcn & _); [by destruct accs|done|done|].
    destruct (accounts_prefix_ok coin_node accs 0 _ st5 Haccs ltac:(lia) ltac:(lia) Hcn)
      as (st6 & ts' & Hrun6 & _).
    exists st6. rewrite Hrun3. apply bind_raise. rewrite Hrun4, Hrun5.
    apply bind_raise. rewrite Hrun6. cbn [bip44.accounts].
    apply bind_raise. by apply account_raise.
Qed.

(** The shape of a hierarchy depends on the ids and tags of its objects
    only. *)
Lemma shape_in_same_labels h h' t :
  (∀ l, l ∈ locs t →
        (fun n => (id n, tag n)) <$> h' !! l = (fun n => (id n, tag n)) <$> h !! l) →
  shape_in h' t = shape_in h t.
Proof.
  induction t as [l cs IH] using Tree_forall_ind. intros Hl.
  rewrite !shape_in_unfold.
  assert (Hcs : ∀ l', l' ∈ cs ≫= locs →
            (fun n => (id n, tag n)) <$> h' !! l' = (fun n => (id n, tag n)) <$> h !! l').
  { intros l' Hl'. apply Hl. simpl. by right. }
  assert (Heq : mapM (shape_in h') cs = mapM (shape_in h) cs).
  { clear Hl. induction IH as [|c cs IHc _ IHcs]; [done|].
    cbn [mapM]. rewrite IHc, IHcs; [done| |].
    - intros l' Hl'. apply Hcs. rewrite bind_cons. apply elem_of_app. by right.
    - intros l' Hl'. apply Hcs. rewrite bind_cons. apply elem_of_app. by left. }
  specialize (Hl l ltac:(simpl; by left)).
  destruct (h' !! l) as [n'|], (h !! l) as [n|]; cbn in Hl; try done.
  injection Hl as Hid Htag. cbn. by rewrite Heq, Hid, Htag.
Qed.

Section BIP44Wallet.

Variable prf_f : bytes → bytes → bytes.
Variable enc_f : bytes → bytes → Entropy → Result (bytes * bytes) * Entropy.
Variable curve : ecdsa.Curve.
Variable randrange_from_seed__trytryagain : bytes → Z → Z.
Variable SigningKey_sign : ecdsa.SigningKey → bytes → Entropy → bytes * Entropy.

Hypothesis enc_f_total :
  ∀ k x m e, ∃ c e', enc_f (prf_f k x) m e = (Ok c, e').
Hypothesis prf_f_length : ∀ k m, length (prf_f k m) = 32%nat.
Hypothesis randrange_range : ∀ seed,
  1 ≤ randrange_from_seed__trytryagain seed (ecdsa.order curve) < ecdsa.order curve.
Hypothesis point_range : ∀ d, 0 ≤ ecdsa.x (ecdsa.generator_mul curve d) < 2 ^ 256.

(** X17: constructing an [ArculaBIP44] wallet succeeds for every valid
    configuration (a dictionary: no coin twice) and every 64-byte seed: the
    tree [bip44_tree] builds never trips the tree check of the derivation
    engine or the sibling-id check of the certificate layer.  The wallet's
    hierarchy is the object graph below the returned root: new, pairwise
    distinct objects with the BIP44 layout of the configuration, each
    listing its children in [edges].  Afterwards
    [get_cold_storage_public_key] returns the key derived from the second half
    of the seed and every node of that hierarchy holds a signing key and a
    certificate over its compressed public key and its 8-byte id. *)
Theorem X17_ArculaBIP44_init config seed fuel st sh :
  valid_config config → NoDup config.*1 → length seed = 64%nat →
  bip44_shape config = Some sh → (shape_size sh ≤ fuel)%nat →
  ∃ t cold st',
    bip44.ArculaBIP44__init__ prf_f enc_f curve randrange_from_seed__trytryagain
      SigningKey_sign fuel seed config st = (Ok (root_of t), st') ∧
    shape_in (heap st') t = Some sh ∧
    length (locs t) = shape_size sh ∧
    NoDup (locs t) ∧
    (∀ l, l ∈ locs t → heap st !! l = None) ∧
    crypto.ecdsa_keygen randrange_from_seed__trytryagain (skipn 32 seed) curve = Ok cold ∧
    bip44.get_cold_storage_public_key st'
    = (Ok (Some (ecdsa.get_verifying_key cold)), st') ∧
    ∀ s, s ∈ subtrees t →
      ∃ n sk sg pkb,
        heap st' !! root_of s = Some n ∧
        edges n = root_of <$> children s ∧
        _signing_key n = Some sk ∧
        encode.verification_key_to_bytes_33 (ecdsa.get_verifying_key sk) = Ok pkb ∧
        certificate n = Some (sg, (pkb, to_bytes_big 8 (id n))).
Proof.
  intros Hvalid Hnames Hseed Hsh Hfuel.
  destruct (bip44_tree_builds config st Hvalid)
    as (st0 & t & sh' & Hrun0 & Hsh' & Hin & Hfresh & Hnew & _).
  rewrite Hsh in Hsh'. injection Hsh' as <-.
  pose proof (shape_size_locs _ _ _ Hin) as Hsize.
  set (st0' := {| heap := heap st0; entropy := entropy st0;
                  cold_storage_public_key := None |}).
  assert (Hfresh' : fresh_hierarchy (heap st0') t) by exact Hfresh.
  destruct (arcula_keygen_fresh_tree prf_f enc_f curve randrange_from_seed__trytryagain
              SigningKey_sign enc_f_total prf_f_length randrange_range point_range
              t st0' seed fuel Hfresh' ltac:(lia) Hseed)
    as (st1 & cold & r & st' & Hrun1 & Hcold & Hrun & Hpk & _ & _ & Hok & _).
  destruct Hok as [-> Hcert].
  { by eapply bip44_tree_sibling_ids. }
  pose proof (keeps_structure_keygen prf_f enc_f _ _ _ _ _ _ Hrun1) as Hstruct.
  assert (Hnodes : ∀ s, s ∈ subtrees t →
            ∃ n0 n sk sg pkb,
              heap st0 !! root_of s = Some n0 ∧ heap st' !! root_of s = Some n ∧
              id n = id n0 ∧ tag n = tag n0 ∧
              edges n = root_of <$> children s ∧
              _signing_key n = Some sk ∧
              encode.verification_key_to_bytes_33 (ecdsa.get_verifying_key sk) = Ok pkb ∧
              certificate n = Some (sg, (pkb, to_bytes_big 8 (id n)))).
  { intros s Hs. destruct (proj2 Hfresh s Hs) as (n0 & Hn0 & Hedges & _).
    destruct (Hcert s Hs) as (n1 & n' & Hn1 & Hn' & (k & sk & pkb & e & _ & _ & Hpkb & ->)).
    specialize (Hstruct (root_of s)). rewrite Hn1 in Hstruct.
    change (heap st0') with (heap st0) in Hstruct. rewrite Hn0 in Hstruct.
    cbn in Hstruct. unfold structure_of in Hstruct.
    injection Hstruct as Hid Htag Hed _ _.
    eexists n0, _, sk, _, pkb. split; [done|]. split; [exact Hn'|].
    cbn. split; [done|]. split; [done|]. split; [by rewrite Hed|].
    split; [done|]. split; [done|]. done. }
  exists t, cold, st'. split.
  { unfold bip44.ArculaBIP44__init__. rewrite (bind_ok _ _ _ _ _ Hrun0).
    unfold bind at 1. unfold bip44.Arcula__init__. fold st0'.
    by rewrite (bind_ok _ _ _ _ _ Hrun). }
  split.
  { rewrite <- Hin. apply shape_in_same_labels. intros l Hl.
    rewrite locs_subtrees in Hl. apply list_elem_of_fmap in Hl as (s & -> & Hs).
    destruct (Hnodes s Hs) as (n0 & n & _ & _ & _ & Hn0 & Hn & Hid & Htag & _).
    rewrite Hn0, Hn. cbn. by rewrite Hid, Htag. }
  split; [done|]. split; [exact (proj1 Hfresh)|]. split; [exact Hnew|].
  split; [done|].
  split; [unfold bip44.get_cold_storage_public_key; by rewrite Hpk|].
  intros s Hs.
  destruct (Hnodes s Hs) as (n0 & n & sk & sg & pkb & _ & Hn & _ & _ & He & Hsk & Hpkb & Hc).
  by exists n, sk, sg, pkb.
Qed.

End BIP44Wallet.

Ltac valid_config_step :=
  first
    [ apply Forall_nil_2
    | apply Forall_cons_2
    | lazymatch goal with
      | |- valid_coin _ =>
          split; [eexists; reflexivity|];
          split; [discriminate|]; split; [cbn; lia|]
      | |- valid_account _ =>
          split; [cbn; first [left; lia | right; lia]|]; split; cbn; lia
      end ].



Lemma X16_witness :
  valid_config [("BTC"%string, [(1, 2)])] ∧
  (∃ st', bip44.bip44_tree [("BTC"%string, [(1, 2)]); ("LTC"%string, [])]
            (Toy.init ∅ Toy.zeros)
          = (Raise (AssertionError CoinConfigEmpty), st')) ∧
  (∃ st', bip44.bip44_tree [("BTC"%string, [(1, 2)]); ("ETH"%string, [(1, 1)])]
            (Toy.init ∅ Toy.zeros)
          = (Raise KeyError, st')) ∧
  (∃ st', bip44.bip44_tree [("BTC"%string, [(1, 2)]); ("LTC"%string, [(1, 1); (0, 0)])]
            (Toy.init ∅ Toy.zeros)
          = (Raise (AssertionError AccountAddresses), st')).
Proof.
  assert (Hgood : valid_config [("BTC"%string, [(1, 2)])]).
  { unfold valid_config. repeat valid_config_step. }
  split; [exact Hgood|]. split; [|split].
  - exact (proj1 (X16_bip44_tree_rejects [("BTC"%string, [(1, 2)])] "LTC"%string [] []
                    (Toy.init ∅ Toy.zeros) Hgood) eq_refl).
  - refine (proj1 (proj2 (X16_bip44_tree_rejects [("BTC"%string, [(1, 2)])] "ETH"%string
                            [(1, 1)] [] (Toy.init ∅ Toy.zeros) Hgood)) _ eq_refl).
    discriminate.
  - refine (proj2 (proj2 (X16_bip44_tree_rejects [("BTC"%string, [(1, 2)])] "LTC"%string
                            [(1, 1); (0, 0)] [] (Toy.init ∅ Toy.zeros) Hgood))
              [(1, 1)] (0, 0) [] eq_refl _ _ _ _ _).
    + eexists. reflexivity.
    + repeat valid_config_step.
    + cbn. lia.
    + cbn. lia.
    + cbn. lia.
Defined.

Lemma X17_witness :
  valid_config [("BTC"%string, [(1, 2)])] ∧
  NoDup [("BTC"%string, [(1, 2)])].*1 ∧
  length Toy.seed64 = 64%nat ∧
  ∃ t st',
    bip44.ArculaBIP44__init__ Toy.prf_f Toy.enc_f Toy.curve
      Toy.randrange_from_seed__trytryagain Toy.SigningKey_sign 20 Toy.seed64
      [("BTC"%string, [(1, 2)])] (Toy.init ∅ Toy.zeros) = (Ok (root_of t), st') ∧
    shape_in (heap st') t = bip44_shape [("BTC"%string, [(1, 2)])] ∧
    length (locs t) = 9%nat ∧
    ∃ n, heap st' !! root_of t = Some n ∧ edges n = root_of <$> children t ∧
         is_Some (certificate n).
Proof.
  assert (Hgood : valid_config [("BTC"%string, [(1, 2)])]).
  { unfold valid_config. repeat valid_config_step. }
  assert (Hnames : NoDup [("BTC"%string, [(1, 2)])].*1).
  { cbn. apply NoDup_singleton. }
  split; [exact Hgood|]. split; [exact Hnames|]. split; [reflexivity|].
  assert (Hsh : ∃ sh, bip44_shape [("BTC"%string, [(1, 2)])] = Some sh ∧
                      shape_size sh = 9%nat).
  { eexists. split; [vm_compute; reflexivity|reflexivity]. }
  destruct Hsh as (sh & Hsh & Hnine).
  destruct (X17_ArculaBIP44_init Toy.prf_f Toy.enc_f Toy.curve
              Toy.randrange_from_seed__trytryagain Toy.SigningKey_sign
              ToyFacts.toy_enc_f_total ToyFacts.toy_prf_f_length
              ToyFacts.toy_randrange_range ToyFacts.toy_point_range
              [("BTC"%string, [(1, 2)])] Toy.seed64 20 (Toy.init ∅ Toy.zeros)
              sh Hgood Hnames eq_refl Hsh ltac:(rewrite Hnine; lia))
    as (t & cold & st' & Hrun & Hshape & Hsize & _ & _ & _ & _ & Hall).
  exists t, st'. split; [exact Hrun|]. split; [by rewrite Hshape, Hsh|].
  split; [by rewrite Hsize|].
  destruct (Hall t (subtrees_self t)) as (n & sk & sg & pkb & Hn & He & _ & _ & Hc).
  exists n. split; [exact Hn|]. split; [exact He|]. rewrite Hc. by eexists.
Defined.
